(** * NavAI real-time interviewer: session orchestration

    A shallow embedding of the session layer of the interview server
    ([backend/server.py]), of the change-gated vision processor
    ([backend/modules/vision_processor.py]) and of the start-up path through
    [backend/modules/config.py] and [backend/modules/report_generator.py],
    with the properties the design document states about them.

    Conventions of the embedding.
    - Wall-clock readings ([time.time()]) are rationals.  The n-th interaction
      of a session with the outside world (a clock reading, a collaborator
      call) happens at [clock n]; the session carries the counter [ticks].
    - Collaborators (transcription, vision, evaluation, speech, summary, PDF)
      are functions of the interaction counter and of their arguments, bundled
      in a [World]; every call is recorded in the session's [trace].
    - A coroutine is a computation in a state monad over the session: it
      returns a value and leaves a session state.  The websocket loop awaits
      each handler before it receives the next message, so inbound messages
      are handled one after the other.  The screen-share timeout task runs
      beside the loop: as an event of the session it is its body with
      nothing handled from its wake-up to its end, and [timeout_beside]
      cuts it where it awaits the speech of its closing notice, with the
      events the loop handles meanwhile. *)

From Stdlib Require Import Ascii QArith Lqa.
From stdpp Require Import gmap strings list.
From stdpp Require Import pretty.

Set Default Proof Using "Type".

(** ** Python values and strings *)

Module Py.

(** Code points below 256 for which [str.isspace()] holds. *)
Definition is_space (c : ascii) : bool :=
  let n := nat_of_ascii c in
  ((9 <=? n) && (n <=? 13)) || ((28 <=? n) && (n <=? 32))
  || (n =? 133) || (n =? 160).

Definition nonempty (s : string) : bool :=
  match s with EmptyString => false | String _ _ => true end.

Fixpoint lstrip (s : string) : string :=
  match s with
  | EmptyString => EmptyString
  | String c r => if is_space c then lstrip r else s
  end.

Fixpoint rstrip (s : string) : string :=
  match s with
  | EmptyString => EmptyString
  | String c r =>
      let r' := rstrip r in
      if is_space c && negb (nonempty r') then EmptyString else String c r'
  end.

(** [s.strip()] *)
Definition strip (s : string) : string := rstrip (lstrip s).

(** [s.split()]: the maximal runs of non-whitespace characters; [w] is the
    word being read. *)
Fixpoint split_from (w : string) (s : string) : list string :=
  match s with
  | EmptyString => if nonempty w then [w] else []
  | String c r =>
      if is_space c
      then (if nonempty w then w :: split_from EmptyString r
            else split_from EmptyString r)
      else split_from (w +:+ String c EmptyString) r
  end.

Definition split (s : string) : list string := split_from EmptyString s.

(** [s[:n]] *)
Fixpoint take_str (n : nat) (s : string) : string :=
  match n, s with
  | S n', String c r => String c (take_str n' r)
  | _, _ => EmptyString
  end.

Definition lower_char (c : ascii) : ascii :=
  let n := nat_of_ascii c in
  if ((65 <=? n) && (n <=? 90))
     || ((192 <=? n) && (n <=? 222) && negb (n =? 215))
  then ascii_of_nat (n + 32) else c.

(** [s.lower()] *)
Fixpoint lower (s : string) : string :=
  match s with
  | EmptyString => EmptyString
  | String c r => String (lower_char c) (lower r)
  end.

(** [needle in hay] *)
Fixpoint contains (needle hay : string) : bool :=
  String.prefix needle hay
  || match hay with
     | EmptyString => false
     | String _ r => contains needle r
     end.

(** The values a decoded JSON object of the evaluation service holds. *)
Inductive PyVal : Type :=
| VNone
| VBool (b : bool)
| VInt (z : Z)
| VStr (s : string).

(** Truth value of [if v:]. *)
Definition truthy (v : PyVal) : bool :=
  match v with
  | VNone => false
  | VBool b => b
  | VInt z => negb (z =? 0)%Z
  | VStr s => nonempty s
  end.

(** [type(v).__name__] *)
Definition type_name (v : PyVal) : string :=
  match v with
  | VNone => "NoneType"
  | VBool _ => "bool"
  | VInt _ => "int"
  | VStr _ => "str"
  end.

(** [v == "lit"] for a string literal. *)
Definition eq_str (v : PyVal) (lit : string) : bool :=
  match v with
  | VStr s => String.eqb s lit
  | _ => false
  end.

(** [d.get(k)] and [d.get(k, default)] *)
Definition get (d : gmap string PyVal) (k : string) : PyVal :=
  default VNone (d !! k).

Definition get_or (d : gmap string PyVal) (k : string) (dflt : PyVal) : PyVal :=
  default dflt (d !! k).

(** Outcome of a statement that may raise. *)
Inductive result (A : Type) : Type :=
| Ok (a : A)
| Raise (exc : string) (msg : string).
Arguments Ok {A} a.
Arguments Raise {A} exc msg.

Definition and_then {A B} (r : result A) (k : A -> result B) : result B :=
  match r with
  | Ok a => k a
  | Raise e m => Raise e m
  end.

End Py.

Import Py.

(** Rational comparisons as the code writes them. *)
Definition Qltb (a b : Q) : bool := negb (Qle_bool b a).
Definition Qgeb (a b : Q) : bool := Qle_bool b a.
Definition Qgtb (a b : Q) : bool := negb (Qle_bool a b).

(** ** Data model *)

(** A decoded screen capture: [np.array(image.convert('RGB'))]. *)
Record Frame : Type := mkFrame {
  height : nat;
  width : nat;
  pixels : list Z
}.

(** One entry of [InterviewSession.history] (server.py, lines 339-355). *)
Record Turn : Type := mkTurn {
  slide : Z;
  transcript : string;
  score : PyVal;
  technical_depth : PyVal;
  clarity : PyVal;
  visual_quality : PyVal;
  is_final_for_topic : PyVal;
  conflict : PyVal;
  conflict_description : PyVal;
  feedback : PyVal;
  question : PyVal;
  topic : PyVal;
  response_type : PyVal;
  turn_screen_context : string;
  timestamp : Q
}.

(** [interview_record] of [stop] and [generate_report_on_demand]. *)
Record InterviewRecord : Type := mkRecord {
  rec_session_id : string;
  rec_timestamp : Q;
  auto_ended : bool;
  duration_minutes : Q;
  total_questions : nat;
  rec_history : list Turn;
  screen_contexts_count : nat;
  summary : option (gmap string PyVal)
}.

(** The [data] argument of [send_event]. *)
Inductive Payload : Type :=
| PNone
| PDict (kv : list (string * PyVal))
| PComplete (summary : gmap string PyVal) (history : list Turn)
    (session_id : string) (report_url : option string).

(** What a session does to the outside world. *)
Inductive Effect : Type :=
| ESend (event_type : string) (data : Payload) (timestamp : Q)
| ETranscribe (audio : list Byte.byte) (encoding : string) (sample_rate : Z)
| EVision (image : Frame)
| EEvaluate (transcript screen_context : string) (history : list Turn)
| EOpening
| ESummary (history : list Turn) (screen_contexts : list string)
| ETts (text : string)
| ESave (session_id : string) (record : InterviewRecord)
| EPdf (summary : gmap string PyVal) (session_id : string)
    (history : list Turn)
| ECreateTimeoutTask
| EStopping (auto_ended : bool).

(** What the vision endpoint answers: a description, or an exception with
    its message. *)
Inductive ApiResult : Type :=
| ApiOk (content : string)
| ApiRaise (message : string).

(** [VisionProcessor]: the frame comparison state and its configuration. *)
Record VisionProcessor : Type := mkVision {
  _last_frame : option Frame;
  _last_analysis : string;
  _last_api_call : Q;
  change_threshold : Q;
  min_interval : Q
}.

Definition set__last_frame (v : option Frame) (p : VisionProcessor) :=
  mkVision v (_last_analysis p) (_last_api_call p)
    (change_threshold p) (min_interval p).
Definition set__last_analysis (v : string) (p : VisionProcessor) :=
  mkVision (_last_frame p) v (_last_api_call p)
    (change_threshold p) (min_interval p).
Definition set__last_api_call (v : Q) (p : VisionProcessor) :=
  mkVision (_last_frame p) (_last_analysis p) v
    (change_threshold p) (min_interval p).

(** [InterviewSession], with the interaction counter and the trace. *)
Record Session : Type := mkSession {
  session_id : string;
  vision : VisionProcessor;
  is_active : bool;
  is_ai_speaking : bool;
  screen_context : string;
  screen_contexts : list string;
  history : list Turn;
  slide_count : Z;
  audio_chunks : list (list Byte.byte);
  last_transcript_time : Q;
  accumulated_transcript : string;
  _audio_encoding : string;
  _audio_sample_rate : Z;
  last_question_time : Q;
  min_question_interval : Q;
  pending_response : bool;
  screen_share_active : bool;
  screen_share_lost_time : option Q;
  screen_reconnect_timeout : Q;
  awaiting_screen_reshare : bool;
  is_stopped : bool;
  ticks : nat;
  trace : list Effect
}.

Definition set_vision (v : VisionProcessor) (s : Session) : Session :=
  mkSession (session_id s) v (is_active s) (is_ai_speaking s)
    (screen_context s) (screen_contexts s) (history s) (slide_count s)
    (audio_chunks s) (last_transcript_time s) (accumulated_transcript s)
    (_audio_encoding s) (_audio_sample_rate s) (last_question_time s)
    (min_question_interval s) (pending_response s) (screen_share_active s)
    (screen_share_lost_time s) (screen_reconnect_timeout s)
    (awaiting_screen_reshare s) (is_stopped s) (ticks s) (trace s).
Definition set_is_active (v : bool) (s : Session) : Session :=
  mkSession (session_id s) (vision s) v (is_ai_speaking s)
    (screen_context s) (screen_contexts s) (history s) (slide_count s)
    (audio_chunks s) (last_transcript_time s) (accumulated_transcript s)
    (_audio_encoding s) (_audio_sample_rate s) (last_question_time s)
    (min_question_interval s) (pending_response s) (screen_share_active s)
    (screen_share_lost_time s) (screen_reconnect_timeout s)
    (awaiting_screen_reshare s) (is_stopped s) (ticks s) (trace s).
Definition set_is_ai_speaking (v : bool) (s : Session) : Session :=
  mkSession (session_id s) (vision s) (is_active s) v (screen_context s)
    (screen_contexts s) (history s) (slide_count s) (audio_chunks s)
    (last_transcript_time s) (accumulated_transcript s)
    (_audio_encoding s) (_audio_sample_rate s) (last_question_time s)
    (min_question_interval s) (pending_response s) (screen_share_active s)
    (screen_share_lost_time s) (screen_reconnect_timeout s)
    (awaiting_screen_reshare s) (is_stopped s) (ticks s) (trace s).
Definition set_screen_context (v : string) (s : Session) : Session :=
  mkSession (session_id s) (vision s) (is_active s) (is_ai_speaking s) v
    (screen_contexts s) (history s) (slide_count s) (audio_chunks s)
    (last_transcript_time s) (accumulated_transcript s)
    (_audio_encoding s) (_audio_sample_rate s) (last_question_time s)
    (min_question_interval s) (pending_response s) (screen_share_active s)
    (screen_share_lost_time s) (screen_reconnect_timeout s)
    (awaiting_screen_reshare s) (is_stopped s) (ticks s) (trace s).
Definition set_screen_contexts (v : list string) (s : Session) : Session :=
  mkSession (session_id s) (vision s) (is_active s) (is_ai_speaking s)
    (screen_context s) v (history s) (slide_count s) (audio_chunks s)
    (last_transcript_time s) (accumulated_transcript s)
    (_audio_encoding s) (_audio_sample_rate s) (last_question_time s)
    (min_question_interval s) (pending_response s) (screen_share_active s)
    (screen_share_lost_time s) (screen_reconnect_timeout s)
    (awaiting_screen_reshare s) (is_stopped s) (ticks s) (trace s).
Definition set_history (v : list Turn) (s : Session) : Session :=
  mkSession (session_id s) (vision s) (is_active s) (is_ai_speaking s)
    (screen_context s) (screen_contexts s) v (slide_count s)
    (audio_chunks s) (last_transcript_time s) (accumulated_transcript s)
    (_audio_encoding s) (_audio_sample_rate s) (last_question_time s)
    (min_question_interval s) (pending_response s) (screen_share_active s)
    (screen_share_lost_time s) (screen_reconnect_timeout s)
    (awaiting_screen_reshare s) (is_stopped s) (ticks s) (trace s).
Definition set_slide_count (v : Z) (s : Session) : Session :=
  mkSession (session_id s) (vision s) (is_active s) (is_ai_speaking s)
    (screen_context s) (screen_contexts s) (history s) v (audio_chunks s)
    (last_transcript_time s) (accumulated_transcript s)
    (_audio_encoding s) (_audio_sample_rate s) (last_question_time s)
    (min_question_interval s) (pending_response s) (screen_share_active s)
    (screen_share_lost_time s) (screen_reconnect_timeout s)
    (awaiting_screen_reshare s) (is_stopped s) (ticks s) (trace s).
Definition set_audio_chunks (v : list (list Byte.byte)) (s : Session) : Session :=
  mkSession (session_id s) (vision s) (is_active s) (is_ai_speaking s)
    (screen_context s) (screen_contexts s) (history s) (slide_count s) v
    (last_transcript_time s) (accumulated_transcript s)
    (_audio_encoding s) (_audio_sample_rate s) (last_question_time s)
    (min_question_interval s) (pending_response s) (screen_share_active s)
    (screen_share_lost_time s) (screen_reconnect_timeout s)
    (awaiting_screen_reshare s) (is_stopped s) (ticks s) (trace s).
Definition set_last_transcript_time (v : Q) (s : Session) : Session :=
  mkSession (session_id s) (vision s) (is_active s) (is_ai_speaking s)
    (screen_context s) (screen_contexts s) (history s) (slide_count s)
    (audio_chunks s) v (accumulated_transcript s) (_audio_encoding s)
    (_audio_sample_rate s) (last_question_time s)
    (min_question_interval s) (pending_response s) (screen_share_active s)
    (screen_share_lost_time s) (screen_reconnect_timeout s)
    (awaiting_screen_reshare s) (is_stopped s) (ticks s) (trace s).
Definition set_accumulated_transcript (v : string) (s : Session) : Session :=
  mkSession (session_id s) (vision s) (is_active s) (is_ai_speaking s)
    (screen_context s) (screen_contexts s) (history s) (slide_count s)
    (audio_chunks s) (last_transcript_time s) v (_audio_encoding s)
    (_audio_sample_rate s) (last_question_time s)
    (min_question_interval s) (pending_response s) (screen_share_active s)
    (screen_share_lost_time s) (screen_reconnect_timeout s)
    (awaiting_screen_reshare s) (is_stopped s) (ticks s) (trace s).
Definition set__audio_encoding (v : string) (s : Session) : Session :=
  mkSession (session_id s) (vision s) (is_active s) (is_ai_speaking s)
    (screen_context s) (screen_contexts s) (history s) (slide_count s)
    (audio_chunks s) (last_transcript_time s) (accumulated_transcript s) v
    (_audio_sample_rate s) (last_question_time s)
    (min_question_interval s) (pending_response s) (screen_share_active s)
    (screen_share_lost_time s) (screen_reconnect_timeout s)
    (awaiting_screen_reshare s) (is_stopped s) (ticks s) (trace s).
Definition set__audio_sample_rate (v : Z) (s : Session) : Session :=
  mkSession (session_id s) (vision s) (is_active s) (is_ai_speaking s)
    (screen_context s) (screen_contexts s) (history s) (slide_count s)
    (audio_chunks s) (last_transcript_time s) (accumulated_transcript s)
    (_audio_encoding s) v (last_question_time s) (min_question_interval s)
    (pending_response s) (screen_share_active s)
    (screen_share_lost_time s) (screen_reconnect_timeout s)
    (awaiting_screen_reshare s) (is_stopped s) (ticks s) (trace s).
Definition set_last_question_time (v : Q) (s : Session) : Session :=
  mkSession (session_id s) (vision s) (is_active s) (is_ai_speaking s)
    (screen_context s) (screen_contexts s) (history s) (slide_count s)
    (audio_chunks s) (last_transcript_time s) (accumulated_transcript s)
    (_audio_encoding s) (_audio_sample_rate s) v (min_question_interval s)
    (pending_response s) (screen_share_active s)
    (screen_share_lost_time s) (screen_reconnect_timeout s)
    (awaiting_screen_reshare s) (is_stopped s) (ticks s) (trace s).
Definition set_pending_response (v : bool) (s : Session) : Session :=
  mkSession (session_id s) (vision s) (is_active s) (is_ai_speaking s)
    (screen_context s) (screen_contexts s) (history s) (slide_count s)
    (audio_chunks s) (last_transcript_time s) (accumulated_transcript s)
    (_audio_encoding s) (_audio_sample_rate s) (last_question_time s)
    (min_question_interval s) v (screen_share_active s)
    (screen_share_lost_time s) (screen_reconnect_timeout s)
    (awaiting_screen_reshare s) (is_stopped s) (ticks s) (trace s).
Definition set_screen_share_active (v : bool) (s : Session) : Session :=
  mkSession (session_id s) (vision s) (is_active s) (is_ai_speaking s)
    (screen_context s) (screen_contexts s) (history s) (slide_count s)
    (audio_chunks s) (last_transcript_time s) (accumulated_transcript s)
    (_audio_encoding s) (_audio_sample_rate s) (last_question_time s)
    (min_question_interval s) (pending_response s) v
    (screen_share_lost_time s) (screen_reconnect_timeout s)
    (awaiting_screen_reshare s) (is_stopped s) (ticks s) (trace s).
Definition set_screen_share_lost_time (v : option Q) (s : Session) : Session :=
  mkSession (session_id s) (vision s) (is_active s) (is_ai_speaking s)
    (screen_context s) (screen_contexts s) (history s) (slide_count s)
    (audio_chunks s) (last_transcript_time s) (accumulated_transcript s)
    (_audio_encoding s) (_audio_sample_rate s) (last_question_time s)
    (min_question_interval s) (pending_response s) (screen_share_active s)
    v (screen_reconnect_timeout s) (awaiting_screen_reshare s)
    (is_stopped s) (ticks s) (trace s).
Definition set_awaiting_screen_reshare (v : bool) (s : Session) : Session :=
  mkSession (session_id s) (vision s) (is_active s) (is_ai_speaking s)
    (screen_context s) (screen_contexts s) (history s) (slide_count s)
    (audio_chunks s) (last_transcript_time s) (accumulated_transcript s)
    (_audio_encoding s) (_audio_sample_rate s) (last_question_time s)
    (min_question_interval s) (pending_response s) (screen_share_active s)
    (screen_share_lost_time s) (screen_reconnect_timeout s) v
    (is_stopped s) (ticks s) (trace s).
Definition set_is_stopped (v : bool) (s : Session) : Session :=
  mkSession (session_id s) (vision s) (is_active s) (is_ai_speaking s)
    (screen_context s) (screen_contexts s) (history s) (slide_count s)
    (audio_chunks s) (last_transcript_time s) (accumulated_transcript s)
    (_audio_encoding s) (_audio_sample_rate s) (last_question_time s)
    (min_question_interval s) (pending_response s) (screen_share_active s)
    (screen_share_lost_time s) (screen_reconnect_timeout s)
    (awaiting_screen_reshare s) v (ticks s) (trace s).
Definition set_ticks (v : nat) (s : Session) : Session :=
  mkSession (session_id s) (vision s) (is_active s) (is_ai_speaking s)
    (screen_context s) (screen_contexts s) (history s) (slide_count s)
    (audio_chunks s) (last_transcript_time s) (accumulated_transcript s)
    (_audio_encoding s) (_audio_sample_rate s) (last_question_time s)
    (min_question_interval s) (pending_response s) (screen_share_active s)
    (screen_share_lost_time s) (screen_reconnect_timeout s)
    (awaiting_screen_reshare s) (is_stopped s) v (trace s).
Definition set_trace (v : list Effect) (s : Session) : Session :=
  mkSession (session_id s) (vision s) (is_active s) (is_ai_speaking s)
    (screen_context s) (screen_contexts s) (history s) (slide_count s)
    (audio_chunks s) (last_transcript_time s) (accumulated_transcript s)
    (_audio_encoding s) (_audio_sample_rate s) (last_question_time s)
    (min_question_interval s) (pending_response s) (screen_share_active s)
    (screen_share_lost_time s) (screen_reconnect_timeout s)
    (awaiting_screen_reshare s) (is_stopped s) (ticks s) v.

(** ** Coroutines as state transformers *)

(** A coroutine of a session computes a value and leaves a session state. *)
Definition M (A : Type) : Type := Session -> A * Session.

Definition ret {A : Type} (a : A) : M A := fun s => (a, s).

Definition bind {A B : Type} (m : M A) (k : A -> M B) : M B :=
  fun s => let (a, s') := m s in k a s'.

(** [self.attribute] *)
Definition gets {A : Type} (f : Session -> A) : M A := fun s => (f s, s).

(** [self.attribute = value] *)
Definition modify (f : Session -> Session) : M unit := fun s => (tt, f s).

(** The state a coroutine leaves. *)
Definition exec {A : Type} (m : M A) (s : Session) : Session := snd (m s).

(** The value a coroutine returns. *)
Definition eval {A : Type} (m : M A) (s : Session) : A := fst (m s).

Declare Scope session_scope.
Delimit Scope session_scope with session.
Bind Scope session_scope with M.

Notation "x <- m ;; k" := (bind m (fun x => k))
  (at level 100, m at next level, k at level 200, right associativity)
  : session_scope.
Notation "m ;; k" := (bind m (fun _ => k))
  (at level 100, k at level 200, right associativity) : session_scope.

(** ** The outside world *)

(** The clock and the collaborators of a session.  A collaborator that can
    raise answers with a [result]; the first argument of a collaborator is
    the value of the interaction counter at the call.  The collaborators
    read the history and the screen contexts they are passed
    ([InterviewBrain.evaluate], [generate_summary],
    [PDFReportGenerator.generate]) and do not write them. *)
Record World : Type := mkWorld {
  clock : nat -> Q;
  b64decode : string -> option (list Byte.byte);
  b64encode : list Byte.byte -> string;
  (* Image.open(io.BytesIO(bytes)) and np.array(image.convert('RGB')) *)
  open_image : list Byte.byte -> option Frame;
  (* np.array(Image.fromarray(frame).resize((320, 180), Image.LANCZOS)),
     flattened; None when it raises *)
  resize_small : Frame -> option (list Z);
  (* image.save(buffer, format="JPEG", quality=80): the message of the
     exception when it raises, as it does for a capture with an alpha
     channel or a palette *)
  save_jpeg_raises : Frame -> option string;
  groq_vision : nat -> Frame -> ApiResult;
  (* the Deepgram HTTP answer: status code and the transcript field; None
     when the request raises *)
  deepgram_listen :
    nat -> list Byte.byte -> string -> Z -> option (Z * string);
  brain_evaluate :
    nat -> string -> string -> list Turn -> result (gmap string PyVal);
  brain_generate_opening : nat -> string;
  brain_generate_summary :
    nat -> list Turn -> list string -> result (gmap string PyVal);
  tts_generate_full_audio : nat -> string -> result (list Byte.byte);
  storage_save_interview : nat -> string -> InterviewRecord -> result string;
  pdf_generate :
    nat -> gmap string PyVal -> string -> list Turn -> result string
}.

Section Handlers.

Variable W : World.

Local Open Scope session_scope.

(** One more interaction with the outside world. *)
Definition tick : M unit := modify (fun s => set_ticks (S (ticks s)) s).

(** [time.time()] *)
Definition time_time : M Q :=
  n <- gets ticks ;;
  tick ;;
  ret (clock W n).

(** A log entry. *)
Definition note (e : Effect) : M unit :=
  modify (fun s => set_trace (e :: trace s) s).

(** A collaborator call: it is recorded, it is one more interaction, and it
    is answered according to the interaction counter. *)
Definition call {A : Type} (e : Effect) (answer : nat -> A) : M A :=
  n <- gets ticks ;;
  note e ;;
  tick ;;
  ret (answer n).

(** [InterviewSession.send_event]: a failing send is logged and swallowed. *)
Definition send_event (event_type : string) (data : Payload) : M unit :=
  t <- time_time ;;
  note (ESend event_type data t).

Definition status (state : string) : M unit :=
  send_event "status" (PDict [("state"%string, VStr state)]).

(** *** vision_processor.py *)

Fixpoint sum_abs_diff (a b : list Z) : Z :=
  match a, b with
  | x :: a', y :: b' => (Z.abs (x - y) + sum_abs_diff a' b')%Z
  | _, _ => 0%Z
  end.

(** [np.mean(np.abs(current_small - last_small)) / 255.0] *)
Definition diff_ratio (current_small last_small : list Z) : Q :=
  (inject_Z (sum_abs_diff current_small last_small)
   / inject_Z (Z.of_nat (length current_small)) / 255)%Q.

(** [VisionProcessor._detect_change] *)
Definition _detect_change (p : VisionProcessor) (current_frame : Frame)
  : bool :=
  match _last_frame p with
  | None => true
  | Some last =>
      match resize_small W current_frame, resize_small W last with
      | Some current_small, Some last_small =>
          Qgtb (diff_ratio current_small last_small) (change_threshold p)
      | _, _ => true (* Assume change on error *)
      end
  end.

(** The [except] branch of [_analyze_frame] (lines 186-194). *)
Definition analysis_failed (e : string) : M string :=
  if contains "429" e || contains "rate" (lower e)
  then
    (* Return cached analysis *)
    p <- gets vision ;;
    ret (_last_analysis p)
  else ret "Screen content analysis temporarily unavailable"%string.

(** [VisionProcessor._analyze_frame]: the capture is saved as JPEG and sent
    to the vision endpoint, both inside the [try]; when the saving raises,
    no request is made. *)
Definition _analyze_frame (image : Frame) : M string :=
  (* Convert to base64 *)
  match save_jpeg_raises W image with
  | Some e => analysis_failed e
  | None =>
      (* Call Groq Vision API *)
      r <- call (EVision image) (fun n => groq_vision W n image) ;;
      match r with
      | ApiOk content => ret (strip content)
      | ApiRaise e => analysis_failed e
      end
  end.

(** [VisionProcessor.process_frame] *)
Definition process_frame (frame_base64 : string) : M (bool * option string) :=
  match b64decode W frame_base64 ≫= open_image W with
  | None => ret (false, None)
  | Some frame_array =>
      p <- gets vision ;;
      (* Check if frame has changed significantly *)
      let has_change := _detect_change p frame_array in
      if negb has_change then ret (false, None)
      else
        (* Check rate limiting *)
        now <- time_time ;;
        if Qltb (now - _last_api_call p) (min_interval p)
        then ret (false, None)
        else
          (* Call Vision API *)
          analysis <- _analyze_frame frame_array ;;
          (* Update state *)
          modify (fun s =>
            set_vision
              (set__last_api_call now
                 (set__last_analysis analysis
                    (set__last_frame (Some frame_array) (vision s)))) s) ;;
          ret (true, Some analysis)
  end.

(** *** server.py *)

(** [transcribe_audio_chunk] *)
Definition transcribe_audio_chunk (audio_data : list Byte.byte)
    (encoding : string) (sample_rate : Z) : M (option string) :=
  r <- call (ETranscribe audio_data encoding sample_rate)
         (fun n => deepgram_listen W n audio_data encoding sample_rate) ;;
  match r with
  | Some (status_code, transcript) =>
      if (status_code =? 200)%Z
      then ret (if nonempty transcript then Some (strip transcript) else None)
      else ret None
  | None => ret None
  end.

(** [InterviewSession.speak_response] *)
Definition speak_response (text : string) : M unit :=
  modify (set_is_ai_speaking true) ;;
  status "speaking" ;;
  r <- call (ETts text) (fun n => tts_generate_full_audio W n text) ;;
  match r with
  | Ok audio_bytes =>
      match audio_bytes with
      | [] => ret tt
      | _ :: _ =>
          let audio_b64 := b64encode W audio_bytes in
          send_event "audio_chunk" (PDict [("audio"%string, VStr audio_b64)]) ;;
          send_event "audio_end" PNone
      end
  | Raise _ _ => ret tt
  end ;;
  (* finally *)
  modify (set_is_ai_speaking false) ;;
  status "listening".

(** The turn [generate_response] appends. *)
Definition make_turn (slide_count : Z) (transcript : string)
    (evaluation : gmap string PyVal) (screen_context : string) (now : Q)
  : Turn :=
  {| slide := slide_count;
     transcript := transcript;
     score := get_or evaluation "score" (VInt 5);
     technical_depth :=
       get_or evaluation "technical_depth"
         (get_or evaluation "score" (VInt 5));
     clarity :=
       get_or evaluation "clarity" (get_or evaluation "score" (VInt 5));
     visual_quality := get_or evaluation "visual_quality" (VInt 5);
     is_final_for_topic :=
       get_or evaluation "is_final_for_topic" (VBool true);
     conflict := get_or evaluation "conflict_detected" (VBool false);
     conflict_description :=
       get_or evaluation "conflict_description" (VStr "");
     feedback := get_or evaluation "feedback" (VStr "");
     question :=
       get_or evaluation "next_response"
         (get_or evaluation "next_question" (VStr ""));
     topic := get_or evaluation "topic" (VStr "");
     response_type := get_or evaluation "response_type" (VStr "");
     turn_screen_context :=
       if nonempty screen_context then take_str 300 screen_context
       else EmptyString;
     timestamp := now |}.

Definition frontend_eval (evaluation : gmap string PyVal) : Payload :=
  PDict
    [("score", get_or evaluation "score" (VInt 5));
     ("conflict_detected", get_or evaluation "conflict_detected" (VBool false));
     ("feedback", get_or evaluation "feedback" (VStr ""));
     ("next_question",
       get_or evaluation "next_response"
         (get_or evaluation "next_question" (VStr "")));
     ("question_type", get_or evaluation "response_type" (VStr "question"));
     ("topic", get_or evaluation "topic" (VStr ""))]%string.

(** The [except] branch of [generate_response]. *)
Definition response_failed (msg : string) : M unit :=
  send_event "error" (PDict [("message"%string, VStr msg)]) ;;
  status "listening".

(** [generate_response], "Update history with comprehensive data"
    (lines 337-355). *)
Definition update_history (transcript : string)
    (evaluation : gmap string PyVal) : M unit :=
  modify (fun s => set_slide_count (slide_count s + 1)%Z s) ;;
  slide_count <- gets slide_count ;;
  screen_context <- gets screen_context ;;
  now <- time_time ;; (* datetime.now().isoformat() *)
  modify (fun s =>
    set_history
      (history s
       ++ [make_turn slide_count transcript evaluation screen_context now])
      s).

(** [generate_response], "Send evaluation to frontend" and "Generate and
    stream TTS" (lines 357-375). *)
Definition send_and_speak (evaluation : gmap string PyVal) : M unit :=
  send_event "evaluation" (frontend_eval evaluation) ;;
  let response_text :=
    get_or evaluation "next_response"
      (get_or evaluation "next_question" (VStr "")) in
  match response_text with
  | VStr text =>
      if nonempty text && nonempty (strip text)
      then
        speak_response text ;;
        now <- time_time ;;
        modify (set_last_question_time now) ;;
        modify (set_pending_response true)
      else status "listening"
  | other =>
      if truthy other
      then
        response_failed
          ("'" +:+ type_name other +:+ "' object has no attribute 'strip'")
      else status "listening"
  end.

(** [generate_response] once the evaluation is at hand and the turn is not
    skipped. *)
Definition record_and_respond (transcript : string)
    (evaluation : gmap string PyVal) : M unit :=
  update_history transcript evaluation ;;
  send_and_speak evaluation.

(** [InterviewSession.generate_response]; [async with self._response_lock]
    is the atomicity of the coroutine. *)
Definition generate_response (transcript : string) : M unit :=
  (* Check pacing - don't bombard with questions *)
  now <- time_time ;;
  last_question_time <- gets last_question_time ;;
  min_question_interval <- gets min_question_interval ;;
  let time_since_last := (now - last_question_time)%Q in
  if Qltb time_since_last min_question_interval
     && Qgtb last_question_time 0
  then ret tt (* Too soon, let presenter continue *)
  else
    status "thinking" ;;
    (* Get evaluation from the brain *)
    screen_context <- gets screen_context ;;
    history <- gets history ;;
    r <- call (EEvaluate transcript screen_context history)
           (fun n => brain_evaluate W n transcript screen_context history) ;;
    match r with
    | Raise _ msg => response_failed msg
    | Ok evaluation =>
        pending_response <- gets pending_response ;;
        (* Check if presenter asked a question (like "next slide?") *)
        if truthy (get evaluation "presenter_asked_question")
        then (* Respond immediately without pacing delay *)
          record_and_respond transcript evaluation
        else if eq_str (get evaluation "response_type") "proceed"
                && pending_response
        then (* They're continuing, don't interrupt *)
          status "listening"
        else record_and_respond transcript evaluation
    end.

(** [InterviewSession.finalize_transcript] *)
Definition finalize_transcript : M unit :=
  accumulated <- gets accumulated_transcript ;;
  if negb (nonempty (strip accumulated)) then ret tt
  else
    let transcript := strip accumulated in
    modify (set_accumulated_transcript EmptyString) ;;
    (* Send final transcript *)
    send_event "transcript_final" (PDict [("text"%string, VStr transcript)]) ;;
    (* Generate response *)
    generate_response transcript.

(** [process_accumulated_audio], the body of [if transcript:]
    (lines 261-273). *)
Definition accumulate (text : string) : M unit :=
  (* Send interim transcript *)
  send_event "transcript_interim" (PDict [("text"%string, VStr text)]) ;;
  (* Accumulate *)
  modify (fun s =>
    set_accumulated_transcript (accumulated_transcript s +:+ " " +:+ text) s) ;;
  (* Generate response after enough words *)
  accumulated <- gets accumulated_transcript ;;
  let word_count := length (split accumulated) in
  if 8 <=? word_count then finalize_transcript else ret tt.

(** [InterviewSession.process_accumulated_audio] *)
Definition process_accumulated_audio : M unit :=
  chunks <- gets audio_chunks ;;
  match chunks with
  | [] => ret tt
  | _ :: _ =>
      (* Combine chunks *)
      let combined_audio := concat chunks in
      modify (set_audio_chunks []) ;;
      now <- time_time ;;
      modify (set_last_transcript_time now) ;;
      (* Skip if too small *)
      if (Z.of_nat (length combined_audio) <? 16000)%Z then ret tt
      else
        encoding <- gets _audio_encoding ;;
        sample_rate <- gets _audio_sample_rate ;;
        transcript <-
          transcribe_audio_chunk combined_audio encoding sample_rate ;;
        match transcript with
        | Some text => if nonempty text then accumulate text else ret tt
        | None => ret tt
        end
  end.

(** [InterviewSession.handle_audio_chunk] *)
Definition handle_audio_chunk (audio_b64 encoding : string) (sample_rate : Z)
  : M unit :=
  active <- gets is_active ;;
  if negb active then ret tt
  else
    match b64decode W audio_b64 with
    | None => ret tt (* except: logged *)
    | Some audio_bytes =>
        modify (fun s => set_audio_chunks (audio_chunks s ++ [audio_bytes]) s) ;;
        (* Store encoding info *)
        modify (set__audio_encoding encoding) ;;
        modify (set__audio_sample_rate sample_rate) ;;
        (* Process accumulated audio every 3 seconds *)
        now <- time_time ;;
        last_transcript_time <- gets last_transcript_time ;;
        chunks <- gets audio_chunks ;;
        if Qgeb (now - last_transcript_time) 3
           && match chunks with [] => false | _ :: _ => true end
        then process_accumulated_audio
        else ret tt
    end.

(** [InterviewSession.handle_video_frame] *)
Definition handle_video_frame (frame_base64 : string) : M unit :=
  active <- gets is_active ;;
  if negb active then ret tt
  else
    (* Check for significant change before processing *)
    r <- process_frame frame_base64 ;;
    let '(has_change, analysis) := r in
    match analysis with
    | Some analysis =>
        if has_change && nonempty analysis
        then
          modify (set_screen_context analysis) ;;
          modify (fun s =>
            set_screen_contexts (screen_contexts s ++ [analysis]) s) ;;
          send_event "screen_update"
            (PDict
               [("context"%string,
                  VStr (if 200 <? String.length analysis
                        then take_str 200 analysis +:+ "..."
                        else analysis))])
        else ret tt
    | None => ret tt
    end.

(** [InterviewSession.start] *)
Definition start : M unit :=
  modify (set_is_active true) ;;
  modify (set_screen_share_active true) ;;
  (* Send opening message *)
  status "thinking" ;;
  opening <- call EOpening (brain_generate_opening W) ;;
  send_event "ai_message" (PDict [("text"%string, VStr opening)]) ;;
  speak_response opening ;;
  now <- time_time ;;
  modify (set_last_question_time now).

Definition share_lost_message : string :=
  "I noticed you stopped sharing your screen. Please reshare to continue the interview, or click End Interview to finish.".

Definition closing_message : string :=
  "Since the screen share wasn't restored, I'll wrap up the interview now. Thank you for your presentation!".

Definition welcome_back_message : string :=
  "Great, I can see your screen again! Please continue where you left off.".

(** [InterviewSession.handle_screen_share_lost]; the task it creates sleeps
    for [screen_reconnect_timeout] and then runs
    [_screen_share_timeout_checker]. *)
Definition handle_screen_share_lost : M unit :=
  active <- gets is_active ;;
  awaiting <- gets awaiting_screen_reshare ;;
  if negb active || awaiting then ret tt
  else
    modify (set_screen_share_active false) ;;
    now <- time_time ;;
    modify (set_screen_share_lost_time (Some now)) ;;
    modify (set_awaiting_screen_reshare true) ;;
    (* Notify presenter and ask to reshare *)
    send_event "screen_share_lost"
      (PDict [("message"%string, VStr share_lost_message)]) ;;
    send_event "ai_message"
      (PDict [("text"%string, VStr share_lost_message)]) ;;
    speak_response share_lost_message ;;
    (* Start timeout checker *)
    note ECreateTimeoutTask.

(** [InterviewSession.handle_screen_share_restored] *)
Definition handle_screen_share_restored : M unit :=
  awaiting <- gets awaiting_screen_reshare ;;
  if negb awaiting then ret tt
  else
    modify (set_screen_share_active true) ;;
    modify (set_awaiting_screen_reshare false) ;;
    modify (set_screen_share_lost_time None) ;;
    (* Welcome back message *)
    send_event "screen_share_restored"
      (PDict [("message"%string, VStr welcome_back_message)]) ;;
    send_event "ai_message"
      (PDict [("text"%string, VStr welcome_back_message)]) ;;
    speak_response welcome_back_message.

Definition error_summary (msg : string) : gmap string PyVal :=
  <["overall_score"%string := VInt 50]>
    (<["summary"%string :=
         VStr ("Report generation error: " +:+ take_str 100 msg)]>
       (<["recommendation"%string := VStr "NEEDS_REVIEW"]> ∅)).

Definition with_summary (r : InterviewRecord)
    (summary : gmap string PyVal) : InterviewRecord :=
  {| rec_session_id := rec_session_id r;
     rec_timestamp := rec_timestamp r;
     auto_ended := auto_ended r;
     duration_minutes := duration_minutes r;
     total_questions := total_questions r;
     rec_history := rec_history r;
     screen_contexts_count := screen_contexts_count r;
     summary := Some summary |}.

(** The [except] branch of [_generate_and_send_report]. *)
Definition report_failed (msg : string) : M unit :=
  history <- gets history ;;
  session_id <- gets session_id ;;
  send_event "interview_complete"
    (PComplete (error_summary msg) history session_id None).

(** [InterviewSession._generate_and_send_report] *)
Definition _generate_and_send_report (interview_record : InterviewRecord)
  : M unit :=
  status "thinking" ;;
  send_event "ai_message"
    (PDict [("text"%string, VStr "Generating your report...")]) ;;
  history <- gets history ;;
  screen_contexts <- gets screen_contexts ;;
  session_id <- gets session_id ;;
  r <- call (ESummary history screen_contexts)
         (fun n => brain_generate_summary W n history screen_contexts) ;;
  match r with
  | Raise _ msg => report_failed msg
  | Ok summary =>
      let interview_record := with_summary interview_record summary in
      (* Save JSON record *)
      saved <- call (ESave session_id interview_record)
                 (fun n =>
                    storage_save_interview W n session_id interview_record) ;;
      match saved with
      | Raise _ msg => report_failed msg
      | Ok _ =>
          (* Generate PDF report; a failure is not critical *)
          pdf <- call (EPdf summary session_id history)
                   (fun n => pdf_generate W n summary session_id history) ;;
          let url := ("/api/reports/" +:+ session_id)%string in
          match pdf with
          | Ok pdf_path =>
              if nonempty pdf_path
              then
                send_event "report_ready"
                  (PDict
                     [("url"%string, VStr url);
                      ("session_id"%string, VStr session_id)]) ;;
                send_event "interview_complete"
                  (PComplete summary history session_id (Some url))
              else
                send_event "interview_complete"
                  (PComplete summary history session_id None)
          | Raise _ _ =>
              send_event "interview_complete"
                (PComplete summary history session_id None)
          end
      end
  end.

(** [stop] from "Process any remaining audio" on (lines 483-512). *)
Definition flush_and_report (auto_ended : bool) : M unit :=
  (* Process any remaining audio *)
  chunks <- gets audio_chunks ;;
  match chunks with
  | [] => ret tt
  | _ :: _ => process_accumulated_audio
  end ;;
  accumulated <- gets accumulated_transcript ;;
  (if nonempty (strip accumulated) then finalize_transcript else ret tt) ;;
  (* Save basic interview data (without full report) *)
  session_id <- gets session_id ;;
  stamp <- time_time ;; (* datetime.now().isoformat() *)
  last_question_time <- gets last_question_time ;;
  duration <-
    (if Qeq_bool last_question_time 0 then ret 0%Q
     else
       now <- time_time ;;
       ret ((now - last_question_time) / 60)%Q) ;;
  history <- gets history ;;
  screen_contexts <- gets screen_contexts ;;
  let interview_record :=
    {| rec_session_id := session_id;
       rec_timestamp := stamp;
       auto_ended := auto_ended;
       duration_minutes := duration;
       total_questions := length history;
       rec_history := history;
       screen_contexts_count := length screen_contexts;
       summary := None |} in
  if auto_ended && match history with [] => false | _ :: _ => true end
  then
    (* Auto-generate for auto-ended sessions *)
    _generate_and_send_report interview_record
  else
    (* Ask user - send popup event *)
    send_event "interview_stopped"
      (PDict
         [("session_id"%string, VStr session_id);
          ("total_questions"%string, VInt (Z.of_nat (length history)));
          ("has_content"%string, VBool (0 <? length history))]).

(** [InterviewSession.stop]; the entry in the trace stands for the line
    "[Session] Stopping interview" of the log. *)
Definition stop (auto_ended generate_report : bool) : M unit :=
  active <- gets is_active ;;
  stopped <- gets is_stopped ;;
  if negb active || stopped then ret tt
  else
    modify (set_is_active false) ;;
    modify (set_is_stopped true) ;;
    modify (set_awaiting_screen_reshare false) ;;
    note (EStopping auto_ended) ;;
    flush_and_report auto_ended.

(** The body of [InterviewSession._screen_share_timeout_checker] after its
    [asyncio.sleep]. *)
Definition _screen_share_timeout_checker : M unit :=
  awaiting <- gets awaiting_screen_reshare ;;
  active <- gets is_active ;;
  if awaiting && active
  then
    (* Timeout - end interview gracefully *)
    send_event "ai_message" (PDict [("text"%string, VStr closing_message)]) ;;
    speak_response closing_message ;;
    (* Auto-stop and generate report *)
    stop true false
  else ret tt.

(** [InterviewSession.generate_report_on_demand] *)
Definition generate_report_on_demand : M unit :=
  history <- gets history ;;
  session_id <- gets session_id ;;
  match history with
  | [] =>
      send_event "interview_complete"
        (PComplete
           (<["overall_score"%string := VInt 0]>
              (<["summary"%string := VStr "No content to evaluate."]> ∅))
           [] session_id None)
  | _ :: _ =>
      stamp <- time_time ;;
      screen_contexts <- gets screen_contexts ;;
      let interview_record :=
        {| rec_session_id := session_id;
           rec_timestamp := stamp;
           auto_ended := false;
           duration_minutes := 0;
           total_questions := length history;
           rec_history := history;
           screen_contexts_count := length screen_contexts;
           summary := None |} in
      _generate_and_send_report interview_record
  end.

(** [InterviewSession.__init__], with the thresholds [VisionProcessor]
    reads from [Config]; [time.time()] is read once. *)
Definition new_session (session_id : string)
    (vision_change_threshold vision_min_interval : Q) : Session :=
  {| session_id := session_id;
     vision :=
       {| _last_frame := None;
          _last_analysis := EmptyString;
          _last_api_call := 0;
          change_threshold := vision_change_threshold;
          min_interval := vision_min_interval |};
     is_active := false;
     is_ai_speaking := false;
     screen_context := EmptyString;
     screen_contexts := [];
     history := [];
     slide_count := 0;
     audio_chunks := [];
     last_transcript_time := clock W 0;
     accumulated_transcript := EmptyString;
     _audio_encoding := "linear16";
     _audio_sample_rate := 16000;
     last_question_time := 0;
     min_question_interval := 8;
     pending_response := false;
     screen_share_active := false;
     screen_share_lost_time := None;
     screen_reconnect_timeout := 30;
     awaiting_screen_reshare := false;
     is_stopped := false;
     ticks := 1;
     trace := [] |}.

(** *** The websocket loop *)

(** The inbound JSON messages by their [type]. *)
Inductive Message : Type :=
| MAudio (data encoding : string) (sample_rate : Z)
| MVideo (data : string)
| MScreenShareLost
| MScreenShareRestored
| MGenerateReport
| MStop
| MUserSpeaking
| MUnknown.

(** What happens to a started session: a message is received, the receive
    times out, the timeout task wakes up, or the loop is left (disconnect
    or error) and its [finally] runs.  The loop awaits the handler of a
    message before it receives the next one, so the handlers of the loop
    follow one another; [TimerFired] is the timeout task from its wake-up to
    its end with nothing handled in between, and [timeout_beside] below is
    the task beside the loop. *)
Inductive Event : Type :=
| Receive (m : Message)
| ReceiveTimeout
| TimerFired
| LoopExit.

(** One iteration of the loop of [websocket_interview]. *)
Definition dispatch (m : Message) : M unit :=
  match m with
  | MAudio audio_b64 encoding sample_rate =>
      handle_audio_chunk audio_b64 encoding sample_rate
  | MVideo frame_b64 =>
      (* Mark screen share as active when receiving frames *)
      awaiting <- gets awaiting_screen_reshare ;;
      (if awaiting then handle_screen_share_restored else ret tt) ;;
      modify (set_screen_share_active true) ;;
      handle_video_frame frame_b64
  | MScreenShareLost => handle_screen_share_lost
  | MScreenShareRestored => handle_screen_share_restored
  | MGenerateReport => generate_report_on_demand
  | MStop => stop false false
  | MUserSpeaking =>
      speaking <- gets is_ai_speaking ;;
      if speaking
      then
        send_event "stop_audio" PNone ;;
        modify (set_is_ai_speaking false)
      else ret tt
  | MUnknown => ret tt
  end.

(** One event of a session, handled with nothing else in between. *)
Definition step (e : Event) : M unit :=
  match e with
  | Receive m => dispatch m
  | ReceiveTimeout => send_event "keepalive" PNone
  | TimerFired => _screen_share_timeout_checker
  | LoopExit => stop false false
  end.

(** The session after a list of events, oldest first. *)
Definition run (es : list Event) (s : Session) : Session :=
  fold_left (fun s e => exec (step e) s) es s.

(** [websocket_interview] up to the loop: construct and start. *)
Definition started_session (session_id : string)
    (vision_change_threshold vision_min_interval : Q) : Session :=
  exec start
    (new_session session_id vision_change_threshold vision_min_interval).

(** *** The timeout task beside the websocket loop

    [handle_screen_share_lost] starts [_screen_share_timeout_checker] with
    [asyncio.create_task] (line 438): the task runs beside the loop of
    [websocket_interview], and while it awaits, the loop handles the
    messages that arrive.  The task is cut here where it awaits the speech
    service for the closing notice ([speak_response], line 391, called at
    line 450): a request over the network, during which the loop is free to
    receive. *)

(** [speak_response] up to the await of the speech service
    (lines 386-391). *)
Definition speak_response_request (text : string)
  : M (result (list Byte.byte)) :=
  modify (set_is_ai_speaking true) ;;
  status "speaking" ;;
  call (ETts text) (fun n => tts_generate_full_audio W n text).

(** [speak_response] from the answer of the speech service on
    (lines 393-403). *)
Definition speak_response_answered (r : result (list Byte.byte)) : M unit :=
  match r with
  | Ok audio_bytes =>
      match audio_bytes with
      | [] => ret tt
      | _ :: _ =>
          let audio_b64 := b64encode W audio_bytes in
          send_event "audio_chunk" (PDict [("audio"%string, VStr audio_b64)]) ;;
          send_event "audio_end" PNone
      end
  | Raise _ _ => ret tt
  end ;;
  (* finally *)
  modify (set_is_ai_speaking false) ;;
  status "listening".

(** [_screen_share_timeout_checker] from its wake-up to the await of the
    speech service (lines 444-450): the answer the task waits for, or
    [None] when the task has ended at its test. *)
Definition checker_wakes_up : M (option (result (list Byte.byte))) :=
  awaiting <- gets awaiting_screen_reshare ;;
  active <- gets is_active ;;
  if awaiting && active
  then
    (* Timeout - end interview gracefully *)
    send_event "ai_message" (PDict [("text"%string, VStr closing_message)]) ;;
    r <- speak_response_request closing_message ;;
    ret (Some r)
  else ret None.

(** [_screen_share_timeout_checker] from the answer of the speech service
    to its end (lines 450-453). *)
Definition checker_resumes (r : result (list Byte.byte)) : M unit :=
  speak_response_answered r ;;
  (* Auto-stop and generate report *)
  stop true false.

(** The session after the timeout task woke up in [s], the loop handled
    the events [between] while the task awaited the speech service, and the
    task ran to its end. *)
Definition timeout_beside (between : list Event) (s : Session) : Session :=
  let s1 := exec checker_wakes_up s in
  let s2 := run between s1 in
  match eval checker_wakes_up s with
  | Some answer => exec (checker_resumes answer) s2
  | None => s2
  end.

End Handlers.

(** ** Start-up: config.py, report_generator.py and the module body of
    server.py *)

Module Config.

(** The names the body of [class Config] binds (config.py, lines 16-84).
    Every other name a class answers to is one of [type] or [object] and
    starts with two underscores. *)
Definition class_attributes : list string :=
  ["GROQ_API_KEY"; "GOOGLE_API_KEY"; "DEEPGRAM_API_KEY"; "OPENAI_API_KEY";
   "LLM_MODEL"; "VISION_MODEL"; "DEEPGRAM_MODEL"; "TTS_PROVIDER";
   "EDGE_TTS_VOICE"; "OPENAI_TTS_VOICE"; "VISION_CHANGE_THRESHOLD";
   "VISION_MIN_INTERVAL"; "MAX_SLIDES"; "REMEDIATION_THRESHOLD";
   "AUDIO_SAMPLE_RATE"; "AUDIO_CHANNELS"; "SERVER_HOST"; "SERVER_PORT";
   "validate"; "get_status"]%string.

(** [Config.<name>]; [values] is what the class body computed from the
    environment. *)
Definition getattr (values : string -> PyVal) (name : string)
  : result PyVal :=
  if bool_decide (name ∈ class_attributes) then Ok (values name)
  else
    Raise "AttributeError"
      ("type object 'Config' has no attribute '" +:+ name +:+ "'").

End Config.

(** The machine the server starts on: the environment behind [Config], the
    outcome of the import statements of a module and of [Path.mkdir]. *)
Record Host : Type := mkHost {
  config_values : string -> PyVal;
  import_module : string -> result unit;
  mkdir_exist_ok : string -> result unit
}.

Record PDFReportGenerator : Type := mkPDFReportGenerator {
  reports_dir : string
}.

(** [Path(x)] *)
Definition Path (x : PyVal) : result string :=
  match x with
  | VStr p => Ok p
  | _ =>
      Raise "TypeError"
        "expected str, bytes or os.PathLike object"
  end.

(** [PDFReportGenerator.__init__(self, reports_dir=None)] *)
Definition PDFReportGenerator_init (host : Host) (reports_dir : PyVal)
  : result PDFReportGenerator :=
  (* reports_dir or Config.REPORTS_DIR *)
  and_then (if truthy reports_dir then Ok reports_dir
        else Config.getattr (config_values host) "REPORTS_DIR")
    (fun dir =>
       and_then (Path dir) (fun p =>
       and_then (mkdir_exist_ok host p) (fun _ =>
       Ok (mkPDFReportGenerator p)))).

(** [InterviewHistoryStorage.__init__(self, storage_dir="interview_history")] *)
Definition InterviewHistoryStorage_init (host : Host) (storage_dir : string)
  : result string :=
  and_then (mkdir_exist_ok host storage_dir) (fun _ => Ok storage_dir).

Record ServerModule : Type := mkServerModule {
  interview_storage : string;
  pdf_generator : PDFReportGenerator
}.

(** The body of the module [server] down to the global PDF generator
    (server.py, lines 12-86): what [import server] runs first. *)
Definition import_server (host : Host) : result ServerModule :=
  and_then (import_module host "fastapi") (fun _ =>
  and_then (import_module host "uvicorn") (fun _ =>
  and_then (import_module host "modules") (fun _ =>
  (* Global history storage *)
  and_then (InterviewHistoryStorage_init host "interview_history")
    (fun storage =>
  (* Global PDF report generator *)
  and_then (PDFReportGenerator_init host VNone) (fun pdf =>
  Ok (mkServerModule storage pdf)))))).

(** ** Vocabulary of the properties *)

(** The two fields that number the turns. *)
Definition numbering (s : Session) : list Turn * Z :=
  (history s, slide_count s).

(** The turn at position [i] of the history carries the sequence number
    [i + 1], one more than the number of turns appended before it. *)
Definition numbered (s : Session) : Prop :=
  slide_count s = Z.of_nat (length (history s))
  /\ forall (i : nat) (t : Turn),
       history s !! i = Some t -> slide t = (Z.of_nat i + 1)%Z.

(** From [s] to [s'] the history only grew at its end, and kept its
    numbering. *)
Definition history_grows (s s' : Session) : Prop :=
  (numbered s -> numbered s') /\ history s `prefix_of` history s'.

(** *** Footprints

    What a coroutine may write and what it may do to the outside world, so
    that each coroutine can be described once and the description reused. *)

(** The attributes of a session. *)
Inductive Field : Type :=
| F_session_id
| F_vision
| F_is_active
| F_is_ai_speaking
| F_screen_context
| F_screen_contexts
| F_history
| F_slide_count
| F_audio_chunks
| F_last_transcript_time
| F_accumulated_transcript
| F_audio_encoding
| F_audio_sample_rate
| F_last_question_time
| F_min_question_interval
| F_pending_response
| F_screen_share_active
| F_screen_share_lost_time
| F_screen_reconnect_timeout
| F_awaiting_screen_reshare
| F_is_stopped
| F_ticks
| F_trace.

Definition field_index (f : Field) : nat :=
  match f with
  | F_session_id => 0
  | F_vision => 1
  | F_is_active => 2
  | F_is_ai_speaking => 3
  | F_screen_context => 4
  | F_screen_contexts => 5
  | F_history => 6
  | F_slide_count => 7
  | F_audio_chunks => 8
  | F_last_transcript_time => 9
  | F_accumulated_transcript => 10
  | F_audio_encoding => 11
  | F_audio_sample_rate => 12
  | F_last_question_time => 13
  | F_min_question_interval => 14
  | F_pending_response => 15
  | F_screen_share_active => 16
  | F_screen_share_lost_time => 17
  | F_screen_reconnect_timeout => 18
  | F_awaiting_screen_reshare => 19
  | F_is_stopped => 20
  | F_ticks => 21
  | F_trace => 22
  end.

Definition same_field (f : Field) (s s' : Session) : Prop :=
  match f with
  | F_session_id => session_id s' = session_id s
  | F_vision => vision s' = vision s
  | F_is_active => is_active s' = is_active s
  | F_is_ai_speaking => is_ai_speaking s' = is_ai_speaking s
  | F_screen_context => screen_context s' = screen_context s
  | F_screen_contexts => screen_contexts s' = screen_contexts s
  | F_history => history s' = history s
  | F_slide_count => slide_count s' = slide_count s
  | F_audio_chunks => audio_chunks s' = audio_chunks s
  | F_last_transcript_time => last_transcript_time s' = last_transcript_time s
  | F_accumulated_transcript => accumulated_transcript s' = accumulated_transcript s
  | F_audio_encoding => _audio_encoding s' = _audio_encoding s
  | F_audio_sample_rate => _audio_sample_rate s' = _audio_sample_rate s
  | F_last_question_time => last_question_time s' = last_question_time s
  | F_min_question_interval => min_question_interval s' = min_question_interval s
  | F_pending_response => pending_response s' = pending_response s
  | F_screen_share_active => screen_share_active s' = screen_share_active s
  | F_screen_share_lost_time => screen_share_lost_time s' = screen_share_lost_time s
  | F_screen_reconnect_timeout => screen_reconnect_timeout s' = screen_reconnect_timeout s
  | F_awaiting_screen_reshare => awaiting_screen_reshare s' = awaiting_screen_reshare s
  | F_is_stopped => is_stopped s' = is_stopped s
  | F_ticks => ticks s' = ticks s
  | F_trace => trace s' = trace s
  end.

(** The kinds of effect; the event [transcript_final], which hands a
    finalized transcript over, is a kind of its own. *)
Inductive Kind : Type :=
| KSend
| KFinal
| KTranscribe
| KVision
| KEvaluate
| KOpening
| KSummary
| KTts
| KSave
| KPdf
| KCreateTimeoutTask
| KStopping.

Definition kind (e : Effect) : Kind :=
  match e with
  | ESend event_type _ _ =>
      if String.eqb event_type "transcript_final" then KFinal else KSend
  | ETranscribe _ _ _ => KTranscribe
  | EVision _ => KVision
  | EEvaluate _ _ _ => KEvaluate
  | EOpening => KOpening
  | ESummary _ _ => KSummary
  | ETts _ => KTts
  | ESave _ _ => KSave
  | EPdf _ _ _ => KPdf
  | ECreateTimeoutTask => KCreateTimeoutTask
  | EStopping _ => KStopping
  end.

Definition kind_index (k : Kind) : nat :=
  match k with
  | KSend => 0
  | KFinal => 11
  | KTranscribe => 1
  | KVision => 2
  | KEvaluate => 3
  | KOpening => 4
  | KSummary => 5
  | KTts => 6
  | KSave => 7
  | KPdf => 8
  | KCreateTimeoutTask => 9
  | KStopping => 10
  end.

Definition writes (f : Field) (ws : list Field) : bool :=
  existsb (fun g => Nat.eqb (field_index f) (field_index g)) ws.

Definition does (k : Kind) (ks : list Kind) : bool :=
  existsb (fun g => Nat.eqb (kind_index k) (kind_index g)) ks.

(** From [s] to [s'] only the attributes in [ws] were written, and the trace
    grew by effects of the kinds in [ks]. *)
Definition acts (ws : list Field) (ks : list Kind) (s s' : Session) : Prop :=
  (forall f : Field, writes f ws = false -> same_field f s s')
  /\ exists new : list Effect,
       trace s' = new ++ trace s
       /\ forallb (fun e => does (kind e) ks) new = true.

(** The effects of one kind in a trace. *)
Definition effects_of_kind (k : Kind) (tr : list Effect) : list Effect :=
  List.filter (fun e => Nat.eqb (kind_index (kind e)) (kind_index k)) tr.

(** What holds of the interruption attributes in every state a started
    session reaches: a session that awaits the screen share is active and
    has the time of the loss, and an active session is not stopped. *)
Definition share_consistent (s : Session) : Prop :=
  (is_active s = true -> is_stopped s = false)
  /\ (awaiting_screen_reshare s = true ->
      is_active s = true /\ is_Some (screen_share_lost_time s)).

(** The reports [flush_and_report] generates: one if the session was ended
    automatically and the history, once the pending audio and transcript
    are flushed, is not empty; none otherwise. *)
Definition reports_of (auto_ended : bool) (s' : Session) : list Effect :=
  if auto_ended && match history s' with [] => false | _ :: _ => true end
  then [ESummary (history s') (screen_contexts s')]
  else [].

(** A session that is not stopped has logged no stop. *)
Definition unstopped_log (s : Session) : Prop :=
  is_stopped s = false -> effects_of_kind KStopping (trace s) = [].

(** Once stopped, a session stays stopped and logs no further stop. *)
Definition stays_stopped (s s' : Session) : Prop :=
  is_active s = false -> is_stopped s = true ->
  is_active s' = false /\ is_stopped s' = true
  /\ effects_of_kind KStopping (trace s')
     = effects_of_kind KStopping (trace s).

(** The property [inv] is kept from [s] to [s']. *)
Definition keeps (inv : Session -> Prop) (s s' : Session) : Prop :=
  inv s -> inv s'.

(** A coroutine relates every state to the state it leaves. *)
Definition always {A : Type} (R : Session -> Session -> Prop) (m : M A)
  : Prop :=
  forall s : Session, R s (exec m s).

(** *** The transcription buffer *)

(** An inbound audio message: the data, the encoding, the sample rate. *)
Definition AudioMessage : Type := string * string * Z.

(** The number of calls of the transcription service so far. *)
Definition transcriptions (s : Session) : nat :=
  length (effects_of_kind KTranscribe (trace s)).

(** A call of the transcription service with at least 16000 bytes. *)
Definition audible (e : Effect) : Prop :=
  exists audio encoding sample_rate,
    e = ETranscribe audio encoding sample_rate
    /\ (16000 <= Z.of_nat (length audio))%Z.

Section Feed.

Variable W : World.

(** The session after a sequence of audio messages. *)
Definition feed (chunks : list AudioMessage) (s : Session) : Session :=
  fold_left
    (fun s '(data, encoding, sample_rate) =>
       exec (handle_audio_chunk W data encoding sample_rate) s)
    chunks s.

(** The times of the flushes that called the transcription service while a
    sequence of audio messages was handled, oldest first: the value of
    [last_transcript_time] after each message that led to a call. *)
Fixpoint flush_times (chunks : list AudioMessage) (s : Session) : list Q :=
  match chunks with
  | [] => []
  | (data, encoding, sample_rate) :: rest =>
      let s' := exec (handle_audio_chunk W data encoding sample_rate) s in
      if transcriptions s <? transcriptions s'
      then last_transcript_time s' :: flush_times rest s'
      else flush_times rest s'
  end.

End Feed.

(** *** The change gate *)

Section Gate.

Variable W : World.

(** What the [except] branch of [_analyze_frame] answers for a processor:
    the cached description when the message tells of a rate limit. *)
Definition fallback (p : VisionProcessor) (e : string) : string :=
  if contains "429" e || contains "rate" (lower e)
  then _last_analysis p
  else "Screen content analysis temporarily unavailable".

(** What [_analyze_frame] answers for a capture at interaction [n]. *)
Definition description (p : VisionProcessor) (n : nat) (image : Frame)
  : string :=
  match save_jpeg_raises W image with
  | Some e => fallback p e
  | None =>
      match groq_vision W n image with
      | ApiOk content => strip content
      | ApiRaise e => fallback p e
      end
  end.

(** The requests [_analyze_frame] makes for a capture: one, or none when
    the capture cannot be saved as JPEG. *)
Definition requested (image : Frame) : list Effect :=
  match save_jpeg_raises W image with
  | Some _ => []
  | None => [EVision image]
  end.

End Gate.

(** The processor after a capture passed the gate at the time [now]
    (vision_processor.py, lines 97-100). *)
Definition accepted (p : VisionProcessor) (frame : Frame)
    (analysis : string) (now : Q) : VisionProcessor :=
  set__last_api_call now
    (set__last_analysis analysis (set__last_frame (Some frame) p)).

(** Successive times are at least [gap] apart. *)
Fixpoint spaced (gap : Q) (ts : list Q) : Prop :=
  match ts with
  | t1 :: (t2 :: _) as rest => (t1 + gap <= t2)%Q /\ spaced gap rest
  | _ => True
  end.

(** The postcondition [post] holds of the value and the state the coroutine
    [m] leaves when started in [s]. *)
Definition wp {A : Type} (m : M A) (post : A -> Session -> Prop)
    (s : Session) : Prop :=
  post (eval m s) (exec m s).

(** ** A concrete world

    A world to run sessions in: one second passes between two interactions,
    screen captures are single-pixel images, and the collaborators answer
    as described below. *)

Module Demo.

(** Value of a character of the standard base64 alphabet. *)
Definition b64_value (c : ascii) : option N :=
  let n := N_of_ascii c in
  if ((65 <=? n) && (n <=? 90))%N then Some (n - 65)%N
  else if ((97 <=? n) && (n <=? 122))%N then Some (n - 71)%N
  else if ((48 <=? n) && (n <=? 57))%N then Some (n + 4)%N
  else if (n =? 43)%N then Some 62%N
  else if (n =? 47)%N then Some 63%N
  else None.

Definition byte_of (n : N) : Byte.byte :=
  default Byte.x00 (Byte.of_N (n mod 256)%N).

(** Four characters are three bytes; [=] pads the last group. *)
Fixpoint b64decode_chars (l : list ascii) : option (list Byte.byte) :=
  match l with
  | [] => Some []
  | a :: b :: c :: d :: rest =>
      va ← b64_value a;
      vb ← b64_value b;
      let b1 := byte_of (va * 4 + vb / 16) in
      if Ascii.eqb c "="
      then (if Ascii.eqb d "=" then
              match rest with [] => Some [b1] | _ => None end
            else None)
      else
        vc ← b64_value c;
        let b2 := byte_of ((vb mod 16) * 16 + vc / 4) in
        if Ascii.eqb d "="
        then match rest with [] => Some [b1; b2] | _ => None end
        else
          vd ← b64_value d;
          let b3 := byte_of ((vc mod 4) * 64 + vd) in
          tl ← b64decode_chars rest;
          Some (b1 :: b2 :: b3 :: tl)
  | _ => None
  end.

Definition decode64 (s : string) : option (list Byte.byte) :=
  b64decode_chars (String.list_ascii_of_string s).

Definition b64_char (v : N) : ascii :=
  ascii_of_N
    (if (v <? 26)%N then v + 65
     else if (v <? 52)%N then v + 71
     else if (v <? 62)%N then v - 4
     else if (v =? 62)%N then 43 else 47)%N.

Fixpoint b64encode_bytes (l : list N) : list ascii :=
  match l with
  | [] => []
  | [x] =>
      [b64_char (x / 4); b64_char ((x mod 4) * 16); "="%char; "="%char]
  | [x; y] =>
      [b64_char (x / 4); b64_char ((x mod 4) * 16 + y / 16);
       b64_char ((y mod 16) * 4); "="%char]
  | x :: y :: z :: rest =>
      b64_char (x / 4) :: b64_char ((x mod 4) * 16 + y / 16)
      :: b64_char ((y mod 16) * 4 + z / 64) :: b64_char (z mod 64)
      :: b64encode_bytes rest
  end%N.

Definition encode64 (l : list Byte.byte) : string :=
  String.string_of_list_ascii (b64encode_bytes (map Byte.to_N l)).

(** [n] copies of a string. *)
Fixpoint replicate_string (n : nat) (s : string) : string :=
  match n with
  | O => EmptyString
  | S n' => s +:+ replicate_string n' s
  end.

(** Three bytes are the single-pixel image of that colour. *)
Definition pixel_image (bytes : list Byte.byte) : option Frame :=
  match map (fun b => Z.of_N (Byte.to_N b)) bytes with
  | [r; g; b] => Some (mkFrame 1 1 [r; g; b])
  | _ => None
  end.

(** A single-pixel image resized to 320 by 180 is that pixel 57600
    times. *)
Definition uniform_resize (f : Frame) : option (list Z) :=
  match pixels f with
  | [r; g; b] => Some (concat (repeat [r; g; b] (320 * 180)))
  | _ => None
  end.

(** Saving as JPEG: the green pixel stands for a capture with a palette,
    which PIL does not write as JPEG. *)
Definition palette_error (f : Frame) : option string :=
  if decide (pixels f = [0; 255; 0]%Z)
  then Some "cannot write mode P as JPEG"%string
  else None.

Definition seconds (n : nat) : Q := inject_Z (1700000000 + Z.of_nat n).

(** The evaluation service sees a question of the presenter in every
    transcript with a question mark. *)
Definition evaluate (n : nat) (transcript screen_context : string)
    (history : list Turn) : result (gmap string PyVal) :=
  if contains "?" transcript
  then
    Ok (<["presenter_asked_question"%string := VBool true]>
          (<["next_response"%string := VStr "Sure, go ahead."]>
             (<["response_type"%string := VStr "acknowledgment"]>
                (<["score"%string := VInt 7]> ∅))))
  else
    Ok (<["next_response"%string := VStr "How does it scale?"]>
          (<["response_type"%string := VStr "question"]>
             (<["score"%string := VInt 6]> ∅))).

(** The world; the vision endpoint answers until interaction
    [vision_quota] and is rate limited from then on. *)
Definition world (vision_quota : nat) (heard : string) : World :=
  {| clock := seconds;
     b64decode := decode64;
     b64encode := encode64;
     open_image := pixel_image;
     resize_small := uniform_resize;
     save_jpeg_raises := palette_error;
     groq_vision := fun n _ =>
       if n <? vision_quota
       then ApiOk "TYPE: Slide DETAILS: title DATA: none TOPIC: overview"
       else ApiRaise "Error code: 429 - Rate limit reached";
     deepgram_listen := fun _ _ _ _ => Some (200%Z, heard);
     brain_evaluate := evaluate;
     brain_generate_opening := fun _ => "Welcome! Please introduce your project."%string;
     brain_generate_summary := fun _ _ _ =>
       Ok (<["overall_score"%string := VInt 70]> ∅);
     tts_generate_full_audio := fun _ _ => Ok [Byte.x49; Byte.x44; Byte.x33];
     storage_save_interview := fun _ sid _ =>
       Ok ("interview_history/" +:+ sid +:+ ".json")%string;
     pdf_generate := fun _ _ sid _ =>
       Ok ("reports/" +:+ sid +:+ ".pdf")%string |}.

(** A session started at 2023-11-14 22:13:20 UTC with the default
    thresholds of [Config]. *)
Definition session (w : World) : Session :=
  started_session w "20231114_221320" (1 # 10) 3.

(** Half a second of silence: 16002 zero bytes. *)
Definition audio_half_second : string := replicate_string (N.to_nat 5334) "AAAA".

(** A black and a white pixel. *)
Definition black_frame : string := "AAAA".
Definition white_frame : string := "////".

(** A green pixel: a capture that is not saved as JPEG. *)
Definition green_frame : string := "AP8A".

End Demo.

(** *** Scenarios in the concrete world *)

Module Scenario.

(** The presenter asks the interviewer a question right after the
    opening. *)
Definition question : string := "so can I move on to the next slide now?".

(** The vision endpoint is rate limited from interaction 14 on. *)
Definition w : World := Demo.world 14 question.

Definition started : Session := Demo.session w.

(** Half a second of audio arrives, is transcribed and finalized. *)
Definition after_question : Session :=
  exec (step w (Receive (MAudio Demo.audio_half_second "linear16" 16000)))
    started.

(** The screen share is lost, then the presenter ends the interview. *)
Definition after_lost : Session :=
  exec (step w (Receive MScreenShareLost)) started.

Definition after_lost_and_stop : Session :=
  exec (step w (Receive MStop)) after_lost.

(** A first capture is analysed; a different one follows once the cooldown
    has elapsed. *)
Definition after_first_frame : Session :=
  exec (step w (Receive (MVideo Demo.black_frame))) started.

(** Three audio messages of half a second each. *)
Definition chunks : list AudioMessage :=
  repeat (Demo.audio_half_second, "linear16"%string, 16000%Z) 3.

(** The presenter waits three seconds, asks the question, and loses the
    screen share. *)
Definition answered_then_lost : list Event :=
  [ReceiveTimeout; ReceiveTimeout; ReceiveTimeout;
   Receive (MAudio Demo.audio_half_second "linear16" 16000);
   Receive MScreenShareLost].

Definition black : Frame := mkFrame 1 1 [0; 0; 0]%Z.
Definition white : Frame := mkFrame 1 1 [255; 255; 255]%Z.
Definition green : Frame := mkFrame 1 1 [0; 255; 0]%Z.

End Scenario.

(** ** Vocabulary of the session invariants *)

(** A session is active until it is stopped, and its log holds one stop
    exactly if it is stopped. *)
Definition stopped_once (s : Session) : Prop :=
  is_active s = negb (is_stopped s)
  /\ length (effects_of_kind KStopping (trace s))
     = (if is_stopped s then 1 else 0).

(** A session that is neither active nor awaiting the screen share only
    sends events and generates reports: from [s] to [s'] nothing but the
    two flags the websocket loop itself writes has changed, and the trace
    grew by events, summaries, saved records and reports. *)
Definition frozen (s s' : Session) : Prop :=
  is_active s = false -> awaiting_screen_reshare s = false ->
  acts [F_screen_share_active; F_is_ai_speaking; F_ticks; F_trace]
    [KSend; KSummary; KSave; KPdf] s s'.

(** The interviewer has spoken a response and waits for the presenter. *)
Definition pending (s : Session) : Prop := pending_response s = true.

(** The descriptions of the screen a session keeps for the report: none is
    empty, and the current one is the last of them. *)
Definition contexts_ok (s : Session) : Prop :=
  Forall (fun c => nonempty c = true) (screen_contexts s)
  /\ screen_context s = default EmptyString (last (screen_contexts s)).

(** From [s] to [s'] the descriptions only grew at their end. *)
Definition contexts_grow (s s' : Session) : Prop :=
  (contexts_ok s -> contexts_ok s')
  /\ screen_contexts s `prefix_of` screen_contexts s'.

(** A turn as a session records it: the transcript is not blank and has no
    white space at either end, and the screen context is cut to 300
    characters. *)
Definition turn_ok (t : Turn) : Prop :=
  nonempty (transcript t) = true
  /\ strip (transcript t) = transcript t
  /\ String.length (turn_screen_context t) <= 300.

Definition turns_ok (s : Session) : Prop := Forall turn_ok (history s).

(** Nothing waits to be transcribed or evaluated. *)
Definition drained (s : Session) : Prop :=
  audio_chunks s = [] /\ strip (accumulated_transcript s) = EmptyString.

(** The events of one type in a trace, most recent first. *)
Definition sent (event_type : string) (tr : list Effect) : list Effect :=
  List.filter
    (fun e =>
       match e with
       | ESend ty _ _ => String.eqb ty event_type
       | _ => false
       end)
    tr.

(** *** The vision calls of a session *)

(** The number of calls of the vision endpoint so far. *)
Definition analyses (s : Session) : nat :=
  length (effects_of_kind KVision (trace s)).

Section Analyses.

Variable W : World.

(** The times of the vision calls made while a sequence of events was
    handled, oldest first: the value of [_last_api_call] after each event
    that led to a call, which is the time [process_frame] read before the
    call. *)
Fixpoint analysis_times (es : list Event) (s : Session) : list Q :=
  match es with
  | [] => []
  | e :: rest =>
      let s' := exec (step W e) s in
      if analyses s <? analyses s'
      then _last_api_call (vision s') :: analysis_times rest s'
      else analysis_times rest s'
  end.

End Analyses.

(** From [s] to [s'] no capture passed the gate: the vision endpoint was
    not called and the time recorded as that of the last call is as it was;
    or one capture passed it, [min_interval] or more after the time
    recorded, its time is the time recorded now, and the endpoint was
    called once, or not at all when the capture could not be saved. *)
Definition cooled (s s' : Session) : Prop :=
  min_interval (vision s') = min_interval (vision s)
  /\ ((analyses s' = analyses s
       /\ _last_api_call (vision s') = _last_api_call (vision s))
      \/ ((analyses s' = analyses s \/ analyses s' = S (analyses s))
          /\ (_last_api_call (vision s) + min_interval (vision s)
              <= _last_api_call (vision s'))%Q)).

(** ** Speech: tts_engine.py *)

Module TTSEngine.

(** [TTSEngine]: the settings it reads from [Config]. *)
Record t : Type := mk {
  provider : string;
  edge_voice : string;
  openai_voice : string
}.

(** What [edge_tts.Communicate(text, voice).stream()] delivers: audio data
    among other messages (word boundaries). *)
Inductive Chunk : Type :=
| AudioData (data : list Byte.byte)
| Metadata.

(** The stream for a text and a voice: what it delivers, and whether it
    then raises instead of ending. *)
Record EdgeStream : Type := mkEdgeStream {
  delivered : list Chunk;
  raises : bool
}.

(** The outcome of the [try] block of [_stream_openai] up to
    [response.content]. *)
Inductive OpenAIOutcome : Type :=
| NotInstalled (* from openai import AsyncOpenAI: ImportError *)
| OpenAIRaises
| OpenAIContent (content : list Byte.byte).

(** The speech services. *)
Record Services : Type := mkServices {
  edge_stream : string -> string -> EdgeStream;
  openai_speech : string -> string -> OpenAIOutcome
}.

(** The loop of [_stream_edge_tts] and what follows it; [audio_data] is
    the buffer, the result the chunks yielded. *)
Fixpoint edge_loop (audio_data : list Byte.byte) (stream : list Chunk)
    (raises : bool) : list (list Byte.byte) :=
  match stream with
  | [] =>
      if raises then [] (* except: logged *)
      else
        (* Yield remaining data *)
        if 0 <? length audio_data then [audio_data] else []
  | AudioData data :: rest =>
      let audio_data := audio_data ++ data in
      (* Yield in larger chunks for efficiency *)
      if 4096 <=? length audio_data
      then audio_data :: edge_loop [] rest raises
      else edge_loop audio_data rest raises
  | Metadata :: rest => edge_loop audio_data rest raises
  end.

(** [TTSEngine._stream_edge_tts] *)
Definition _stream_edge_tts (sv : Services) (self : t) (text : string)
  : list (list Byte.byte) :=
  let communicate := edge_stream sv text (edge_voice self) in
  edge_loop [] (delivered communicate) (raises communicate).

(** [range(0, stop, step)] *)
Definition range (stop step : nat) : list nat :=
  map (fun j => j * step) (seq 0 ((stop + step - 1) / step)).

(** [TTSEngine._stream_openai] *)
Definition _stream_openai (sv : Services) (self : t) (text : string)
  : list (list Byte.byte) :=
  match openai_speech sv (openai_voice self) text with
  | NotInstalled =>
      (* falling back to Edge TTS *)
      _stream_edge_tts sv self text
  | OpenAIRaises => []
  | OpenAIContent audio_bytes =>
      (* OpenAI returns full audio, yield in chunks *)
      let chunk_size := 4096 in
      map (fun i => take chunk_size (drop i audio_bytes))
        (range (length audio_bytes) chunk_size)
  end.

(** [TTSEngine.stream_speech] *)
Definition stream_speech (sv : Services) (self : t) (text : string)
  : list (list Byte.byte) :=
  if String.eqb (provider self) "openai"
  then _stream_openai sv self text
  else (* Default to Edge TTS (free) *)
    _stream_edge_tts sv self text.

(** [TTSEngine.generate_full_audio] *)
Definition generate_full_audio (sv : Services) (self : t) (text : string)
  : list Byte.byte :=
  concat (stream_speech sv self text).

(** The audio a stream delivers. *)
Definition audio_of (stream : list Chunk) : list Byte.byte :=
  flat_map
    (fun c => match c with AudioData data => data | Metadata => [] end)
    stream.

End TTSEngine.

(** ** More of Python's strings *)

Module Str.

(** The line feed and the double quote. *)
Definition nl : string := String "010"%char EmptyString.
Definition dquote : string := String "034"%char EmptyString.

(** [sep.join(parts)] *)
Fixpoint join (sep : string) (parts : list string) : string :=
  match parts with
  | [] => EmptyString
  | [p] => p
  | p :: rest => p +:+ sep +:+ join sep rest
  end.

(** [s.find(c)] and [s.rfind(c)] for a character: the first and the last
    position of it, or -1. *)
Fixpoint find (c : ascii) (s : string) : Z :=
  match s with
  | EmptyString => -1
  | String a r =>
      if Ascii.eqb a c then 0
      else let k := find c r in if (k <? 0)%Z then -1 else k + 1
  end%Z.

Fixpoint rfind (c : ascii) (s : string) : Z :=
  match s with
  | EmptyString => -1
  | String a r =>
      let k := rfind c r in
      if (0 <=? k)%Z then k + 1 else if Ascii.eqb a c then 0 else -1
  end%Z.

Fixpoint drop_str (n : nat) (s : string) : string :=
  match n, s with
  | S n', String _ r => drop_str n' r
  | _, _ => s
  end.

(** [s[i:j]] for indices that are not negative. *)
Definition slice (i j : Z) (s : string) : string :=
  take_str (Z.to_nat (j - i)) (drop_str (Z.to_nat i) s).

(** [s.split(c)] for a character: the pieces between its occurrences, the
    empty ones too; [w] is the piece being read. *)
Fixpoint pieces (c : ascii) (w : string) (s : string) : list string :=
  match s with
  | EmptyString => [w]
  | String a r =>
      if Ascii.eqb a c then w :: pieces c EmptyString r
      else pieces c (w +:+ String a EmptyString) r
  end.

Definition split_on (c : ascii) (s : string) : list string :=
  pieces c EmptyString s.

End Str.

(** ** The evaluation engine: interview_brain.py *)

Module InterviewBrain.

Import Str.

(** [x == y] on the values of a decoded JSON object; a boolean equals the
    integer of its value. *)
Definition py_eq (x y : PyVal) : bool :=
  match x, y with
  | VNone, VNone => true
  | VBool a, VBool b => Bool.eqb a b
  | VBool a, VInt z => (z =? (if a then 1 else 0))%Z
  | VInt z, VBool a => (z =? (if a then 1 else 0))%Z
  | VInt a, VInt b => (a =? b)%Z
  | VStr a, VStr b => String.eqb a b
  | _, _ => false
  end.

(** [str(v)], as an f-string formats a value. *)
Definition str (v : PyVal) : string :=
  match v with
  | VNone => "None"
  | VBool true => "True"
  | VBool false => "False"
  | VInt z => pretty z
  | VStr s => s
  end.

(** A dict keyed by values. *)
Fixpoint dict_get (d : list (PyVal * Z)) (k : PyVal) (dflt : Z) : Z :=
  match d with
  | [] => dflt
  | (k', v) :: rest => if py_eq k' k then v else dict_get rest k dflt
  end.

Fixpoint dict_set (d : list (PyVal * Z)) (k : PyVal) (v : Z)
  : list (PyVal * Z) :=
  match d with
  | [] => [(k, v)]
  | (k', v') :: rest =>
      if py_eq k' k then (k', v) :: rest else (k', v') :: dict_set rest k v
  end.

(** [InterviewBrain]: the conversation, a message being a role and a
    content, and the tracking of follow-ups. *)
Record t : Type := mk {
  conversation_history : list (string * PyVal);
  remediation_threshold : PyVal;
  pending_followup_topic : PyVal;
  followup_attempts : list (PyVal * Z);
  last_question_time : Q;
  min_question_interval : Q
}.

Definition set_conversation_history (v : list (string * PyVal)) (self : t)
  : t :=
  mk v (remediation_threshold self) (pending_followup_topic self)
    (followup_attempts self) (last_question_time self)
    (min_question_interval self).
Definition set_pending_followup_topic (v : PyVal) (self : t) : t :=
  mk (conversation_history self) (remediation_threshold self) v
    (followup_attempts self) (last_question_time self)
    (min_question_interval self).
Definition set_followup_attempts (v : list (PyVal * Z)) (self : t) : t :=
  mk (conversation_history self) (remediation_threshold self)
    (pending_followup_topic self) v (last_question_time self)
    (min_question_interval self).
Definition set_last_question_time (v : Q) (self : t) : t :=
  mk (conversation_history self) (remediation_threshold self)
    (pending_followup_topic self) (followup_attempts self) v
    (min_question_interval self).

(** A request to the chat endpoint: the model and the messages. *)
Definition Request : Type := PyVal * list (string * PyVal).

(** What the engine relies on: the attributes of [Config] as the class body
    computed them; the chat endpoint, which answers a model, messages, a
    temperature and a token limit with the content of the first choice, or
    raises; and [json.loads], [None] when it raises. *)
Record Services : Type := mkServices {
  config : string -> PyVal;
  chat_completion :
    PyVal -> list (string * PyVal) -> Q -> Z -> result string;
  json_loads : string -> option (gmap string PyVal)
}.

Section Methods.

Variable sv : Services.

(** The class attribute [EVALUATION_SYSTEM_PROMPT] (lines 31-57). *)
Variable EVALUATION_SYSTEM_PROMPT : string.

(** [InterviewBrain.__init__] *)
Definition new : t :=
  {| conversation_history := [];
     remediation_threshold := config sv "REMEDIATION_THRESHOLD";
     pending_followup_topic := VNone;
     followup_attempts := [];
     last_question_time := 0;
     min_question_interval := 5 |}.

(** [f"- Q{h.get('slide', '?')}: {h.get('question', '')[:100]}"] *)
Definition recent_line (h : Turn) : result string :=
  match question h with
  | VStr q => Ok ("- Q" +:+ pretty (slide h) +:+ ": " +:+ take_str 100 q)
  | VNone => Raise "TypeError" "'NoneType' object is not subscriptable"
  | VBool _ => Raise "TypeError" "'bool' object is not subscriptable"
  | VInt _ => Raise "TypeError" "'int' object is not subscriptable"
  end.

(** A list comprehension whose element may raise. *)
Fixpoint comprehension {A B : Type} (f : A -> result B) (l : list A)
  : result (list B) :=
  match l with
  | [] => Ok []
  | a :: rest =>
      and_then (f a) (fun b =>
      and_then (comprehension f rest) (fun bs => Ok (b :: bs)))
  end.

(** [InterviewBrain._format_recent_history] *)
Definition _format_recent_history (history : list Turn) : result string :=
  match history with
  | [] => Ok "This is the first question."%string
  | _ :: _ =>
      (* Last 3 interactions *)
      let recent := drop (length history - 3) history in
      and_then (comprehension recent_line recent) (fun lines =>
      Ok (join nl lines))
  end.

(** The answer of [_parse_json_response] to a content it cannot parse. *)
Definition parse_error : gmap string PyVal :=
  <["score"%string := VInt 5]>
    (<["conflict_detected"%string := VBool false]>
       (<["conflict_description"%string := VStr "None"]>
          (<["feedback"%string := VStr "Parse error"]>
             (<["next_question"%string :=
                  VStr "Could you explain that further?"]>
                (<["question_type"%string := VStr "remediation"]>
                   (<["topic"%string := VStr "Unknown"]> ∅)))))).

(** [InterviewBrain._parse_json_response] *)
Definition _parse_json_response (content : string) : gmap string PyVal :=
  if contains "{" content
  then
    (* Extract JSON from response *)
    let json_str :=
      slice (find "{" content) (rfind "}" content + 1) content in
    default parse_error (json_loads sv json_str)
  else parse_error.

(** The answer of [evaluate] when something raises (lines 226-236). *)
Definition evaluation_error (msg : string) : gmap string PyVal :=
  <["score"%string := VInt 5]>
    (<["conflict_detected"%string := VBool false]>
       (<["conflict_description"%string := VStr "None"]>
          (<["feedback"%string :=
               VStr ("Evaluation error: " +:+ take_str 50 msg)]>
             (<["next_question"%string :=
                  VStr "Could you elaborate on that point?"]>
                (<["question_type"%string := VStr "remediation"]>
                   (<["topic"%string := VStr "Unknown"]> ∅)))))).

(** The ordinal of [attempts + 1]. *)
Definition ordinal_suffix (attempts : Z) : string :=
  if (attempts =? 0)%Z then "st"
  else if (attempts =? 1)%Z then "nd"
  else if (attempts =? 2)%Z then "rd"
  else "th".

(** [followup_context] of [evaluate] (lines 142-148). *)
Definition followup_context (self : t) : string :=
  if truthy (pending_followup_topic self)
  then
    let attempts :=
      dict_get (followup_attempts self) (pending_followup_topic self) 0 in
    nl +:+ "## FOLLOW-UP CONTEXT:" +:+ nl
    +:+ "This is the student's " +:+ pretty (attempts + 1)%Z
    +:+ ordinal_suffix attempts +:+ " attempt explaining: "
    +:+ str (pending_followup_topic self) +:+ nl
    +:+ "Previously they scored low. Be encouraging and see if they've improved."
    +:+ nl +:+ "If this is attempt 2+, give a final score."
  else EmptyString.

(** [context] of [evaluate] (lines 151-160). *)
Definition build_context (transcript screen_context recent followup : string)
  : string :=
  "## SCREEN CONTENT:" +:+ nl
  +:+ (if nonempty screen_context then screen_context
       else "No screen content captured yet")
  +:+ nl +:+ nl +:+ "## STUDENT'S EXPLANATION:" +:+ nl
  +:+ dquote +:+ transcript +:+ dquote
  +:+ nl +:+ nl +:+ "## PREVIOUS CONTEXT:" +:+ nl
  +:+ recent +:+ followup
  +:+ nl +:+ nl
  +:+ "Remember: Ask only ONE question. Be encouraging. Evaluate and respond with JSON only.".

(** The fast path of [evaluate] (lines 189-199). *)
Definition proceed (result : gmap string PyVal) : gmap string PyVal :=
  <["score"%string := VInt 7]>
    (<["conflict_detected"%string := VBool false]>
       (<["feedback"%string := VStr "Good explanation"]>
          (<["next_response"%string := VStr ""]>
             (<["response_type"%string := VStr "proceed"]>
                (<["topic"%string :=
                     get_or result "topic" (VStr "continuing")]>
                   (<["needs_followup"%string := VBool false]> ∅)))))).

(** "Track follow-up logic" of [evaluate] (lines 201-213). *)
Definition track_followup (result : gmap string PyVal) (self : t) : t :=
  let topic := get_or result "topic" (VStr "general") in
  let needs_followup := get_or result "needs_followup" (VBool false) in
  let is_final := get_or result "is_final_score" (VBool true) in
  if truthy needs_followup && negb (truthy is_final)
  then
    (* Student needs another chance - track this topic *)
    set_followup_attempts
      (dict_set (followup_attempts self) topic
         (dict_get (followup_attempts self) topic 0 + 1)%Z)
      (set_pending_followup_topic topic self)
  else
    (* Topic is resolved or scored *)
    if py_eq (pending_followup_topic self) topic
    then set_pending_followup_topic VNone self
    else self.

(** [InterviewBrain.evaluate]; [now] and [later] are the readings of
    [time.time()] at its start and at "Update question timing".  The
    result is the evaluation, the engine as the call leaves it, and the
    requests made to the chat endpoint. *)
Definition evaluate (self : t) (now later : Q)
    (transcript screen_context : string) (history : list Turn)
  : gmap string PyVal * t * list Request :=
  let time_since_last := (now - last_question_time self)%Q in
  let followup := followup_context self in
  match _format_recent_history history with
  | Raise _ msg => (evaluation_error msg, self, [])
  | Ok recent =>
      let context := build_context transcript screen_context recent followup in
      (* Track in conversation *)
      let self :=
        set_conversation_history
          (conversation_history self ++ [("user"%string, VStr context)])
          self in
      (* Call LLM - using FAST model for speed *)
      match Config.getattr (config sv) "FAST_LLM_MODEL" with
      | Raise _ msg => (evaluation_error msg, self, [])
      | Ok model =>
          let messages :=
            ("system"%string, VStr EVALUATION_SYSTEM_PROMPT)
            :: drop (length (conversation_history self) - 4)
                 (conversation_history self) in
          match chat_completion sv model messages (2 # 10) 200 with
          | Raise _ msg => (evaluation_error msg, self, [(model, messages)])
          | Ok content =>
              (* Parse JSON - handle minimal "proceed" response *)
              let result := _parse_json_response (strip content) in
              (* Fast path: if model says proceed, return minimal response *)
              if eq_str (get result "response_type") "proceed"
                 && (size result <=? 2)
              then (proceed result, self, [(model, messages)])
              else
                let self := track_followup result self in
                (* Update question timing *)
                let self := set_last_question_time later self in
                (* Track AI response *)
                let self :=
                  set_conversation_history
                    (conversation_history self
                     ++ [("assistant"%string,
                          get_or result "next_question" (VStr ""))])
                    self in
                (result, self, [(model, messages)])
          end
      end
  end.

(** [InterviewBrain.reset] *)
Definition reset (self : t) : t :=
  {| conversation_history := [];
     remediation_threshold := remediation_threshold self;
     pending_followup_topic := VNone;
     followup_attempts := [];
     last_question_time := 0;
     min_question_interval := min_question_interval self |}.

End Methods.

End InterviewBrain.

(** *** The session with the engine of the repository *)

(** The evaluation service of the world is [InterviewBrain.evaluate]: each
    answer is the evaluation the method returns for some state of the
    engine and some readings of the clock. *)
Definition served_by_the_engine (W : World) : Prop :=
  forall (n : nat) (transcript screen_context : string) (history : list Turn),
    exists (sv : InterviewBrain.Services) (prompt : string)
           (self : InterviewBrain.t) (now later : Q),
      brain_evaluate W n transcript screen_context history
      = Ok (InterviewBrain.evaluate sv prompt self now later transcript
              screen_context history).1.1.

Module Engine.

(** An engine whose endpoint would answer that the presenter may proceed. *)
Definition services : InterviewBrain.Services :=
  {| InterviewBrain.config := fun _ => VStr "llama-3.3-70b-versatile";
     InterviewBrain.chat_completion := fun _ _ _ _ => Ok "proceed"%string;
     InterviewBrain.json_loads := fun _ => None |}.

(** The concrete world with that engine as its evaluation service. *)
Definition world : World :=
  let w := Scenario.w in
  {| clock := clock w;
     b64decode := b64decode w;
     b64encode := b64encode w;
     open_image := open_image w;
     resize_small := resize_small w;
     save_jpeg_raises := save_jpeg_raises w;
     groq_vision := groq_vision w;
     deepgram_listen := deepgram_listen w;
     brain_evaluate := fun n transcript screen_context history =>
       Ok (InterviewBrain.evaluate services EmptyString
             (InterviewBrain.new services) (clock w n) (clock w n)
             transcript screen_context history).1.1;
     brain_generate_opening := brain_generate_opening w;
     brain_generate_summary := brain_generate_summary w;
     tts_generate_full_audio := tts_generate_full_audio w;
     storage_save_interview := storage_save_interview w;
     pdf_generate := pdf_generate w |}.

(** Eight seconds pass after the opening of a started session. *)
Definition waited : Session :=
  run world (repeat ReceiveTimeout 8)
    (started_session world "20231114_221320" (1 # 10) 3).

End Engine.

(** ** Reports on disk: report_generator.py *)

Module Reports.

(** [datetime]: what [strftime] reads of it. *)
Record datetime : Type := mkDatetime {
  year : nat;
  month : nat;
  day : nat;
  hour : nat;
  minute : nat;
  second : nat
}.

Definition digit (n : nat) : ascii := ascii_of_nat (48 + n mod 10).

(** The last [width] decimal digits of [n]. *)
Fixpoint digits (width n : nat) : string :=
  match width with
  | O => EmptyString
  | S w => digits w (n / 10) +:+ String (digit n) EmptyString
  end.

(** [dt.strftime("%Y%m%d")] and [dt.strftime("%H%M%S")], for the years 1000
    to 9999. *)
Definition date (dt : datetime) : string :=
  digits 4 (year dt) +:+ digits 2 (month dt) +:+ digits 2 (day dt).

Definition time_of_day (dt : datetime) : string :=
  digits 2 (hour dt) +:+ digits 2 (minute dt) +:+ digits 2 (second dt).

(** [dt.strftime("%Y%m%d_%H%M%S")]: the [session_id] of
    [InterviewSession.__init__] (server.py, line 167) and the [timestamp]
    of [generate] (line 377). *)
Definition strftime (dt : datetime) : string :=
  date dt +:+ "_" +:+ time_of_day dt.

(** [filename] of [PDFReportGenerator.generate] (line 378). *)
Definition report_filename (session_id : string) (now : datetime) : string :=
  "report_" +:+ session_id +:+ "_" +:+ strftime now +:+ ".pdf".

(** Matching a file name against a pattern of literal characters, [*] and
    [?], as [Path.glob] does for a pattern without brackets and without
    separators. *)
Fixpoint wildcard (pattern : string) : string -> bool :=
  match pattern with
  | EmptyString => fun name => negb (nonempty name)
  | String p ps =>
      if Ascii.eqb p "*"
      then
        fix star (name : string) : bool :=
          wildcard ps name
          || match name with
             | EmptyString => false
             | String _ rest => star rest
             end
      else
        fun name =>
          match name with
          | EmptyString => false
          | String c rest =>
              (Ascii.eqb p "?" || Ascii.eqb p c) && wildcard ps rest
          end
  end.

(** [directory.glob(pattern)]: the names of the directory, in the order the
    system lists them, that match. *)
Definition glob (pattern : string) (directory : list string) : list string :=
  List.filter (wildcard pattern) directory.

(** [str(directory / name)] for a directory as [Path] keeps it. *)
Definition joinpath (directory name : string) : string :=
  if String.eqb directory "." then name
  else if String.eqb directory "/" then "/" +:+ name
  else directory +:+ "/" +:+ name.

(** [PDFReportGenerator.get_report_path] *)
Definition get_report_path (self : PDFReportGenerator)
    (directory : list string) (session_id : string) : option string :=
  match glob ("report_" +:+ session_id +:+ "_*.pdf") directory with
  | [] => None
  | filepath :: _ => Some (joinpath (reports_dir self) filepath)
  end.

(** [filepath.stem]: the name without its last suffix. *)
Definition stem (name : string) : string :=
  let i := Str.rfind "." name in
  if (0 <? i)%Z && (i <? Z.of_nat (String.length name) - 1)%Z
  then take_str (Z.to_nat i) name
  else name.

(** [sorted(names, reverse=True)] *)
Fixpoint insert_desc (name : string) (sorted : list string) : list string :=
  match sorted with
  | [] => [name]
  | x :: rest =>
      if String.ltb x name then name :: sorted
      else x :: insert_desc name rest
  end.

Definition sorted_desc (names : list string) : list string :=
  fold_right insert_desc [] names.

(** An entry of [list_reports]. *)
Record Report : Type := mkReport {
  filename : string;
  session_id : string;
  path : string;
  created : string
}.

(** The entry [list_reports] builds for a file (lines 510-517); [mtime] is
    [datetime.fromtimestamp(filepath.stat().st_mtime).isoformat()]. *)
Definition report_entry (self : PDFReportGenerator)
    (mtime : string -> string) (name : string) : Report :=
  let parts := Str.split_on "_" (stem name) in
  {| filename := name;
     session_id :=
       match parts with
       | _ :: part :: _ => part
       | _ => "unknown"
       end;
     path := joinpath (reports_dir self) name;
     created := mtime name |}.

(** [PDFReportGenerator.list_reports] *)
Definition list_reports (self : PDFReportGenerator)
    (directory : list string) (mtime : string -> string) : list Report :=
  map (report_entry self mtime) (sorted_desc (glob "*.pdf" directory)).

(** The keys of [COLORS]. *)
Inductive Color : Type :=
| primary
| success
| warning
| danger
| light_gray
| dark_gray
| text
| muted.

(** [PDFReportGenerator._get_score_color] *)
Definition _get_score_color (score : Z) : Color :=
  if (70 <=? score)%Z then success
  else if (50 <=? score)%Z then warning
  else danger.

(** [chart.bars[0].fillColor] as [_create_score_bar_chart] leaves it
    (lines 228-233): the series has one fill colour, assigned once before
    the loop over the scores and once for each score. *)
Definition bar_fill_color (category_scores : list (string * Z)) : Color :=
  let scores := map snd category_scores in
  fold_left (fun _ score => _get_score_color score) scores primary.

End Reports.

(** *** Vocabulary of the file names *)

(** Every character of a string has a property. *)
Fixpoint all_chars (P : ascii -> bool) (s : string) : bool :=
  match s with
  | EmptyString => true
  | String c r => P c && all_chars P r
  end.

(** A character of a decimal number. *)
Definition is_digit (c : ascii) : bool :=
  (48 <=? nat_of_ascii c) && (nat_of_ascii c <=? 57).

(** A character a pattern takes literally. *)
Definition is_literal (c : ascii) : bool :=
  negb (Ascii.eqb c "*") && negb (Ascii.eqb c "?").

(** * Properties *)

Lemma Qltb_lt (a b : Q) : Qltb a b = true <-> (a < b)%Q.
Proof.
  unfold Qltb. rewrite negb_true_iff. split.
  - intros H. apply Qnot_le_lt. intros Hc.
    apply Qle_bool_iff in Hc. congruence.
  - intros H. destruct (Qle_bool b a) eqn:E; [|reflexivity].
    apply Qle_bool_iff in E. lra.
Qed.

Lemma Qltb_ge (a b : Q) : Qltb a b = false <-> (b <= a)%Q.
Proof.
  unfold Qltb. rewrite negb_false_iff. apply Qle_bool_iff.
Qed.

Lemma Qgeb_ge (a b : Q) : Qgeb a b = true <-> (b <= a)%Q.
Proof. apply Qle_bool_iff. Qed.

Lemma Qgtb_gt (a b : Q) : Qgtb a b = true <-> (b < a)%Q.
Proof. apply (Qltb_lt b a). Qed.

(** ** Start-up *)

Lemma REPORTS_DIR_not_defined (values : string -> PyVal) :
  Config.getattr values "REPORTS_DIR"
  = Raise "AttributeError"
      "type object 'Config' has no attribute 'REPORTS_DIR'".
Proof. reflexivity. Qed.

(** C10: constructing [PDFReportGenerator] with the default [reports_dir]
    raises [AttributeError] on every host, because [Config] binds no
    [REPORTS_DIR]; and [import server], which constructs one at module
    scope, raises on every host. *)
Theorem C10_default_reports_dir_raises (host : Host) :
  ("REPORTS_DIR"%string ∉ Config.class_attributes)
  /\ PDFReportGenerator_init host VNone
     = Raise "AttributeError"
         "type object 'Config' has no attribute 'REPORTS_DIR'"
  /\ (forall m : ServerModule, import_server host <> Ok m).
Proof.
  split; [|split].
  - intros Hin. unfold Config.class_attributes in Hin.
    repeat (apply elem_of_cons in Hin as [Hin|Hin]; [discriminate|]).
    by apply elem_of_nil in Hin.
  - unfold PDFReportGenerator_init. cbn [truthy].
    rewrite REPORTS_DIR_not_defined. reflexivity.
  - intros m. unfold import_server, InterviewHistoryStorage_init.
    repeat
      match goal with
      | |- context [and_then ?r _] =>
          lazymatch r with
          | PDFReportGenerator_init _ _ => fail
          | _ => destruct r; cbn [and_then]; try discriminate
          end
      end.
Qed.

(** ** Proof tools *)

(** *** The state monad *)

Lemma exec_bind {A B} (m : M A) (k : A -> M B) s :
  exec (bind m k) s = exec (k (eval m s)) (exec m s).
Proof. unfold exec, eval, bind. now destruct (m s). Qed.

Lemma eval_bind {A B} (m : M A) (k : A -> M B) s :
  eval (bind m k) s = eval (k (eval m s)) (exec m s).
Proof. unfold exec, eval, bind. now destruct (m s). Qed.

Section Always.

Context (R : Session -> Session -> Prop).
Hypothesis R_refl : forall s, R s s.
Hypothesis R_trans : forall s1 s2 s3, R s1 s2 -> R s2 s3 -> R s1 s3.

Lemma always_ret {A} (a : A) : always R (ret a).
Proof using R_refl. intros s. apply R_refl. Qed.

Lemma always_gets {A} (f : Session -> A) : always R (gets f).
Proof using R_refl. intros s. apply R_refl. Qed.

Lemma always_bind {A B} (m : M A) (k : A -> M B) :
  always R m -> (forall a, always R (k a)) -> always R (bind m k).
Proof using R_trans.
  intros Hm Hk s. rewrite exec_bind.
  eapply R_trans; [apply Hm|apply Hk].
Qed.

End Always.

(** *** Footprints compose *)

Lemma field_index_inj (f g : Field) : field_index f = field_index g -> f = g.
Proof. destruct f, g; cbn; intros H; first [reflexivity | discriminate H]. Qed.

Lemma kind_index_inj (k l : Kind) : kind_index k = kind_index l -> k = l.
Proof. destruct k, l; cbn; intros H; first [reflexivity | discriminate H]. Qed.

Lemma writes_In f ws : writes f ws = true <-> In f ws.
Proof.
  unfold writes. rewrite existsb_exists. split.
  - intros (g & Hg & E). apply Nat.eqb_eq, field_index_inj in E. now subst.
  - intros H. exists f. split; [exact H|apply Nat.eqb_refl].
Qed.

Lemma does_In k ks : does k ks = true <-> In k ks.
Proof.
  unfold does. rewrite existsb_exists. split.
  - intros (g & Hg & E). apply Nat.eqb_eq, kind_index_inj in E. now subst.
  - intros H. exists k. split; [exact H|apply Nat.eqb_refl].
Qed.

Lemma acts_refl ws ks s : acts ws ks s s.
Proof.
  split.
  - intros f _. destruct f; reflexivity.
  - exists []. split; reflexivity.
Qed.

Lemma acts_trans ws ks s1 s2 s3 :
  acts ws ks s1 s2 -> acts ws ks s2 s3 -> acts ws ks s1 s3.
Proof.
  intros [F12 (n12 & T12 & K12)] [F23 (n23 & T23 & K23)]. split.
  - intros f Hf. specialize (F12 f Hf). specialize (F23 f Hf).
    destruct f; cbn in *; congruence.
  - exists (n23 ++ n12). split.
    + rewrite T23, T12. now rewrite app_assoc.
    + rewrite forallb_app, K12, K23. reflexivity.
Qed.

Lemma acts_weaken ws' ks' ws ks s s' :
  acts ws' ks' s s' ->
  forallb (fun f => writes f ws) ws' = true ->
  forallb (fun k => does k ks) ks' = true ->
  acts ws ks s s'.
Proof.
  intros [Fs (new & T & K)] Hws Hks. split.
  - intros f Hf. apply Fs.
    destruct (writes f ws') eqn:E; [|reflexivity].
    apply writes_In in E. rewrite forallb_forall in Hws.
    specialize (Hws f E). congruence.
  - exists new. split; [exact T|].
    rewrite forallb_forall in K, Hks |- *. intros e He.
    apply Hks. apply does_In. apply K. exact He.
Qed.

Lemma always_acts_weaken {A} ws' ks' ws ks (m : M A) :
  always (acts ws' ks') m ->
  forallb (fun f => writes f ws) ws' = true ->
  forallb (fun k => does k ks) ks' = true ->
  always (acts ws ks) m.
Proof. intros H Hws Hks s. eapply acts_weaken; [apply H|assumption..]. Qed.

(** The footprint read back: an attribute outside the write set is
    unchanged. *)
Lemma acts_field ws ks s s' (f : Field) :
  acts ws ks s s' -> writes f ws = false -> same_field f s s'.
Proof. intros [Fs _] Hf. now apply Fs. Qed.

(** The effects of a kind outside the footprint are those there were. *)
Lemma acts_effects_of_kind ws ks s s' (k : Kind) :
  acts ws ks s s' -> does k ks = false ->
  effects_of_kind k (trace s') = effects_of_kind k (trace s).
Proof.
  intros [_ (new & -> & K)] Hk. unfold effects_of_kind.
  rewrite List.filter_app.
  replace (List.filter _ new) with (@nil Effect); [reflexivity|].
  symmetry. induction new as [|e new IH]; [reflexivity|].
  cbn in K |- *. apply andb_true_iff in K as [Ke K].
  destruct (Nat.eqb _ _) eqn:E; [|now apply IH].
  apply Nat.eqb_eq, kind_index_inj in E. congruence.
Qed.

(** The effects added are of the allowed kinds. *)
Lemma acts_trace ws ks s s' :
  acts ws ks s s' ->
  exists new : list Effect,
    trace s' = new ++ trace s
    /\ forall e, In e new -> In (kind e) ks.
Proof.
  intros [_ (new & T & K)]. exists new. split; [exact T|].
  intros e He. rewrite forallb_forall in K. apply does_In. now apply K.
Qed.

(** An assignment to attributes of the write set. *)
Ltac acts_assign :=
  let s := fresh "s" in
  intros s; split;
  [ let f := fresh "f" in
    let Hf := fresh "Hf" in
    intros f Hf; destruct f;
    first [reflexivity | cbv in Hf; discriminate Hf]
  | exists []; split; reflexivity ].

Create HintDb footprint discriminated.

(** A property of the kind [always R] by the structure of the body of a
    coroutine; [preorder] closes the reflexivity and transitivity of [R],
    [leaf] the assignments and the calls. *)
Ltac always_body preorder leaf :=
  lazymatch goal with
  | |- always _ (bind _ _) =>
      apply always_bind;
      [ preorder
      | always_body preorder leaf
      | intro; always_body preorder leaf ]
  | |- always _ (ret _) => apply always_ret; preorder
  | |- always _ (gets _) => apply always_gets; preorder
  | |- always _ (match ?c with _ => _ end) =>
      destruct c; always_body preorder leaf
  | |- always _ (let _ := _ in _) => cbv zeta; always_body preorder leaf
  | |- always _ _ => leaf
  end.

Ltac acts_preorder :=
  idtac; first [exact (acts_refl _ _) | exact (acts_trans _ _)].

Ltac acts_leaf :=
  idtac;
  lazymatch goal with
  | |- always _ (modify _) => acts_assign
  | |- always _ _ =>
      eapply always_acts_weaken;
      [solve [eauto 2 with footprint] | reflexivity..]
  end.

(** The footprint of a coroutine from the footprints of what it calls. *)
Ltac acts_body := always_body acts_preorder acts_leaf.

(** *** Weakest preconditions *)

Lemma wp_ret {A} (a : A) post s : post a s -> wp (ret a) post s.
Proof. exact (fun H => H). Qed.

Lemma wp_gets {A} (f : Session -> A) post s : post (f s) s -> wp (gets f) post s.
Proof. exact (fun H => H). Qed.

Lemma wp_modify f post s : post tt (f s) -> wp (modify f) post s.
Proof. exact (fun H => H). Qed.

Lemma wp_bind {A B} (m : M A) (k : A -> M B) post s :
  wp m (fun a s' => wp (k a) post s') s -> wp (bind m k) post s.
Proof. unfold wp. now rewrite exec_bind, eval_bind. Qed.

(** A call of a coroutine of which only the footprint matters. *)
Lemma wp_acts {A} ws ks (m : M A) post s :
  always (acts ws ks) m ->
  (forall a s', acts ws ks s s' -> post a s') ->
  wp m post s.
Proof. intros Hm H. apply H. apply Hm. Qed.

(** A call of a coroutine kept as it is. *)
Lemma wp_exec {A} (m : M A) s :
  wp m (fun a s' => a = eval m s /\ s' = exec m s) s.
Proof. split; reflexivity. Qed.

(** A call of a coroutine with a proved postcondition. *)
Lemma wp_wand {A} (m : M A) (post post' : A -> Session -> Prop) s :
  wp m post s -> (forall a s', post a s' -> post' a s') -> wp m post' s.
Proof. intros Hm H. apply H. exact Hm. Qed.

(** Reading an attribute of a state built by setters. *)
Ltac session_simpl :=
  cbn [
       session_id vision is_active is_ai_speaking screen_context
       screen_contexts history slide_count audio_chunks
       last_transcript_time accumulated_transcript _audio_encoding
       _audio_sample_rate last_question_time min_question_interval
       pending_response screen_share_active screen_share_lost_time
       screen_reconnect_timeout awaiting_screen_reshare is_stopped
       ticks trace set_vision set_is_active set_is_ai_speaking
       set_screen_context set_screen_contexts set_history
       set_slide_count set_audio_chunks set_last_transcript_time
       set_accumulated_transcript set__audio_encoding
       set__audio_sample_rate set_last_question_time
       set_pending_response set_screen_share_active
       set_screen_share_lost_time set_awaiting_screen_reshare
       set_is_stopped set_ticks set_trace _last_frame _last_analysis
       _last_api_call change_threshold min_interval set__last_frame
       set__last_analysis set__last_api_call fst snd].

Ltac session_simpl_in H :=
  cbn [
       session_id vision is_active is_ai_speaking screen_context
       screen_contexts history slide_count audio_chunks
       last_transcript_time accumulated_transcript _audio_encoding
       _audio_sample_rate last_question_time min_question_interval
       pending_response screen_share_active screen_share_lost_time
       screen_reconnect_timeout awaiting_screen_reshare is_stopped
       ticks trace set_vision set_is_active set_is_ai_speaking
       set_screen_context set_screen_contexts set_history
       set_slide_count set_audio_chunks set_last_transcript_time
       set_accumulated_transcript set__audio_encoding
       set__audio_sample_rate set_last_question_time
       set_pending_response set_screen_share_active
       set_screen_share_lost_time set_awaiting_screen_reshare
       set_is_stopped set_ticks set_trace _last_frame _last_analysis
       _last_api_call change_threshold min_interval set__last_frame
       set__last_analysis set__last_api_call fst snd] in H.

(** One step through the body of a coroutine: the primitives of the monad,
    the branches of the code, the interactions with the world; any other
    call is taken by [spec] or else by its footprint. *)
Ltac wp_step_with spec :=
  lazymatch goal with
  | |- wp (bind _ _) _ _ => apply wp_bind
  | |- wp (ret _) _ _ => apply wp_ret
  | |- wp (gets _) _ _ => apply wp_gets
  | |- wp (modify _) _ _ => apply wp_modify
  | |- wp (match ?c with _ => _ end) _ _ => destruct c eqn:?
  | |- wp (let _ := _ in _) _ _ => cbv zeta
  | |- wp (time_time _) _ _ => unfold time_time
  | |- wp tick _ _ => unfold tick
  | |- wp (note _) _ _ => unfold note
  | |- wp (call _ _) _ _ => unfold call
  | |- wp (send_event _ _ _) _ _ => unfold send_event
  | |- wp (status _ _) _ _ => unfold status
  | |- wp _ _ _ =>
      first
        [ eapply wp_wand;
          [ spec
          | let a := fresh "a" in
            let s := fresh "s" in
            let H := fresh "Hspec" in
            intros a s H ]
        | eapply wp_acts;
          [ solve [eauto 2 with footprint]
          | let a := fresh "a" in
            let s := fresh "s" in
            let H := fresh "Hacts" in
            intros a s H ] ]
  end;
  cbv beta; session_simpl.

Ltac wp_step := wp_step_with ltac:(fail).

Ltac wp_run := repeat wp_step.

(** What the footprint [H] says of the attribute [f], used to rewrite. *)
Ltac acts_read H f :=
  let E := fresh "E" in
  first
    [ pose proof (acts_field _ _ _ _ f H eq_refl) as E;
      cbn [same_field] in E; session_simpl_in E;
      try rewrite E in *
    | idtac ].

(** A property of a coroutine as a postcondition. *)
Lemma always_wp {A} (R : Session -> Session -> Prop) (m : M A) :
  (forall s, wp m (fun _ s' => R s s') s) -> always R m.
Proof. exact (fun H => H). Qed.

Lemma keeps_refl inv s : keeps inv s s.
Proof. exact (fun H => H). Qed.

Lemma keeps_trans inv s1 s2 s3 :
  keeps inv s1 s2 -> keeps inv s2 s3 -> keeps inv s1 s3.
Proof. unfold keeps. tauto. Qed.

(** To the next branch of the code. *)
Ltac wp_upto_branch :=
  repeat
    lazymatch goal with
    | |- wp (match _ with _ => _ end) _ _ => fail
    | |- _ => wp_step
    end.

Section Properties.

Variable W : World.

(** ** The footprint of each coroutine *)

Lemma tick_acts : always (acts [F_ticks] []) tick.
Proof. unfold tick. acts_body. Qed.

Lemma note_acts e : always (acts [F_trace] [kind e]) (note e).
Proof.
  intros s. split.
  - intros f Hf. destruct f; first [reflexivity | cbv in Hf; discriminate Hf].
  - exists [e]. split; [reflexivity|]. cbn. unfold does. cbn.
    now rewrite Nat.eqb_refl.
Qed.
#[local] Hint Resolve tick_acts note_acts : footprint.

Lemma time_time_acts : always (acts [F_ticks] []) (time_time W).
Proof. unfold time_time. acts_body. Qed.
#[local] Hint Resolve time_time_acts : footprint.

Lemma call_acts {A} e (answer : nat -> A) :
  always (acts [F_ticks; F_trace] [kind e]) (call e answer).
Proof.
  unfold call.
  repeat first
    [ apply always_bind; [exact (acts_trans _ _)| |intro]
    | apply always_ret; exact (acts_refl _ _)
    | apply always_gets; exact (acts_refl _ _) ].
  - eapply always_acts_weaken; [apply note_acts|reflexivity|].
    cbn. unfold does. cbn. now rewrite Nat.eqb_refl.
  - eapply always_acts_weaken; [apply tick_acts|reflexivity..].
Qed.
#[local] Hint Resolve call_acts : footprint.

Lemma send_event_acts ty d :
  always (acts [F_ticks; F_trace] [kind (ESend ty d 0)]) (send_event W ty d).
Proof.
  unfold send_event.
  apply always_bind; [exact (acts_trans _ _)| |intros t].
  - eapply always_acts_weaken; [apply time_time_acts|reflexivity..].
  - eapply always_acts_weaken; [apply note_acts|reflexivity|].
    cbn. unfold does. cbn. now rewrite Nat.eqb_refl.
Qed.
#[local] Hint Resolve send_event_acts : footprint.

Lemma status_acts state :
  always (acts [F_ticks; F_trace] [KSend]) (status W state).
Proof. unfold status. acts_body. Qed.
#[local] Hint Resolve status_acts : footprint.

Lemma speak_response_acts text :
  always (acts [F_is_ai_speaking; F_ticks; F_trace] [KSend; KTts])
    (speak_response W text).
Proof. unfold speak_response. acts_body. Qed.
#[local] Hint Resolve speak_response_acts : footprint.

Lemma response_failed_acts msg :
  always (acts [F_ticks; F_trace] [KSend]) (response_failed W msg).
Proof. unfold response_failed. acts_body. Qed.
#[local] Hint Resolve response_failed_acts : footprint.

Lemma update_history_acts tr ev :
  always (acts [F_slide_count; F_history; F_ticks] [])
    (update_history W tr ev).
Proof. unfold update_history. acts_body. Qed.
#[local] Hint Resolve update_history_acts : footprint.

Lemma send_and_speak_acts ev :
  always
    (acts
       [F_last_question_time; F_pending_response; F_is_ai_speaking; F_ticks;
        F_trace]
       [KSend; KTts])
    (send_and_speak W ev).
Proof. unfold send_and_speak. acts_body. Qed.
#[local] Hint Resolve send_and_speak_acts : footprint.

Lemma record_and_respond_acts tr ev :
  always
    (acts
       [F_slide_count; F_history; F_last_question_time; F_pending_response;
        F_is_ai_speaking; F_ticks; F_trace]
       [KSend; KTts])
    (record_and_respond W tr ev).
Proof. unfold record_and_respond. acts_body. Qed.
#[local] Hint Resolve record_and_respond_acts : footprint.

Lemma generate_response_acts tr :
  always
    (acts
       [F_slide_count; F_history; F_last_question_time; F_pending_response;
        F_is_ai_speaking; F_ticks; F_trace]
       [KSend; KTts; KEvaluate])
    (generate_response W tr).
Proof. unfold generate_response. acts_body. Qed.
#[local] Hint Resolve generate_response_acts : footprint.

Lemma finalize_transcript_acts :
  always
    (acts
       [F_accumulated_transcript; F_slide_count; F_history;
        F_last_question_time; F_pending_response; F_is_ai_speaking; F_ticks;
        F_trace]
       [KFinal; KSend; KTts; KEvaluate])
    (finalize_transcript W).
Proof. unfold finalize_transcript. acts_body. Qed.
#[local] Hint Resolve finalize_transcript_acts : footprint.

Lemma transcribe_audio_chunk_acts a e r :
  always (acts [F_ticks; F_trace] [KTranscribe])
    (transcribe_audio_chunk W a e r).
Proof. unfold transcribe_audio_chunk. acts_body. Qed.
#[local] Hint Resolve transcribe_audio_chunk_acts : footprint.

Lemma accumulate_acts text :
  always
    (acts
       [F_accumulated_transcript; F_slide_count; F_history;
        F_last_question_time; F_pending_response; F_is_ai_speaking; F_ticks;
        F_trace]
       [KFinal; KSend; KTts; KEvaluate])
    (accumulate W text).
Proof. unfold accumulate. acts_body. Qed.
#[local] Hint Resolve accumulate_acts : footprint.

Lemma process_accumulated_audio_acts :
  always
    (acts
       [F_audio_chunks; F_last_transcript_time; F_accumulated_transcript;
        F_slide_count; F_history; F_last_question_time; F_pending_response;
        F_is_ai_speaking; F_ticks; F_trace]
       [KFinal; KTranscribe; KSend; KTts; KEvaluate])
    (process_accumulated_audio W).
Proof. unfold process_accumulated_audio. acts_body. Qed.
#[local] Hint Resolve process_accumulated_audio_acts : footprint.

Lemma handle_audio_chunk_acts a e r :
  always
    (acts
       [F_audio_encoding; F_audio_sample_rate; F_audio_chunks;
        F_last_transcript_time; F_accumulated_transcript; F_slide_count;
        F_history; F_last_question_time; F_pending_response;
        F_is_ai_speaking; F_ticks; F_trace]
       [KFinal; KTranscribe; KSend; KTts; KEvaluate])
    (handle_audio_chunk W a e r).
Proof. unfold handle_audio_chunk. acts_body. Qed.
#[local] Hint Resolve handle_audio_chunk_acts : footprint.

Lemma analyze_frame_acts image :
  always (acts [F_ticks; F_trace] [KVision]) (_analyze_frame W image).
Proof. unfold _analyze_frame, analysis_failed. acts_body. Qed.
#[local] Hint Resolve analyze_frame_acts : footprint.

Lemma process_frame_acts d :
  always (acts [F_vision; F_ticks; F_trace] [KVision]) (process_frame W d).
Proof. unfold process_frame. acts_body. Qed.
#[local] Hint Resolve process_frame_acts : footprint.

Lemma handle_video_frame_acts d :
  always
    (acts [F_vision; F_screen_context; F_screen_contexts; F_ticks; F_trace]
       [KVision; KSend])
    (handle_video_frame W d).
Proof. unfold handle_video_frame. acts_body. Qed.
#[local] Hint Resolve handle_video_frame_acts : footprint.

Lemma start_acts :
  always
    (acts
       [F_is_active; F_screen_share_active; F_last_question_time;
        F_is_ai_speaking; F_ticks; F_trace]
       [KSend; KOpening; KTts])
    (start W).
Proof. unfold start. acts_body. Qed.

Lemma handle_screen_share_lost_acts :
  always
    (acts
       [F_screen_share_active; F_screen_share_lost_time;
        F_awaiting_screen_reshare; F_is_ai_speaking; F_ticks; F_trace]
       [KSend; KTts; KCreateTimeoutTask])
    (handle_screen_share_lost W).
Proof. unfold handle_screen_share_lost. acts_body. Qed.
#[local] Hint Resolve handle_screen_share_lost_acts : footprint.

Lemma handle_screen_share_restored_acts :
  always
    (acts
       [F_screen_share_active; F_screen_share_lost_time;
        F_awaiting_screen_reshare; F_is_ai_speaking; F_ticks; F_trace]
       [KSend; KTts])
    (handle_screen_share_restored W).
Proof. unfold handle_screen_share_restored. acts_body. Qed.
#[local] Hint Resolve handle_screen_share_restored_acts : footprint.

Lemma report_failed_acts msg :
  always (acts [F_ticks; F_trace] [KSend]) (report_failed W msg).
Proof. unfold report_failed. acts_body. Qed.
#[local] Hint Resolve report_failed_acts : footprint.

Lemma generate_and_send_report_acts r :
  always (acts [F_ticks; F_trace] [KSend; KSummary; KSave; KPdf])
    (_generate_and_send_report W r).
Proof. unfold _generate_and_send_report. acts_body. Qed.
#[local] Hint Resolve generate_and_send_report_acts : footprint.

Lemma generate_report_on_demand_acts :
  always (acts [F_ticks; F_trace] [KSend; KSummary; KSave; KPdf])
    (generate_report_on_demand W).
Proof. unfold generate_report_on_demand. acts_body. Qed.
#[local] Hint Resolve generate_report_on_demand_acts : footprint.

Lemma flush_and_report_acts a :
  always
    (acts
       [F_audio_chunks; F_last_transcript_time; F_accumulated_transcript;
        F_slide_count; F_history; F_last_question_time; F_pending_response;
        F_is_ai_speaking; F_ticks; F_trace]
       [KFinal; KTranscribe; KSend; KTts; KEvaluate; KSummary; KSave; KPdf])
    (flush_and_report W a).
Proof. unfold flush_and_report. acts_body. Qed.
#[local] Hint Resolve flush_and_report_acts : footprint.

(** [stop] does not write [screen_share_lost_time]. *)
Lemma stop_acts a g :
  always
    (acts
       [F_is_active; F_is_stopped; F_awaiting_screen_reshare; F_audio_chunks;
        F_last_transcript_time; F_accumulated_transcript; F_slide_count;
        F_history; F_last_question_time; F_pending_response;
        F_is_ai_speaking; F_ticks; F_trace]
       [KFinal; KStopping; KTranscribe; KSend; KTts; KEvaluate; KSummary; KSave;
        KPdf])
    (stop W a g).
Proof. unfold stop. acts_body. Qed.
#[local] Hint Resolve stop_acts : footprint.

Lemma screen_share_timeout_checker_acts :
  always
    (acts
       [F_is_active; F_is_stopped; F_awaiting_screen_reshare; F_audio_chunks;
        F_last_transcript_time; F_accumulated_transcript; F_slide_count;
        F_history; F_last_question_time; F_pending_response;
        F_is_ai_speaking; F_ticks; F_trace]
       [KFinal; KStopping; KTranscribe; KSend; KTts; KEvaluate; KSummary; KSave;
        KPdf])
    (_screen_share_timeout_checker W).
Proof. unfold _screen_share_timeout_checker. acts_body. Qed.
#[local] Hint Resolve screen_share_timeout_checker_acts : footprint.

(** ** The turn history: numbering and growth *)

Lemma history_grows_same s s' :
  history s' = history s -> slide_count s' = slide_count s ->
  history_grows s s'.
Proof.
  intros Hh Hc. split.
  - unfold numbered. rewrite Hh, Hc. tauto.
  - rewrite Hh. reflexivity.
Qed.

Lemma history_grows_refl s : history_grows s s.
Proof. now apply history_grows_same. Qed.

Lemma history_grows_trans s1 s2 s3 :
  history_grows s1 s2 -> history_grows s2 s3 -> history_grows s1 s3.
Proof.
  intros [N12 P12] [N23 P23]. split; [tauto|].
  etrans; eassumption.
Qed.

(** A coroutine that writes neither field leaves the history as it is. *)
Lemma history_grows_of_acts {A} ws ks (m : M A) :
  always (acts ws ks) m ->
  writes F_history ws = false -> writes F_slide_count ws = false ->
  always history_grows m.
Proof.
  intros H Hh Hc s. apply history_grows_same.
  - exact (acts_field _ _ _ _ F_history (H s) Hh).
  - exact (acts_field _ _ _ _ F_slide_count (H s) Hc).
Qed.

(** Appending the turn numbered [slide_count + 1] keeps the numbering. *)
Lemma numbered_append s s' t :
  history s' = history s ++ [t] ->
  slide t = (slide_count s + 1)%Z ->
  slide_count s' = (slide_count s + 1)%Z ->
  history_grows s s'.
Proof.
  intros Hh Ht Hc. split.
  - intros [Hn Hi]. split.
    + rewrite Hc, Hh, Hn, length_app. cbn. lia.
    + intros i u. rewrite Hh. intros Hu.
      apply lookup_app_Some in Hu as [Hu|[Hlen Hu]]; [now apply Hi|].
      destruct (i - length (history s))%nat as [|k] eqn:Ek; [|discriminate].
      injection Hu as <-. rewrite Ht, Hn. lia.
  - rewrite Hh. now apply prefix_app_r.
Qed.

(** The one place that writes the history: it appends one turn, numbered
    with the incremented [slide_count]. *)
Lemma update_history_appends tr ev s :
  exists t : Turn,
    history (exec (update_history W tr ev) s) = history s ++ [t]
    /\ slide t = (slide_count s + 1)%Z
    /\ transcript t = tr
    /\ slide_count (exec (update_history W tr ev) s) = (slide_count s + 1)%Z.
Proof. eexists. repeat split; reflexivity. Qed.

Lemma update_history_grows tr ev : always history_grows (update_history W tr ev).
Proof.
  intros s.
  destruct (update_history_appends tr ev s) as (t & Hh & Ht & _ & Hc).
  eapply numbered_append; eassumption.
Qed.

Create HintDb grows discriminated.
#[local] Hint Resolve update_history_grows : grows.

Ltac grows_preorder :=
  idtac; first [exact history_grows_refl | exact history_grows_trans].

Ltac grows_leaf :=
  idtac;
  lazymatch goal with
  | |- always _ (modify _) =>
      let s := fresh "s" in
      intros s; apply history_grows_same; reflexivity
  | |- always _ _ =>
      first
        [ solve [eauto 2 with grows]
        | eapply history_grows_of_acts;
          [solve [eauto 2 with footprint] | reflexivity..] ]
  end.

Ltac grows_body := always_body grows_preorder grows_leaf.

Lemma record_and_respond_grows tr ev :
  always history_grows (record_and_respond W tr ev).
Proof. unfold record_and_respond. grows_body. Qed.
#[local] Hint Resolve record_and_respond_grows : grows.

Lemma generate_response_grows tr : always history_grows (generate_response W tr).
Proof. unfold generate_response. grows_body. Qed.
#[local] Hint Resolve generate_response_grows : grows.

Lemma finalize_transcript_grows : always history_grows (finalize_transcript W).
Proof. unfold finalize_transcript. grows_body. Qed.
#[local] Hint Resolve finalize_transcript_grows : grows.

Lemma accumulate_grows text : always history_grows (accumulate W text).
Proof. unfold accumulate. grows_body. Qed.
#[local] Hint Resolve accumulate_grows : grows.

Lemma process_accumulated_audio_grows :
  always history_grows (process_accumulated_audio W).
Proof. unfold process_accumulated_audio. grows_body. Qed.
#[local] Hint Resolve process_accumulated_audio_grows : grows.

Lemma handle_audio_chunk_grows a e r :
  always history_grows (handle_audio_chunk W a e r).
Proof. unfold handle_audio_chunk. grows_body. Qed.
#[local] Hint Resolve handle_audio_chunk_grows : grows.

Lemma flush_and_report_grows a : always history_grows (flush_and_report W a).
Proof. unfold flush_and_report. grows_body. Qed.
#[local] Hint Resolve flush_and_report_grows : grows.

Lemma stop_grows a g : always history_grows (stop W a g).
Proof. unfold stop. grows_body. Qed.
#[local] Hint Resolve stop_grows : grows.

Lemma screen_share_timeout_checker_grows :
  always history_grows (_screen_share_timeout_checker W).
Proof. unfold _screen_share_timeout_checker. grows_body. Qed.
#[local] Hint Resolve screen_share_timeout_checker_grows : grows.

Lemma dispatch_grows m : always history_grows (dispatch W m).
Proof. destruct m; cbn [dispatch]; grows_body. Qed.
#[local] Hint Resolve dispatch_grows : grows.

Lemma step_grows e : always history_grows (step W e).
Proof. destruct e; cbn [step]; grows_body. Qed.

Lemma run_snoc es e s : run W (es ++ [e]) s = exec (step W e) (run W es s).
Proof. unfold run. now rewrite fold_left_app. Qed.

Lemma run_grows es s : history_grows s (run W es s).
Proof.
  induction es as [|e es IH] using rev_ind.
  - apply history_grows_refl.
  - rewrite run_snoc. eapply history_grows_trans; [exact IH|].
    apply step_grows.
Qed.

Lemma started_session_numbered sid thr mi :
  numbered (started_session W sid thr mi).
Proof.
  unfold started_session.
  assert (H : always history_grows (start W)).
  { eapply history_grows_of_acts; [apply start_acts|reflexivity..]. }
  apply H. split; [reflexivity|]. intros i t Hi. discriminate.
Qed.

(** C8: in every state a started session reaches, and after every further
    event, the turn at position [i] of the history carries the sequence
    number [i + 1] (one more than the number of turns appended before it),
    the event has left the turns already in the history as they were and
    where they were, and so the sequence numbers increase strictly along
    the history. *)
Theorem C8_turn_numbering_append_only
    (sid : string) (thr mi : Q) (es : list Event) (e : Event) :
  let s := run W es (started_session W sid thr mi) in
  let s' := exec (step W e) s in
  (forall (i : nat) (t : Turn),
      history s' !! i = Some t -> slide t = (1 + Z.of_nat i)%Z)
  /\ slide_count s' = Z.of_nat (length (history s'))
  /\ history s `prefix_of` history s'
  /\ (forall (i j : nat) (ti tj : Turn),
        (i < j)%nat -> history s' !! i = Some ti ->
        history s' !! j = Some tj -> (slide ti < slide tj)%Z).
Proof.
  intros s s'.
  assert (Hs : numbered s).
  { apply (run_grows es). apply started_session_numbered. }
  destruct (step_grows e s) as [Hn Hp]. fold s' in Hn, Hp.
  destruct (Hn Hs) as [Hc Hi].
  repeat split; try assumption.
  - intros i t Ht. rewrite (Hi i t Ht). lia.
  - intros i j ti tj Hij Hti Htj.
    rewrite (Hi i ti Hti), (Hi j tj Htj). lia.
Qed.

(** ** The change gate *)

Lemma sum_abs_diff_same (l : list Z) : sum_abs_diff l l = 0%Z.
Proof. induction l as [|x l IH]; cbn; [reflexivity|]. rewrite IH. lia. Qed.

Lemma diff_ratio_same (l : list Z) : (diff_ratio l l == 0)%Q.
Proof.
  unfold diff_ratio. rewrite sum_abs_diff_same.
  unfold Qdiv. now rewrite !Qmult_0_l.
Qed.

(** What [process_frame] answers and the state it leaves, for a capture that
    decodes to [frame]: the gate is the change test and the cooldown; past
    the gate the three attributes are written whatever [_analyze_frame]
    answered, and the vision endpoint is called unless the capture could
    not be saved; before the gate nothing is written and nothing called. *)
Lemma process_frame_decoded d frame s :
  b64decode W d ≫= open_image W = Some frame ->
  let p := vision s in
  let now := clock W (ticks s) in
  wp (process_frame W d)
    (fun r s' =>
       if _detect_change W p frame
          && negb (Qltb (now - _last_api_call p) (min_interval p))
       then
         let analysis := description W p (S (ticks s)) frame in
         r = (true, Some analysis)
         /\ vision s' = accepted p frame analysis now
         /\ effects_of_kind KVision (trace s')
            = requested W frame ++ effects_of_kind KVision (trace s)
       else
         r = (false, None) /\ vision s' = vision s
         /\ effects_of_kind KVision (trace s')
            = effects_of_kind KVision (trace s))
    s.
Proof.
  intros Hd p now. unfold process_frame. rewrite Hd.
  subst p now.
  unfold _analyze_frame, analysis_failed, description, fallback, requested,
    accepted.
  wp_run;
    destruct (_detect_change W (vision s) frame); try discriminate Heqb;
    cbn [andb negb].
  all: repeat split; reflexivity.
Qed.

(** The change test of the gate, when the resampling does not fail. *)
Lemma detect_change_iff p frame :
  (forall last, _last_frame p = Some last ->
     is_Some (resize_small W frame) /\ is_Some (resize_small W last)) ->
  _detect_change W p frame = true
  <-> (_last_frame p = None
       \/ exists last current_small last_small,
            _last_frame p = Some last
            /\ resize_small W frame = Some current_small
            /\ resize_small W last = Some last_small
            /\ (change_threshold p < diff_ratio current_small last_small)%Q).
Proof.
  intros Hr. unfold _detect_change.
  destruct (_last_frame p) as [last|] eqn:El; [|tauto].
  destruct (Hr last eq_refl) as [[cs Hc] [ls Hl]]. rewrite Hc, Hl.
  rewrite Qgtb_gt. split.
  - intros H. right. exists last, cs, ls. auto.
  - intros [H|(l & c & l' & E1 & E2 & E3 & H)]; [discriminate|].
    congruence.
Qed.

(** The answer, the processor and the requests of [process_frame] by the
    value of its gate. *)
Lemma process_frame_gate d frame s :
  b64decode W d ≫= open_image W = Some frame ->
  let p := vision s in
  let now := clock W (ticks s) in
  let gate :=
    _detect_change W p frame
    && negb (Qltb (now - _last_api_call p) (min_interval p)) in
  let analysis := description W p (S (ticks s)) frame in
  eval (process_frame W d) s
  = (gate, if gate then Some analysis else None)
  /\ vision (exec (process_frame W d) s)
     = (if gate then accepted p frame analysis now else p)
  /\ effects_of_kind KVision (trace (exec (process_frame W d) s))
     = (if gate then requested W frame else [])
       ++ effects_of_kind KVision (trace s).
Proof.
  intros Hd p now gate analysis.
  pose proof (process_frame_decoded d frame s Hd) as H.
  unfold wp in H. cbv zeta in H. fold p now gate analysis in H.
  destruct gate; destruct H as (H1 & H2 & H3); auto.
Qed.

(** A capture that does not decode is no change. *)
Lemma process_frame_undecodable d s :
  b64decode W d ≫= open_image W = None ->
  process_frame W d s = (false, None, s).
Proof. intros Hd. unfold process_frame. now rewrite Hd. Qed.

(** Inside the cooldown no capture passes the gate. *)
Lemma process_frame_in_cooldown d s :
  (clock W (ticks s) - _last_api_call (vision s) < min_interval (vision s))%Q ->
  fst (eval (process_frame W d) s) = false.
Proof.
  intros Hc. apply Qltb_lt in Hc.
  destruct (b64decode W d ≫= open_image W) as [frame|] eqn:Hd.
  - destruct (process_frame_gate d frame s Hd) as (E & _). cbv zeta in E.
    rewrite E, Hc. cbn [negb fst]. apply andb_false_r.
  - unfold eval. now rewrite (process_frame_undecodable d s Hd).
Qed.

(** The vision state is written by [process_frame] only, which the
    websocket loop calls for a video message. *)
Lemma keeps_vision_of_acts {A} ws ks (m : M A) s :
  always (acts ws ks) m -> writes F_vision ws = false ->
  vision (exec m s) = vision s.
Proof. intros H Hw. exact (acts_field _ _ _ _ F_vision (H s) Hw). Qed.

Lemma step_keeps_vision e s :
  (forall data, e <> Receive (MVideo data)) ->
  vision (exec (step W e) s) = vision s.
Proof.
  intros Hv. destruct e as [m| | |]; cbn [step].
  - destruct m; cbn [dispatch];
      try (eapply keeps_vision_of_acts;
           [solve [eauto 2 with footprint]|reflexivity]).
    + now destruct (Hv data).
    + apply (keeps_vision_of_acts [F_is_ai_speaking; F_ticks; F_trace]
               [KSend]); [acts_body|reflexivity].
    + apply (keeps_vision_of_acts [] []); [acts_body|reflexivity].
  - eapply keeps_vision_of_acts; [apply send_event_acts|reflexivity].
  - eapply keeps_vision_of_acts;
      [apply screen_share_timeout_checker_acts|reflexivity].
  - eapply keeps_vision_of_acts; [apply stop_acts|reflexivity].
Qed.


(** Past the gate, a rate limited call answers the cached description, and
    the frame, the description and the time of the call are written all the
    same. *)
Lemma process_frame_rate_limited d frame s e :
  b64decode W d ≫= open_image W = Some frame ->
  _detect_change W (vision s) frame = true ->
  (min_interval (vision s) <= clock W (ticks s) - _last_api_call (vision s))%Q ->
  save_jpeg_raises W frame = None ->
  groq_vision W (S (ticks s)) frame = ApiRaise e ->
  contains "429" e || contains "rate" (lower e) = true ->
  eval (process_frame W d) s = (true, Some (_last_analysis (vision s)))
  /\ _last_frame (vision (exec (process_frame W d) s)) = Some frame
  /\ _last_api_call (vision (exec (process_frame W d) s)) = clock W (ticks s).
Proof.
  intros Hd Hc Hi Hs Hv He.
  destruct (process_frame_gate d frame s Hd) as (Hr & Hp & _).
  cbv zeta in Hr, Hp. apply Qltb_ge in Hi.
  rewrite Hc, Hi in Hr, Hp. cbn [andb negb] in Hr, Hp.
  unfold description, fallback in Hr. rewrite Hs, Hv, He in Hr.
  rewrite Hr, Hp. auto.
Qed.

(** ** Pacing *)

(** Inside the pacing window [generate_response] returns before it calls
    the evaluation service: nothing but the clock reading happens. *)
Lemma generate_response_paced_out tr s :
  (clock W (ticks s) - last_question_time s < min_question_interval s)%Q ->
  (0 < last_question_time s)%Q ->
  exec (generate_response W tr) s = exec tick s.
Proof.
  intros Hw H0. apply Qltb_lt in Hw. apply Qgtb_gt in H0.
  change (wp (generate_response W tr) (fun _ s' => s' = exec tick s) s).
  unfold generate_response.
  wp_upto_branch.
  rewrite Hw, H0. cbn [andb]. wp_step. reflexivity.
Qed.

(** ** The interruption state *)

Ltac share_read H :=
  acts_read H F_is_active; acts_read H F_is_stopped;
  acts_read H F_awaiting_screen_reshare;
  acts_read H F_screen_share_lost_time.

(** A coroutine that writes none of the four attributes keeps them
    consistent. *)
Lemma share_consistent_of_acts {A} ws ks (m : M A) :
  always (acts ws ks) m ->
  writes F_is_active ws = false -> writes F_is_stopped ws = false ->
  writes F_awaiting_screen_reshare ws = false ->
  writes F_screen_share_lost_time ws = false ->
  always (keeps share_consistent) m.
Proof.
  intros H H1 H2 H3 H4 s. specialize (H s).
  pose proof (acts_field _ _ _ _ F_is_active H H1) as E1.
  pose proof (acts_field _ _ _ _ F_is_stopped H H2) as E2.
  pose proof (acts_field _ _ _ _ F_awaiting_screen_reshare H H3) as E3.
  pose proof (acts_field _ _ _ _ F_screen_share_lost_time H H4) as E4.
  cbn in E1, E2, E3, E4. unfold keeps, share_consistent.
  now rewrite E1, E2, E3, E4.
Qed.

Lemma handle_screen_share_lost_consistent :
  always (keeps share_consistent) (handle_screen_share_lost W).
Proof.
  apply always_wp. intros s. unfold handle_screen_share_lost.
  wp_run; unfold keeps, share_consistent; session_simpl;
    [tauto|].
  share_read Hacts. intros [Hs _].
  apply orb_false_iff in Heqb as [Ha Hw]. apply negb_false_iff in Ha.
  split; [exact Hs|]. intros _. split; [exact Ha|]. eexists. reflexivity.
Qed.

Lemma handle_screen_share_restored_consistent :
  always (keeps share_consistent) (handle_screen_share_restored W).
Proof.
  apply always_wp. intros s. unfold handle_screen_share_restored.
  wp_run; unfold keeps, share_consistent; session_simpl; [tauto|].
  share_read Hacts. intros [Hs _]. split; [exact Hs|discriminate].
Qed.

(** What [stop] does to the interruption attributes and to the log of
    stops, when it is not a no-op. *)
Lemma stop_effect a g s :
  is_active s = true -> is_stopped s = false ->
  let s' := exec (stop W a g) s in
  is_active s' = false /\ is_stopped s' = true
  /\ awaiting_screen_reshare s' = false
  /\ screen_share_lost_time s' = screen_share_lost_time s
  /\ effects_of_kind KStopping (trace s')
     = EStopping a :: effects_of_kind KStopping (trace s).
Proof.
  intros Ha Hs s'. subst s'.
  change (wp (stop W a g)
            (fun _ s' =>
               is_active s' = false /\ is_stopped s' = true
               /\ awaiting_screen_reshare s' = false
               /\ screen_share_lost_time s' = screen_share_lost_time s
               /\ effects_of_kind KStopping (trace s')
                  = EStopping a :: effects_of_kind KStopping (trace s)) s).
  unfold stop. wp_upto_branch. rewrite Ha, Hs. cbn [negb orb].
  wp_run. share_read Hacts.
  rewrite (acts_effects_of_kind _ _ _ _ KStopping Hacts eq_refl).
  repeat split; reflexivity.
Qed.

(** A stopped or inactive session is not stopped again. *)
Lemma stop_noop a g s :
  negb (is_active s) || is_stopped s = true -> exec (stop W a g) s = s.
Proof.
  intros H.
  change (wp (stop W a g) (fun _ s' => s' = s) s).
  unfold stop. wp_upto_branch. rewrite H. wp_step. reflexivity.
Qed.

Lemma stop_consistent a g : always (keeps share_consistent) (stop W a g).
Proof.
  intros s Hs.
  destruct (negb (is_active s) || is_stopped s) eqn:E.
  - now rewrite stop_noop.
  - apply orb_false_iff in E as [Ha Hst]. apply negb_false_iff in Ha.
    destruct (stop_effect a g s Ha Hst) as (E1 & E2 & E3 & _).
    split; intros H; congruence.
Qed.

Create HintDb consistent discriminated.
#[local] Hint Resolve handle_screen_share_lost_consistent
  handle_screen_share_restored_consistent stop_consistent : consistent.

Ltac keeps_preorder :=
  idtac; first [exact (keeps_refl _) | exact (keeps_trans _)].

Ltac consistent_leaf :=
  idtac;
  lazymatch goal with
  | |- always _ (modify _) =>
      let s := fresh "s" in
      intros s; unfold keeps, share_consistent; session_simpl; tauto
  | |- always _ _ =>
      first
        [ solve [eauto 2 with consistent]
        | eapply share_consistent_of_acts;
          [solve [eauto 2 with footprint] | reflexivity..] ]
  end.

Ltac consistent_body := always_body keeps_preorder consistent_leaf.

Lemma screen_share_timeout_checker_consistent :
  always (keeps share_consistent) (_screen_share_timeout_checker W).
Proof. unfold _screen_share_timeout_checker. consistent_body. Qed.
#[local] Hint Resolve screen_share_timeout_checker_consistent : consistent.

Lemma dispatch_consistent m : always (keeps share_consistent) (dispatch W m).
Proof. destruct m; cbn [dispatch]; consistent_body. Qed.
#[local] Hint Resolve dispatch_consistent : consistent.

Lemma step_consistent e : always (keeps share_consistent) (step W e).
Proof. destruct e; cbn [step]; consistent_body. Qed.

Lemma started_session_consistent sid thr mi :
  share_consistent (started_session W sid thr mi).
Proof.
  unfold started_session.
  set (s0 := new_session W sid thr mi).
  pose proof (start_acts s0) as H.
  pose proof (acts_field _ _ _ _ F_is_stopped H eq_refl) as E1.
  pose proof (acts_field _ _ _ _ F_awaiting_screen_reshare H eq_refl) as E2.
  cbn in E1, E2. split; intros Hx; congruence.
Qed.

(** In every state a started session reaches, a session that awaits the
    screen share is active, not stopped, and has the time of the loss. *)
Lemma reachable_consistent sid thr mi es :
  share_consistent (run W es (started_session W sid thr mi)).
Proof.
  induction es as [|e es IH] using rev_ind.
  - apply started_session_consistent.
  - rewrite run_snoc. now apply step_consistent.
Qed.

(** *** The log of stops *)

Lemma unstopped_log_of_acts {A} ws ks (m : M A) :
  always (acts ws ks) m ->
  writes F_is_stopped ws = false -> does KStopping ks = false ->
  always (keeps unstopped_log) m.
Proof.
  intros H H1 H2 s. specialize (H s).
  pose proof (acts_field _ _ _ _ F_is_stopped H H1) as E1. cbn in E1.
  unfold keeps, unstopped_log.
  now rewrite E1, (acts_effects_of_kind _ _ _ _ KStopping H H2).
Qed.

Lemma stop_unstopped_log a g : always (keeps unstopped_log) (stop W a g).
Proof.
  intros s Hs.
  destruct (negb (is_active s) || is_stopped s) eqn:E.
  - now rewrite stop_noop.
  - apply orb_false_iff in E as [Ha Hst]. apply negb_false_iff in Ha.
    destruct (stop_effect a g s Ha Hst) as (_ & E2 & _).
    intros H. congruence.
Qed.

Create HintDb stoplog discriminated.
#[local] Hint Resolve stop_unstopped_log : stoplog.

Ltac stoplog_leaf :=
  idtac;
  lazymatch goal with
  | |- always _ (modify _) =>
      let s := fresh "s" in
      intros s; unfold keeps, unstopped_log; session_simpl; tauto
  | |- always _ _ =>
      first
        [ solve [eauto 2 with stoplog]
        | eapply unstopped_log_of_acts;
          [solve [eauto 2 with footprint] | reflexivity..] ]
  end.

Ltac stoplog_body := always_body keeps_preorder stoplog_leaf.

Lemma screen_share_timeout_checker_unstopped_log :
  always (keeps unstopped_log) (_screen_share_timeout_checker W).
Proof. unfold _screen_share_timeout_checker. stoplog_body. Qed.
#[local] Hint Resolve screen_share_timeout_checker_unstopped_log : stoplog.

Lemma step_unstopped_log e : always (keeps unstopped_log) (step W e).
Proof.
  destruct e as [m| | |]; [destruct m|..]; cbn [step dispatch];
    stoplog_body.
Qed.

Lemma reachable_unstopped_log sid thr mi es :
  unstopped_log (run W es (started_session W sid thr mi)).
Proof.
  induction es as [|e es IH] using rev_ind.
  - unfold run, started_session, unstopped_log. cbn [fold_left].
    set (s0 := new_session W sid thr mi).
    pose proof (start_acts s0) as H. intros _.
    now rewrite (acts_effects_of_kind _ _ _ _ KStopping H eq_refl).
  - rewrite run_snoc. now apply step_unstopped_log.
Qed.

(** *** A stopped session *)

Lemma stays_stopped_refl s : stays_stopped s s.
Proof. unfold stays_stopped. auto. Qed.

Lemma stays_stopped_trans s1 s2 s3 :
  stays_stopped s1 s2 -> stays_stopped s2 s3 -> stays_stopped s1 s3.
Proof.
  unfold stays_stopped. intros H12 H23 Ha Hs.
  destruct (H12 Ha Hs) as (Ha2 & Hs2 & E2).
  destruct (H23 Ha2 Hs2) as (Ha3 & Hs3 & E3).
  repeat split; congruence.
Qed.

Lemma stays_stopped_of_acts {A} ws ks (m : M A) :
  always (acts ws ks) m ->
  writes F_is_active ws = false -> writes F_is_stopped ws = false ->
  does KStopping ks = false ->
  always stays_stopped m.
Proof.
  intros H H1 H2 H3 s. specialize (H s).
  pose proof (acts_field _ _ _ _ F_is_active H H1) as E1.
  pose proof (acts_field _ _ _ _ F_is_stopped H H2) as E2.
  cbn in E1, E2. unfold stays_stopped.
  rewrite E1, E2, (acts_effects_of_kind _ _ _ _ KStopping H H3). auto.
Qed.

Lemma stop_stays_stopped a g : always stays_stopped (stop W a g).
Proof.
  intros s Ha Hs. rewrite stop_noop; [auto|].
  rewrite Hs. apply orb_true_r.
Qed.

Create HintDb stopped discriminated.
#[local] Hint Resolve stop_stays_stopped : stopped.

Ltac stopped_preorder :=
  idtac; first [exact stays_stopped_refl | exact stays_stopped_trans].

Ltac stopped_leaf :=
  idtac;
  lazymatch goal with
  | |- always _ (modify _) =>
      let s := fresh "s" in
      intros s; unfold stays_stopped; session_simpl; auto
  | |- always _ _ =>
      first
        [ solve [eauto 2 with stopped]
        | eapply stays_stopped_of_acts;
          [solve [eauto 2 with footprint] | reflexivity..] ]
  end.

Ltac stopped_body := always_body stopped_preorder stopped_leaf.

Lemma screen_share_timeout_checker_stays_stopped :
  always stays_stopped (_screen_share_timeout_checker W).
Proof. unfold _screen_share_timeout_checker. stopped_body. Qed.
#[local] Hint Resolve screen_share_timeout_checker_stays_stopped : stopped.

Lemma step_stays_stopped e : always stays_stopped (step W e).
Proof.
  destruct e as [m| | |]; [destruct m|..]; cbn [step dispatch];
    stopped_body.
Qed.

Lemma run_stays_stopped es s : stays_stopped s (run W es s).
Proof.
  induction es as [|e es IH] using rev_ind.
  - apply stays_stopped_refl.
  - rewrite run_snoc. eapply stays_stopped_trans; [exact IH|].
    apply step_stays_stopped.
Qed.

(** The timeout task of a session that is inactive does nothing. *)
Lemma screen_share_timeout_checker_noop s :
  is_active s = false -> exec (_screen_share_timeout_checker W) s = s.
Proof.
  intros H.
  change (wp (_screen_share_timeout_checker W) (fun _ s' => s' = s) s).
  unfold _screen_share_timeout_checker. wp_upto_branch.
  rewrite H, andb_false_r. wp_step. reflexivity.
Qed.

(** *** Report generation *)

Ltac kinds_simpl :=
  cbn [effects_of_kind List.filter kind kind_index Nat.eqb app].

(** [_generate_and_send_report] asks for the summary once, and leaves the
    history and the screen contexts as they are. *)
Lemma generate_and_send_report_spec r s :
  wp (_generate_and_send_report W r)
    (fun _ s' =>
       effects_of_kind KSummary (trace s')
       = ESummary (history s) (screen_contexts s)
         :: effects_of_kind KSummary (trace s)
       /\ history s' = history s
       /\ screen_contexts s' = screen_contexts s)
    s.
Proof.
  unfold _generate_and_send_report. wp_run;
    try rewrite (acts_effects_of_kind _ _ _ _ KSummary Hacts eq_refl);
    try (acts_read Hacts F_history; acts_read Hacts F_screen_contexts);
    session_simpl; kinds_simpl; auto.
Qed.

(** The reports of [flush_and_report]: one if the session was ended
    automatically and the history, once the pending audio and transcript
    are flushed, is not empty; none otherwise. *)
Lemma flush_and_report_summaries a s :
  effects_of_kind KSummary (trace (exec (flush_and_report W a) s))
  = reports_of a (exec (flush_and_report W a) s)
    ++ effects_of_kind KSummary (trace s).
Proof.
  change (wp (flush_and_report W a)
            (fun _ s' =>
               effects_of_kind KSummary (trace s')
               = reports_of a s' ++ effects_of_kind KSummary (trace s)) s).
  unfold flush_and_report, reports_of.
  repeat wp_step_with ltac:(apply generate_and_send_report_spec).
  all: repeat
         match goal with
         | H : acts _ _ _ _ |- _ =>
             progress
               rewrite <- (acts_effects_of_kind _ _ _ _ KSummary H eq_refl)
         end.
  all: try (cbv beta in Hspec; session_simpl_in Hspec;
            destruct Hspec as (-> & -> & ->)).
  all: kinds_simpl; rewrite Heqb1; reflexivity.
Qed.

(** *** The timeout *)

Lemma stop_unfold a g s :
  is_active s = true -> is_stopped s = false ->
  exec (stop W a g) s
  = exec (flush_and_report W a)
      (set_trace (EStopping a :: trace s)
         (set_awaiting_screen_reshare false
            (set_is_stopped true (set_is_active false s)))).
Proof.
  intros Ha Hs.
  match goal with
  | |- _ = ?rhs => change (wp (stop W a g) (fun _ s' => s' = rhs) s)
  end.
  unfold stop. wp_upto_branch. rewrite Ha, Hs. cbn [negb orb].
  repeat wp_step_with ltac:(apply wp_exec).
  destruct Hspec as [_ ->]. reflexivity.
Qed.

Lemma stop_summaries a g s :
  is_active s = true -> is_stopped s = false ->
  effects_of_kind KSummary (trace (exec (stop W a g) s))
  = reports_of a (exec (stop W a g) s)
    ++ effects_of_kind KSummary (trace s).
Proof.
  intros Ha Hs. rewrite (stop_unfold a g s Ha Hs).
  rewrite flush_and_report_summaries. reflexivity.
Qed.

Lemma screen_share_timeout_checker_unfold s :
  awaiting_screen_reshare s = true -> is_active s = true ->
  exec (_screen_share_timeout_checker W) s
  = exec (stop W true false)
      (exec (speak_response W closing_message)
         (exec (send_event W "ai_message"
                  (PDict [("text"%string, VStr closing_message)])) s)).
Proof.
  intros Hw Ha. unfold _screen_share_timeout_checker.
  rewrite !exec_bind. unfold eval at 1 2. cbn [gets fst exec snd].
  rewrite Hw, Ha. cbn [andb]. rewrite !exec_bind. reflexivity.
Qed.

(** What the timeout does to a session that still awaits the screen
    share. *)
Lemma screen_share_timeout_effect s :
  awaiting_screen_reshare s = true -> is_active s = true ->
  is_stopped s = false ->
  let s' := exec (_screen_share_timeout_checker W) s in
  is_active s' = false /\ is_stopped s' = true
  /\ awaiting_screen_reshare s' = false
  /\ effects_of_kind KStopping (trace s')
     = EStopping true :: effects_of_kind KStopping (trace s)
  /\ effects_of_kind KSummary (trace s')
     = reports_of true s' ++ effects_of_kind KSummary (trace s).
Proof.
  intros Hw Ha Hs s'. subst s'.
  rewrite (screen_share_timeout_checker_unfold s Hw Ha).
  set (s1 := exec (send_event W "ai_message" _) s).
  set (s2 := exec (speak_response W closing_message) s1).
  assert (H1 : acts [F_ticks; F_trace] [KSend] s s1)
    by apply send_event_acts.
  assert (H2 : acts [F_is_ai_speaking; F_ticks; F_trace] [KSend; KTts] s1 s2)
    by apply speak_response_acts.
  assert (Ha2 : is_active s2 = true).
  { rewrite (acts_field _ _ _ _ F_is_active H2 eq_refl).
    now rewrite (acts_field _ _ _ _ F_is_active H1 eq_refl). }
  assert (Hs2 : is_stopped s2 = false).
  { rewrite (acts_field _ _ _ _ F_is_stopped H2 eq_refl).
    now rewrite (acts_field _ _ _ _ F_is_stopped H1 eq_refl). }
  destruct (stop_effect true false s2 Ha2 Hs2) as (E1 & E2 & E3 & _ & E5).
  pose proof (stop_summaries true false s2 Ha2 Hs2) as E6.
  rewrite (acts_effects_of_kind _ _ _ _ KStopping H2 eq_refl),
    (acts_effects_of_kind _ _ _ _ KStopping H1 eq_refl) in E5.
  rewrite (acts_effects_of_kind _ _ _ _ KSummary H2 eq_refl),
    (acts_effects_of_kind _ _ _ _ KSummary H1 eq_refl) in E6.
  auto.
Qed.

(** The timeout task with nothing handled between its wake-up and its
    end: when it wakes up in a state, reached by a started session, that
    still awaits the screen share, the session is terminated there, once
    and for the whole session, with [auto_ended = true]: the log of stops,
    empty before, is this one stop and stays so whatever happens later; the
    summary is asked for exactly once if the history (with the pending
    audio and transcript flushed) is not empty, and not at all if it is
    empty; and every later [stop] and every later wake-up of a timeout task
    leaves the session as it is. *)
Lemma timeout_terminates_once_uninterrupted
    (sid : string) (thr mi : Q) (es : list Event)
    (Hawaiting :
       awaiting_screen_reshare (run W es (started_session W sid thr mi))
       = true) :
  let s := run W es (started_session W sid thr mi) in
  let s' := exec (step W TimerFired) s in
  is_stopped s = false
  /\ is_stopped s' = true /\ is_active s' = false
  /\ effects_of_kind KStopping (trace s') = [EStopping true]
  /\ effects_of_kind KSummary (trace s')
     = (match history s' with
        | [] => []
        | _ :: _ => [ESummary (history s') (screen_contexts s')]
        end) ++ effects_of_kind KSummary (trace s)
  /\ (forall (later : list Event) (a g : bool),
        let s'' := run W later s' in
        effects_of_kind KStopping (trace s'') = [EStopping true]
        /\ exec (stop W a g) s'' = s''
        /\ exec (_screen_share_timeout_checker W) s'' = s'').
Proof.
  intros s s'.
  destruct (reachable_consistent sid thr mi es) as [Hc1 Hc2].
  fold s in Hc1, Hc2, Hawaiting.
  destruct (Hc2 Hawaiting) as [Ha _]. specialize (Hc1 Ha).
  pose proof (reachable_unstopped_log sid thr mi es Hc1) as Hlog.
  fold s in Hlog.
  destruct (screen_share_timeout_effect s Hawaiting Ha Hc1)
    as (E1 & E2 & E3 & E4 & E5).
  change (exec (_screen_share_timeout_checker W) s) with s' in *.
  rewrite Hlog in E4.
  split; [exact Hc1|]. split; [exact E2|]. split; [exact E1|].
  split; [exact E4|]. split.
  - rewrite E5. unfold reports_of. cbn [andb].
    now destruct (history s').
  - intros later a g s''.
    destruct (run_stays_stopped later s' E1 E2) as (F1 & F2 & F3).
    fold s'' in F1, F2, F3. split; [congruence|]. split.
    + apply stop_noop. rewrite F2. apply orb_true_r.
    + now apply screen_share_timeout_checker_noop.
Qed.

(** *** The timeout task beside the loop *)

Lemma speak_response_answered_acts r :
  always (acts [F_is_ai_speaking; F_ticks; F_trace] [KSend])
    (speak_response_answered W r).
Proof. unfold speak_response_answered. acts_body. Qed.

Lemma checker_wakes_up_acts :
  always (acts [F_is_ai_speaking; F_ticks; F_trace] [KSend; KTts])
    (checker_wakes_up W).
Proof. unfold checker_wakes_up, speak_response_request. acts_body. Qed.

(** The task awaits the speech service exactly when the session still
    awaits the screen share. *)
Lemma checker_wakes_up_awaits s :
  awaiting_screen_reshare s = true -> is_active s = true ->
  exists answer, eval (checker_wakes_up W) s = Some answer.
Proof.
  intros Hw Ha.
  change (wp (checker_wakes_up W) (fun r _ => exists answer, r = Some answer) s).
  unfold checker_wakes_up. wp_upto_branch. rewrite Hw, Ha. cbn [andb].
  repeat wp_step_with ltac:(apply wp_exec). eauto.
Qed.

(** With nothing handled while the task awaits the speech service, the
    task beside the loop is the task in one piece. *)
Lemma timeout_beside_alone s :
  timeout_beside W [] s = exec (step W TimerFired) s.
Proof.
  unfold timeout_beside, run. cbn [fold_left step].
  unfold checker_wakes_up, checker_resumes, _screen_share_timeout_checker,
    speak_response, speak_response_request, speak_response_answered.
  unfold eval, exec, bind, gets. cbn [fst snd].
  destruct (awaiting_screen_reshare s && is_active s); reflexivity.
Qed.

(** A stop message, or the end of the connection, while the timeout task
    awaits the speech service for the closing notice: the session is
    stopped by the loop, with [auto_ended = false] and without a report, and
    the [stop] of the task finds it stopped. *)
Lemma stop_beside_the_closing_notice e s :
  e = Receive MStop \/ e = LoopExit ->
  awaiting_screen_reshare s = true -> is_active s = true ->
  is_stopped s = false ->
  let s' := timeout_beside W [e] s in
  is_stopped s' = true
  /\ effects_of_kind KStopping (trace s')
     = EStopping false :: effects_of_kind KStopping (trace s)
  /\ effects_of_kind KSummary (trace s')
     = effects_of_kind KSummary (trace s).
Proof.
  intros He Hw Ha Hs. unfold timeout_beside, run. cbn [fold_left].
  destruct (checker_wakes_up_awaits s Hw Ha) as [answer ->].
  set (s1 := exec (checker_wakes_up W) s).
  assert (H1 : acts [F_is_ai_speaking; F_ticks; F_trace] [KSend; KTts] s s1)
    by apply checker_wakes_up_acts.
  assert (Ha1 : is_active s1 = true)
    by now rewrite (acts_field _ _ _ _ F_is_active H1 eq_refl).
  assert (Hs1 : is_stopped s1 = false)
    by now rewrite (acts_field _ _ _ _ F_is_stopped H1 eq_refl).
  assert (E : exec (step W e) s1 = exec (stop W false false) s1)
    by (destruct He as [-> | ->]; reflexivity).
  rewrite E. set (s2 := exec (stop W false false) s1).
  destruct (stop_effect false false s1 Ha1 Hs1) as (_ & E2 & _ & _ & E5).
  pose proof (stop_summaries false false s1 Ha1 Hs1) as E6.
  fold s2 in E2, E5, E6. cbn [reports_of andb app] in E6.
  rewrite (acts_effects_of_kind _ _ _ _ KStopping H1 eq_refl) in E5.
  rewrite (acts_effects_of_kind _ _ _ _ KSummary H1 eq_refl) in E6.
  unfold checker_resumes. rewrite exec_bind.
  set (s3 := exec (speak_response_answered W answer) s2).
  assert (H3 : acts [F_is_ai_speaking; F_ticks; F_trace] [KSend] s2 s3)
    by apply speak_response_answered_acts.
  assert (Hs3 : is_stopped s3 = true)
    by now rewrite (acts_field _ _ _ _ F_is_stopped H3 eq_refl).
  rewrite stop_noop; [|rewrite Hs3; apply orb_true_r].
  rewrite (acts_effects_of_kind _ _ _ _ KStopping H3 eq_refl),
    (acts_effects_of_kind _ _ _ _ KSummary H3 eq_refl).
  auto.
Qed.

(** ** The transcription buffer *)

(** What one audio message does: either the transcription service is not
    called, and [last_transcript_time] is as it was or the time of a flush
    that came at least three seconds after it; or the service is called
    once, with at least 16000 bytes, in a flush that came at least three
    seconds after [last_transcript_time]. *)
Lemma handle_audio_chunk_spec a e r s :
  wp (handle_audio_chunk W a e r)
    (fun _ s' =>
       (effects_of_kind KTranscribe (trace s')
        = effects_of_kind KTranscribe (trace s)
        /\ (last_transcript_time s' = last_transcript_time s
            \/ (last_transcript_time s' = clock W (S (ticks s))
                /\ (3 <= clock W (ticks s) - last_transcript_time s)%Q)))
       \/ (exists call : Effect,
             effects_of_kind KTranscribe (trace s')
             = call :: effects_of_kind KTranscribe (trace s)
             /\ audible call
             /\ last_transcript_time s' = clock W (S (ticks s))
             /\ (3 <= clock W (ticks s) - last_transcript_time s)%Q))
    s.
Proof.
  unfold handle_audio_chunk, process_accumulated_audio,
    transcribe_audio_chunk.
  wp_run.
  all: repeat
         match goal with
         | H : _ && _ = true |- _ => apply andb_true_iff in H as [? ?]
         | H : Qgeb _ _ = true |- _ => apply Qgeb_ge in H
         | H : (_ <? _)%Z = false |- _ => apply Z.ltb_ge in H
         | H : acts _ _ _ _ |- _ =>
             rewrite (acts_effects_of_kind _ _ _ _ KTranscribe H eq_refl);
             acts_read H F_last_transcript_time; clear H
         end.
  all: session_simpl; kinds_simpl.
  all: first
         [ left; split;
           [ reflexivity
           | first [left; reflexivity | right; split; [reflexivity|assumption]] ]
         | right; eexists; split; [reflexivity|];
           split; [do 3 eexists; split; [reflexivity|assumption]|];
           split; [reflexivity|assumption] ].
Qed.

Section MonotoneClock.

Hypothesis clock_mono : forall i j : nat, i <= j -> (clock W i <= clock W j)%Q.

(** One audio message, with the clock not running backwards: without a
    call [last_transcript_time] does not decrease; with a call it increases
    by three seconds or more. *)
Lemma handle_audio_chunk_flush a e r s :
  let s' := exec (handle_audio_chunk W a e r) s in
  (transcriptions s' = transcriptions s
   /\ effects_of_kind KTranscribe (trace s')
      = effects_of_kind KTranscribe (trace s)
   /\ (last_transcript_time s <= last_transcript_time s')%Q)
  \/ (exists call : Effect,
        effects_of_kind KTranscribe (trace s')
        = call :: effects_of_kind KTranscribe (trace s)
        /\ audible call
        /\ transcriptions s' = S (transcriptions s)
        /\ (last_transcript_time s + 3 <= last_transcript_time s')%Q).
Proof using clock_mono.
  intros s'. subst s'.
  pose proof (handle_audio_chunk_spec a e r s) as H. unfold wp in H.
  pose proof (clock_mono (ticks s) (S (ticks s)) (Nat.le_succ_diag_r _)) as Hc.
  unfold transcriptions.
  destruct H as [[Ht Hl]|(call & Ht & Ha & Hl & Hw)].
  - left. rewrite Ht. repeat split.
    destruct Hl as [->|[-> Hw]]; lra.
  - right. exists call. rewrite Ht, Hl. repeat split; [exact Ha|lra].
Qed.

Lemma flush_times_spaced chunks s :
  spaced 3 (flush_times W chunks s)
  /\ (forall t, head (flush_times W chunks s) = Some t ->
        (last_transcript_time s + 3 <= t)%Q).
Proof using clock_mono.
  revert s. induction chunks as [|[[a e] r] rest IH]; intros s.
  - split; [exact I|discriminate].
  - cbn [flush_times].
    set (s' := exec (handle_audio_chunk W a e r) s).
    destruct (IH s') as [Hsp Hhd].
    destruct (handle_audio_chunk_flush a e r s)
      as [(Hn & _ & Hl)|(call & _ & _ & Hn & Hl)];
      fold s' in Hn, Hl; rewrite Hn.
    + rewrite Nat.ltb_irrefl. split; [exact Hsp|].
      intros t Ht. specialize (Hhd t Ht). lra.
    + replace (transcriptions s <? S (transcriptions s)) with true
        by (symmetry; apply Nat.ltb_lt; lia).
      split.
      * destruct (flush_times W rest s') as [|t2 ts] eqn:E; [exact I|].
        split; [apply Hhd; reflexivity|exact Hsp].
      * intros t Ht. injection Ht as <-. exact Hl.
Qed.

Lemma feed_audible chunks s :
  exists new : list Effect,
    effects_of_kind KTranscribe (trace (feed W chunks s))
    = new ++ effects_of_kind KTranscribe (trace s)
    /\ Forall audible new.
Proof using clock_mono.
  revert s. induction chunks as [|[[a e] r] rest IH]; intros s.
  - exists []. split; [reflexivity|constructor].
  - cbn [feed fold_left].
    set (s' := exec (handle_audio_chunk W a e r) s).
    destruct (IH s') as (new & Hn & Hf). unfold feed in Hn. rewrite Hn.
    destruct (handle_audio_chunk_flush a e r s)
      as [(_ & Ht & _)|(call & Ht & Ha & _)]; fold s' in Ht; rewrite Ht.
    + exists new. split; [reflexivity|exact Hf].
    + exists (new ++ [call]). split; [now rewrite <- app_assoc|].
      apply Forall_app. split; [exact Hf|]. constructor; [exact Ha|constructor].
Qed.

End MonotoneClock.

(** A drained buffer of less than 16000 bytes is dropped: nothing is sent
    anywhere, and the accumulated text is as it was. *)
Lemma process_accumulated_audio_discards s :
  audio_chunks s <> [] ->
  (Z.of_nat (length (concat (audio_chunks s))) < 16000)%Z ->
  let s' := exec (process_accumulated_audio W) s in
  audio_chunks s' = [] /\ trace s' = trace s
  /\ accumulated_transcript s' = accumulated_transcript s
  /\ last_transcript_time s' = clock W (ticks s).
Proof.
  intros Hne Hlt s'. subst s'.
  change (wp (process_accumulated_audio W)
            (fun _ s' =>
               audio_chunks s' = [] /\ trace s' = trace s
               /\ accumulated_transcript s' = accumulated_transcript s
               /\ last_transcript_time s' = clock W (ticks s)) s).
  unfold process_accumulated_audio. wp_upto_branch.
  destruct (audio_chunks s) as [|c cs] eqn:E; [congruence|].
  wp_upto_branch. apply Z.ltb_lt in Hlt. rewrite Hlt.
  wp_step. repeat split; reflexivity.
Qed.

(** C5: while a sequence of audio messages is handled, with a clock that
    does not run backwards, the flushes that call the transcription service
    are at least three seconds apart; every call passes at least 16000
    bytes, so never an empty buffer; one message leads to at most one call;
    and a drained buffer of less than 16000 bytes is dropped without a
    call. *)
Theorem C5_transcription_flushes
    (clock_mono : forall i j : nat, i <= j -> (clock W i <= clock W j)%Q)
    (chunks : list AudioMessage) (s : Session) :
  spaced 3 (flush_times W chunks s)
  /\ (exists new : list Effect,
        effects_of_kind KTranscribe (trace (feed W chunks s))
        = new ++ effects_of_kind KTranscribe (trace s)
        /\ Forall audible new)
  /\ (forall data encoding sample_rate s0,
        transcriptions (exec (handle_audio_chunk W data encoding sample_rate) s0)
        <= S (transcriptions s0))
  /\ (forall s0,
        audio_chunks s0 <> [] ->
        (Z.of_nat (length (concat (audio_chunks s0))) < 16000)%Z ->
        let s1 := exec (process_accumulated_audio W) s0 in
        audio_chunks s1 = [] /\ trace s1 = trace s0
        /\ accumulated_transcript s1 = accumulated_transcript s0).
Proof.
  split; [apply (flush_times_spaced clock_mono)|].
  split; [apply (feed_audible clock_mono)|]. split.
  - intros a e r s0.
    destruct (handle_audio_chunk_flush clock_mono a e r s0)
      as [(Hn & _)|(call & _ & _ & Hn & _)]; rewrite Hn; lia.
  - intros s0 Hne Hlt s1.
    destruct (process_accumulated_audio_discards s0 Hne Hlt)
      as (H1 & H2 & H3 & _).
    auto.
Qed.

(** ** Finalization *)

(** A text with a word in it is not blank. *)
Lemma split_from_blank w s :
  nonempty (lstrip s) = false ->
  split_from w s = if nonempty w then [w] else [].
Proof.
  revert w. induction s as [|c r IH]; intros w H; [reflexivity|].
  cbn [lstrip split_from] in *. destruct (is_space c).
  - rewrite (IH EmptyString H). reflexivity.
  - discriminate H.
Qed.

Lemma lstrip_head s c r : lstrip s = String c r -> is_space c = false.
Proof.
  induction s as [|c' r' IH]; cbn [lstrip]; [discriminate|].
  destruct (is_space c') eqn:E; [exact IH|].
  intros H. injection H as <- _. exact E.
Qed.

Lemma split_strip s : split s <> [] -> nonempty (strip s) = true.
Proof.
  intros H. unfold strip.
  destruct (lstrip s) as [|c r] eqn:E.
  - exfalso. apply H. unfold split.
    rewrite split_from_blank; [reflexivity|now rewrite E].
  - apply lstrip_head in E. cbn [rstrip]. now rewrite E.
Qed.

(** With nothing accumulated, [finalize_transcript] does nothing. *)
Lemma finalize_transcript_blank s :
  nonempty (strip (accumulated_transcript s)) = false ->
  exec (finalize_transcript W) s = s.
Proof.
  intros H.
  change (wp (finalize_transcript W) (fun _ s' => s' = s) s).
  unfold finalize_transcript. wp_upto_branch. rewrite H. cbn [negb].
  wp_step. reflexivity.
Qed.

(** [finalize_transcript] on a text that is not blank: the accumulator is
    cleared and [transcript_final] sent, and then [generate_response] runs
    on the text. *)
Lemma finalize_transcript_fires s :
  nonempty (strip (accumulated_transcript s)) = true ->
  let text := strip (accumulated_transcript s) in
  let s0 :=
    set_trace
      (ESend "transcript_final" (PDict [("text"%string, VStr text)])
         (clock W (ticks s)) :: trace s)
      (set_ticks (S (ticks s)) (set_accumulated_transcript EmptyString s)) in
  exec (finalize_transcript W) s = exec (generate_response W text) s0.
Proof.
  intros H text s0.
  change (wp (finalize_transcript W)
            (fun _ s' => s' = exec (generate_response W text) s0) s).
  unfold finalize_transcript. wp_upto_branch. rewrite H. cbn [negb].
  repeat wp_step_with ltac:(apply wp_exec).
  destruct Hspec as [_ ->]. reflexivity.
Qed.

(** [generate_response] calls the evaluation service at most once, on the
    transcript it is given. *)
Lemma generate_response_evaluates tr s :
  let s' := exec (generate_response W tr) s in
  effects_of_kind KEvaluate (trace s') = effects_of_kind KEvaluate (trace s)
  \/ exists ctx hist,
       effects_of_kind KEvaluate (trace s')
       = EEvaluate tr ctx hist :: effects_of_kind KEvaluate (trace s).
Proof.
  intros s'. subst s'.
  change (wp (generate_response W tr)
            (fun _ s' =>
               effects_of_kind KEvaluate (trace s')
               = effects_of_kind KEvaluate (trace s)
               \/ exists ctx hist,
                    effects_of_kind KEvaluate (trace s')
                    = EEvaluate tr ctx hist
                      :: effects_of_kind KEvaluate (trace s)) s).
  unfold generate_response. wp_run.
  all: try rewrite (acts_effects_of_kind _ _ _ _ KEvaluate Hacts eq_refl).
  all: session_simpl; kinds_simpl.
  all: first [left; reflexivity | right; do 2 eexists; reflexivity].
Qed.

Lemma accumulate_unfold text s :
  let s1 :=
    set_accumulated_transcript
      (accumulated_transcript s +:+ " " +:+ text)
      (set_trace
         (ESend "transcript_interim" (PDict [("text"%string, VStr text)])
            (clock W (ticks s)) :: trace s)
         (set_ticks (S (ticks s)) s)) in
  exec (accumulate W text) s
  = if 8 <=? length (split (accumulated_transcript s +:+ " " +:+ text))
    then exec (finalize_transcript W) s1 else s1.
Proof.
  intros s1.
  match goal with
  | |- _ = ?rhs => change (wp (accumulate W text) (fun _ s' => s' = rhs) s)
  end.
  unfold accumulate. wp_upto_branch.
  destruct (8 <=? _).
  - repeat wp_step_with ltac:(apply wp_exec).
    destruct Hspec as [_ ->]. reflexivity.
  - wp_step. reflexivity.
Qed.


(** ** The life of a session *)

(** X1: in every state a started session reaches, a session that awaits the
    screen share is active, is not stopped and holds the time of the loss;
    and an active session is not stopped. *)
Theorem awaiting_session_is_active
    (sid : string) (thr mi : Q) (es : list Event) :
  let s := run W es (started_session W sid thr mi) in
  (awaiting_screen_reshare s = true ->
   is_active s = true /\ is_stopped s = false
   /\ exists t : Q, screen_share_lost_time s = Some t)
  /\ (is_active s = true -> is_stopped s = false).
Proof.
  intros s. destruct (reachable_consistent sid thr mi es) as [H1 H2].
  fold s in H1, H2. split; [|exact H1].
  intros Hw. destruct (H2 Hw) as [Ha Ht]. auto.
Qed.

Lemma stopped_once_of_acts {A} ws ks (m : M A) :
  always (acts ws ks) m ->
  writes F_is_active ws = false -> writes F_is_stopped ws = false ->
  does KStopping ks = false ->
  always (keeps stopped_once) m.
Proof.
  intros H H1 H2 H3 s. specialize (H s).
  pose proof (acts_field _ _ _ _ F_is_active H H1) as E1.
  pose proof (acts_field _ _ _ _ F_is_stopped H H2) as E2.
  cbn in E1, E2. unfold keeps, stopped_once.
  now rewrite E1, E2, (acts_effects_of_kind _ _ _ _ KStopping H H3).
Qed.

Lemma stop_stopped_once a g : always (keeps stopped_once) (stop W a g).
Proof.
  intros s [Ha Hl].
  destruct (negb (is_active s) || is_stopped s) eqn:E.
  - rewrite stop_noop by exact E. split; assumption.
  - apply orb_false_iff in E as [Ea Es]. apply negb_false_iff in Ea.
    destruct (stop_effect a g s Ea Es) as (E1 & E2 & _ & _ & E5).
    rewrite Es in Hl. split.
    + rewrite E1, E2. reflexivity.
    + rewrite E5, E2. cbn [length]. now rewrite Hl.
Qed.

Create HintDb once discriminated.
#[local] Hint Resolve stop_stopped_once : once.

Ltac once_leaf :=
  idtac;
  lazymatch goal with
  | |- always _ (modify _) =>
      let s := fresh "s" in
      intros s; unfold keeps, stopped_once; session_simpl; tauto
  | |- always _ _ =>
      first
        [ solve [eauto 2 with once]
        | eapply stopped_once_of_acts;
          [solve [eauto 2 with footprint] | reflexivity..] ]
  end.

Ltac once_body := always_body keeps_preorder once_leaf.

Lemma screen_share_timeout_checker_stopped_once :
  always (keeps stopped_once) (_screen_share_timeout_checker W).
Proof. unfold _screen_share_timeout_checker. once_body. Qed.
#[local] Hint Resolve screen_share_timeout_checker_stopped_once : once.

Lemma step_stopped_once e : always (keeps stopped_once) (step W e).
Proof.
  destruct e as [m| | |]; [destruct m|..]; cbn [step dispatch]; once_body.
Qed.

Lemma started_session_active sid thr mi :
  is_active (started_session W sid thr mi) = true.
Proof.
  unfold started_session.
  change (wp (start W) (fun _ s' => is_active s' = true)
            (new_session W sid thr mi)).
  unfold start. wp_run. acts_read Hacts F_is_active. reflexivity.
Qed.

Lemma started_session_stopped_once sid thr mi :
  stopped_once (started_session W sid thr mi).
Proof.
  split.
  - rewrite started_session_active.
    destruct (started_session_consistent sid thr mi) as [H _].
    rewrite H; [reflexivity|apply started_session_active].
  - destruct (started_session_consistent sid thr mi) as [H _].
    rewrite (H (started_session_active sid thr mi)).
    pose proof (reachable_unstopped_log sid thr mi []) as Hl.
    cbn [run fold_left] in Hl. unfold unstopped_log in Hl.
    rewrite Hl; [reflexivity|].
    apply H, started_session_active.
Qed.

Lemma reachable_stopped_once sid thr mi es :
  stopped_once (run W es (started_session W sid thr mi)).
Proof.
  induction es as [|e es IH] using rev_ind.
  - apply started_session_stopped_once.
  - rewrite run_snoc. now apply step_stopped_once.
Qed.

(** X2: in every state a started session reaches, the session is active
    exactly if it is not stopped, and its log holds one stop if it is
    stopped and none otherwise; when the websocket loop is left, the
    [finally] clause leaves the session inactive and stopped, with one stop
    in the log. *)
Theorem session_is_stopped_exactly_once
    (sid : string) (thr mi : Q) (es : list Event) :
  let s := run W es (started_session W sid thr mi) in
  let s' := exec (step W LoopExit) s in
  is_active s = negb (is_stopped s)
  /\ length (effects_of_kind KStopping (trace s))
     = (if is_stopped s then 1 else 0)
  /\ is_active s' = false /\ is_stopped s' = true
  /\ length (effects_of_kind KStopping (trace s')) = 1.
Proof.
  intros s s'.
  destruct (reachable_stopped_once sid thr mi es) as [Ha Hl].
  fold s in Ha, Hl. split; [exact Ha|]. split; [exact Hl|].
  destruct (reachable_stopped_once sid thr mi (es ++ [LoopExit]))
    as [Ha' Hl'].
  rewrite run_snoc in Ha', Hl'. fold s s' in Ha', Hl'.
  assert (Hs' : is_stopped s' = true).
  { subst s'. cbn [step].
    destruct (is_stopped s) eqn:Es.
    - rewrite stop_noop; [exact Es|]. rewrite Es. apply orb_true_r.
    - cbn in Ha.
      now destruct (stop_effect false false s Ha Es) as (_ & E2 & _). }
  rewrite Hs' in Ha', Hl'. auto.
Qed.

(** *** A stopped session *)

Lemma handle_audio_chunk_inactive a e r s :
  is_active s = false -> exec (handle_audio_chunk W a e r) s = s.
Proof.
  intros H.
  change (wp (handle_audio_chunk W a e r) (fun _ s' => s' = s) s).
  unfold handle_audio_chunk. wp_upto_branch. rewrite H. cbn [negb].
  wp_step. reflexivity.
Qed.

Lemma handle_video_frame_inactive d s :
  is_active s = false -> exec (handle_video_frame W d) s = s.
Proof.
  intros H.
  change (wp (handle_video_frame W d) (fun _ s' => s' = s) s).
  unfold handle_video_frame. wp_upto_branch. rewrite H. cbn [negb].
  wp_step. reflexivity.
Qed.

Lemma handle_screen_share_lost_noop s :
  negb (is_active s) || awaiting_screen_reshare s = true ->
  exec (handle_screen_share_lost W) s = s.
Proof.
  intros H.
  change (wp (handle_screen_share_lost W) (fun _ s' => s' = s) s).
  unfold handle_screen_share_lost. wp_upto_branch. rewrite H.
  wp_step. reflexivity.
Qed.

Lemma handle_screen_share_restored_noop s :
  awaiting_screen_reshare s = false ->
  exec (handle_screen_share_restored W) s = s.
Proof.
  intros H.
  change (wp (handle_screen_share_restored W) (fun _ s' => s' = s) s).
  unfold handle_screen_share_restored. wp_upto_branch. rewrite H.
  cbn [negb]. wp_step. reflexivity.
Qed.

Lemma frozen_refl s : frozen s s.
Proof. intros _ _. apply acts_refl. Qed.

Lemma frozen_trans s1 s2 s3 : frozen s1 s2 -> frozen s2 s3 -> frozen s1 s3.
Proof.
  intros H12 H23 Ha Hw. specialize (H12 Ha Hw).
  eapply acts_trans; [exact H12|]. apply H23.
  - rewrite <- Ha. exact (acts_field _ _ _ _ F_is_active H12 eq_refl).
  - rewrite <- Hw.
    exact (acts_field _ _ _ _ F_awaiting_screen_reshare H12 eq_refl).
Qed.

Lemma frozen_of_acts {A} ws ks (m : M A) :
  always (acts ws ks) m ->
  forallb
    (fun f =>
       writes f [F_screen_share_active; F_is_ai_speaking; F_ticks; F_trace])
    ws = true ->
  forallb (fun k => does k [KSend; KSummary; KSave; KPdf]) ks = true ->
  always frozen m.
Proof.
  intros H Hws Hks s _ _. eapply acts_weaken; [apply H|assumption..].
Qed.

Lemma dispatch_frozen m : always frozen (dispatch W m).
Proof.
  destruct m; cbn [dispatch]; intros s Ha Hw.
  - rewrite handle_audio_chunk_inactive by exact Ha. apply acts_refl.
  - change (wp (dispatch W (MVideo data))
              (fun _ s' =>
                 acts
                   [F_screen_share_active; F_is_ai_speaking; F_ticks; F_trace]
                   [KSend; KSummary; KSave; KPdf] s s') s).
    cbn [dispatch]. wp_upto_branch. rewrite Hw.
    repeat wp_step_with ltac:(apply wp_exec).
    destruct Hspec as [_ ->].
    rewrite handle_video_frame_inactive by exact Ha.
    split.
    + intros f Hf. destruct f;
        first [reflexivity | cbv in Hf; discriminate Hf].
    + exists []. split; reflexivity.
  - rewrite handle_screen_share_lost_noop; [apply acts_refl|].
    now rewrite Ha.
  - rewrite handle_screen_share_restored_noop by exact Hw. apply acts_refl.
  - eapply acts_weaken;
      [apply generate_report_on_demand_acts|reflexivity..].
  - rewrite stop_noop; [apply acts_refl|]. now rewrite Ha.
  - revert s Ha Hw. change (always frozen (dispatch W MUserSpeaking)).
    cbn [dispatch].
    apply (frozen_of_acts [F_is_ai_speaking; F_ticks; F_trace] [KSend]);
      [|reflexivity..].
    acts_body.
  - apply acts_refl.
Qed.

Lemma step_frozen e : always frozen (step W e).
Proof.
  destruct e; cbn [step].
  - apply dispatch_frozen.
  - eapply frozen_of_acts; [apply send_event_acts|reflexivity..].
  - intros s Ha _. rewrite screen_share_timeout_checker_noop by exact Ha.
    apply acts_refl.
  - intros s Ha _. rewrite stop_noop; [apply acts_refl|]. now rewrite Ha.
Qed.

Lemma run_frozen es s : frozen s (run W es s).
Proof.
  induction es as [|e es IH] using rev_ind.
  - apply frozen_refl.
  - rewrite run_snoc. eapply frozen_trans; [exact IH|]. apply step_frozen.
Qed.


(** *** Invariants through the handlers *)

(** The body of a handler in place of its name. *)
Ltac unfold_handler :=
  lazymatch goal with
  | |- always _ (update_history _ _ _) => unfold update_history
  | |- always _ (send_and_speak _ _) => unfold send_and_speak
  | |- always _ (record_and_respond _ _ _) => unfold record_and_respond
  | |- always _ (generate_response _ _) => unfold generate_response
  | |- always _ (finalize_transcript _) => unfold finalize_transcript
  | |- always _ (accumulate _ _) => unfold accumulate
  | |- always _ (process_accumulated_audio _) =>
      unfold process_accumulated_audio
  | |- always _ (handle_audio_chunk _ _ _ _) => unfold handle_audio_chunk
  | |- always _ (handle_video_frame _ _) => unfold handle_video_frame
  | |- always _ (flush_and_report _ _) => unfold flush_and_report
  | |- always _ (stop _ _ _) => unfold stop
  | |- always _ (_screen_share_timeout_checker _) =>
      unfold _screen_share_timeout_checker
  | |- always _ (dispatch _ ?m) => destruct m; cbn [dispatch]
  | |- always _ (step _ ?e) => destruct e; cbn [step]
  end.

(** As [always_body], through the handlers the coroutine calls, and with
    the condition of each branch at hand. *)
Ltac deep_body preorder leaf :=
  lazymatch goal with
  | |- always _ (bind _ _) =>
      apply always_bind;
      [ preorder
      | deep_body preorder leaf
      | intro; deep_body preorder leaf ]
  | |- always _ (ret _) => apply always_ret; preorder
  | |- always _ (gets _) => apply always_gets; preorder
  | |- always _ (match ?c with _ => _ end) =>
      destruct c eqn:?; deep_body preorder leaf
  | |- always _ (let _ := _ in _) => cbv zeta; deep_body preorder leaf
  | |- always _ _ =>
      first [ leaf | unfold_handler; deep_body preorder leaf ]
  end.

Lemma pending_of_acts {A} ws ks (m : M A) :
  always (acts ws ks) m ->
  writes F_pending_response ws = false ->
  always (keeps pending) m.
Proof.
  intros H H1 s. specialize (H s).
  pose proof (acts_field _ _ _ _ F_pending_response H H1) as E1.
  cbn in E1. unfold keeps, pending. now rewrite E1.
Qed.

Ltac pending_leaf :=
  idtac;
  lazymatch goal with
  | |- always _ (modify _) =>
      let s := fresh "s" in
      intros s; unfold keeps, pending; session_simpl;
      first [tauto | intros _; reflexivity]
  | |- always _ _ =>
      eapply pending_of_acts;
      [solve [eauto 2 with footprint] | reflexivity]
  end.

Lemma step_pending e : always (keeps pending) (step W e).
Proof. deep_body keeps_preorder pending_leaf. Qed.

Lemma run_pending es s : pending s -> pending (run W es s).
Proof.
  induction es as [|e es IH] using rev_ind; [auto|].
  intros H. rewrite run_snoc. apply step_pending. auto.
Qed.

(** With a response pending, an evaluation that says to proceed, and sees
    no question of the presenter, is dropped. *)
Lemma generate_response_proceed_dropped tr ev s :
  pending_response s = true ->
  brain_evaluate W (S (S (ticks s))) tr (screen_context s) (history s)
  = Ok ev ->
  truthy (get ev "presenter_asked_question") = false ->
  eq_str (get ev "response_type") "proceed" = true ->
  let s' := exec (generate_response W tr) s in
  history s' = history s
  /\ effects_of_kind KTts (trace s') = effects_of_kind KTts (trace s).
Proof.
  intros Hp Hev Hq Hpr s'. subst s'.
  change (wp (generate_response W tr)
            (fun _ s' =>
               history s' = history s
               /\ effects_of_kind KTts (trace s')
                  = effects_of_kind KTts (trace s)) s).
  unfold generate_response. wp_upto_branch.
  destruct (_ && _); [wp_step; split; reflexivity|].
  wp_upto_branch. rewrite Hev. wp_upto_branch. rewrite Hq, Hpr, Hp.
  cbn [andb]. wp_run. split; reflexivity.
Qed.

(** X4: once the interviewer has spoken a response to a transcript,
    [pending_response] stays set whatever happens to the session; so from
    then on every evaluation that says to proceed, without a question of the
    presenter, is dropped: no turn is recorded and nothing is spoken. *)
Theorem pending_response_is_never_reset (s : Session) :
  pending_response s = true ->
  forall es : list Event,
    let s1 := run W es s in
    pending_response s1 = true
    /\ forall (tr : string) (ev : gmap string PyVal),
         brain_evaluate W (S (S (ticks s1))) tr (screen_context s1)
           (history s1) = Ok ev ->
         truthy (get ev "presenter_asked_question") = false ->
         eq_str (get ev "response_type") "proceed" = true ->
         let s2 := exec (generate_response W tr) s1 in
         history s2 = history s1
         /\ effects_of_kind KTts (trace s2) = effects_of_kind KTts (trace s1).
Proof.
  intros Hp es s1.
  assert (H1 : pending_response s1 = true) by exact (run_pending es s Hp).
  split; [exact H1|].
  intros tr ev. apply generate_response_proceed_dropped. exact H1.
Qed.

(** *** The screen contexts *)

Lemma contexts_grow_same s s' :
  screen_contexts s' = screen_contexts s ->
  screen_context s' = screen_context s ->
  contexts_grow s s'.
Proof.
  intros H1 H2. split.
  - unfold contexts_ok. rewrite H1, H2. tauto.
  - rewrite H1. reflexivity.
Qed.

Lemma contexts_grow_refl s : contexts_grow s s.
Proof. now apply contexts_grow_same. Qed.

Lemma contexts_grow_trans s1 s2 s3 :
  contexts_grow s1 s2 -> contexts_grow s2 s3 -> contexts_grow s1 s3.
Proof.
  intros [N12 P12] [N23 P23]. split; [tauto|]. etrans; eassumption.
Qed.

Lemma contexts_grow_of_acts {A} ws ks (m : M A) :
  always (acts ws ks) m ->
  writes F_screen_contexts ws = false -> writes F_screen_context ws = false ->
  always contexts_grow m.
Proof.
  intros H H1 H2 s. apply contexts_grow_same.
  - exact (acts_field _ _ _ _ F_screen_contexts (H s) H1).
  - exact (acts_field _ _ _ _ F_screen_context (H s) H2).
Qed.

(** The one place that writes the screen contexts. *)
Lemma handle_video_frame_contexts d : always contexts_grow (handle_video_frame W d).
Proof.
  apply always_wp. intros s. unfold handle_video_frame.
  wp_run; try (apply contexts_grow_same; reflexivity).
  all: pose proof (acts_field _ _ _ _ F_screen_contexts Hacts eq_refl) as E1.
  all: pose proof (acts_field _ _ _ _ F_screen_context Hacts eq_refl) as E2.
  all: cbn [same_field] in E1, E2.
  all: try (apply contexts_grow_same; assumption).
  apply andb_true_iff in Heqb0 as [_ Hne].
  split; unfold contexts_ok; session_simpl; rewrite E1.
  - intros [Hall Hlast]. split.
    + apply Forall_app. split; [exact Hall|].
      constructor; [exact Hne|constructor].
    + now rewrite last_snoc.
  - now apply prefix_app_r.
Qed.

Create HintDb contexts discriminated.
#[local] Hint Resolve handle_video_frame_contexts : contexts.

Ltac contexts_preorder :=
  idtac; first [exact contexts_grow_refl | exact contexts_grow_trans].

Ltac contexts_leaf :=
  idtac;
  lazymatch goal with
  | |- always _ (modify _) =>
      let s := fresh "s" in
      intros s; apply contexts_grow_same; reflexivity
  | |- always _ _ =>
      first
        [ solve [eauto 2 with contexts]
        | eapply contexts_grow_of_acts;
          [solve [eauto 2 with footprint] | reflexivity..] ]
  end.

Lemma step_contexts e : always contexts_grow (step W e).
Proof. deep_body contexts_preorder contexts_leaf. Qed.

Lemma run_contexts es s : contexts_grow s (run W es s).
Proof.
  induction es as [|e es IH] using rev_ind.
  - apply contexts_grow_refl.
  - rewrite run_snoc. eapply contexts_grow_trans; [exact IH|].
    apply step_contexts.
Qed.

Lemma started_session_contexts sid thr mi :
  contexts_ok (started_session W sid thr mi).
Proof.
  unfold started_session.
  assert (H : always contexts_grow (start W)).
  { eapply contexts_grow_of_acts; [apply start_acts|reflexivity..]. }
  apply H. split; [constructor|reflexivity].
Qed.

(** X5: in every state a started session reaches, and after every further
    event, none of the screen descriptions kept for the report is empty, the
    current description is the last of them (or empty when there is none),
    and the event has left the descriptions already kept as they were and
    where they were. *)
Theorem screen_contexts_grow_at_the_end
    (sid : string) (thr mi : Q) (es : list Event) (e : Event) :
  let s := run W es (started_session W sid thr mi) in
  let s' := exec (step W e) s in
  Forall (fun c => nonempty c = true) (screen_contexts s')
  /\ screen_context s' = default EmptyString (last (screen_contexts s'))
  /\ screen_contexts s `prefix_of` screen_contexts s'.
Proof.
  intros s s'.
  assert (Hs : contexts_ok s).
  { apply (run_contexts es). apply started_session_contexts. }
  destruct (step_contexts e s) as [Hn Hp]. fold s' in Hn, Hp.
  destruct (Hn Hs) as [H1 H2]. auto.
Qed.

(** *** The recorded turns *)

Lemma rstrip_idem s : rstrip (rstrip s) = rstrip s.
Proof.
  induction s as [|c r IH]; [reflexivity|].
  cbn [rstrip]. destruct (is_space c && negb (nonempty (rstrip r))) eqn:E.
  - reflexivity.
  - cbn [rstrip]. rewrite IH, E. reflexivity.
Qed.

Lemma lstrip_rstrip_lstrip s : lstrip (rstrip (lstrip s)) = rstrip (lstrip s).
Proof.
  destruct (lstrip s) as [|c r] eqn:E; [reflexivity|].
  apply lstrip_head in E. cbn [rstrip]. rewrite E. cbn [andb lstrip].
  now rewrite E.
Qed.

Lemma strip_idem s : strip (strip s) = strip s.
Proof. unfold strip. now rewrite lstrip_rstrip_lstrip, rstrip_idem. Qed.

Lemma take_str_length n s : String.length (take_str n s) <= n.
Proof.
  revert s. induction n as [|n IH]; intros [|c r]; cbn; try lia.
  specialize (IH r). lia.
Qed.

Lemma make_turn_ok sc a ev ctx now :
  negb (nonempty (strip a)) = false ->
  turn_ok (make_turn sc (strip a) ev ctx now).
Proof.
  intros H. apply negb_false_iff in H.
  split; [exact H|]. split; [apply strip_idem|].
  cbn [turn_screen_context make_turn].
  destruct (nonempty ctx); [apply take_str_length|cbn; lia].
Qed.

Lemma turns_ok_of_acts {A} ws ks (m : M A) :
  always (acts ws ks) m ->
  writes F_history ws = false ->
  always (keeps turns_ok) m.
Proof.
  intros H H1 s. specialize (H s).
  pose proof (acts_field _ _ _ _ F_history H H1) as E1.
  cbn in E1. unfold keeps, turns_ok. now rewrite E1.
Qed.

Ltac turns_leaf :=
  idtac;
  lazymatch goal with
  | |- always _ (modify _) =>
      let s := fresh "s" in
      let H := fresh "H" in
      intros s; unfold keeps, turns_ok; session_simpl;
      first
        [ tauto
        | intros H; apply Forall_app; split; [exact H|];
          constructor; [|constructor];
          apply make_turn_ok; assumption ]
  | |- always _ _ =>
      eapply turns_ok_of_acts;
      [solve [eauto 2 with footprint] | reflexivity]
  end.

Lemma step_turns e : always (keeps turns_ok) (step W e).
Proof. deep_body keeps_preorder turns_leaf. Qed.

Lemma reachable_turns_ok sid thr mi es :
  turns_ok (run W es (started_session W sid thr mi)).
Proof.
  induction es as [|e es IH] using rev_ind.
  - unfold run, started_session. cbn [fold_left].
    assert (H : always (keeps turns_ok) (start W)).
    { eapply turns_ok_of_acts; [apply start_acts|reflexivity]. }
    apply H. constructor.
  - rewrite run_snoc. now apply step_turns.
Qed.

(** X6: in every state a started session reaches, every turn of the history
    has a transcript that is not blank and has no white space at either end,
    and a screen context of at most 300 characters. *)
Theorem recorded_turns_are_trimmed
    (sid : string) (thr mi : Q) (es : list Event) :
  Forall
    (fun t : Turn =>
       nonempty (transcript t) = true
       /\ strip (transcript t) = transcript t
       /\ String.length (turn_screen_context t) <= 300)
    (history (run W es (started_session W sid thr mi))).
Proof. exact (reachable_turns_ok sid thr mi es). Qed.

(** *** What a stop leaves behind *)

(** [process_accumulated_audio] empties the audio buffer. *)
Lemma process_accumulated_audio_drains s :
  wp (process_accumulated_audio W)
    (fun _ s' =>
       audio_chunks s' = []
       /\ acts
            [F_audio_chunks; F_last_transcript_time; F_accumulated_transcript;
             F_slide_count; F_history; F_last_question_time;
             F_pending_response; F_is_ai_speaking; F_ticks; F_trace]
            [KFinal; KTranscribe; KSend; KTts; KEvaluate] s s')
    s.
Proof.
  split; [|apply process_accumulated_audio_acts].
  change (wp (process_accumulated_audio W)
            (fun _ s' => audio_chunks s' = []) s).
  unfold process_accumulated_audio. wp_run;
    try acts_read Hacts F_audio_chunks;
    try acts_read Hacts0 F_audio_chunks;
    session_simpl; first [reflexivity | assumption].
Qed.

(** [finalize_transcript] leaves no text to finalize. *)
Lemma finalize_transcript_clears s :
  wp (finalize_transcript W)
    (fun _ s' =>
       strip (accumulated_transcript s') = EmptyString
       /\ acts
            [F_accumulated_transcript; F_slide_count; F_history;
             F_last_question_time; F_pending_response; F_is_ai_speaking;
             F_ticks; F_trace]
            [KFinal; KSend; KTts; KEvaluate] s s')
    s.
Proof.
  split; [|apply finalize_transcript_acts].
  change (wp (finalize_transcript W)
            (fun _ s' => strip (accumulated_transcript s') = EmptyString) s).
  unfold finalize_transcript. wp_run.
  - apply negb_true_iff in Heqb.
    destruct (strip (accumulated_transcript s)); [reflexivity|discriminate].
  - acts_read Hacts F_accumulated_transcript. reflexivity.
Qed.

Lemma flush_and_report_drains a s :
  drained (exec (flush_and_report W a) s).
Proof.
  change (wp (flush_and_report W a) (fun _ s' => drained s') s).
  unfold flush_and_report, drained.
  repeat wp_step_with
    ltac:(first [ apply process_accumulated_audio_drains
                | apply finalize_transcript_clears ]).
  all: cbv beta in *.
  all: repeat
         match goal with
         | H : _ /\ acts _ _ _ _ |- _ => destruct H
         | H : acts _ _ _ _ |- _ =>
             acts_read H F_audio_chunks;
             acts_read H F_accumulated_transcript; clear H
         end.
  all: session_simpl.
  all: repeat
         match goal with
         | H : nonempty ?x = false |- _ =>
             assert (x = EmptyString)
               by (destruct x; [reflexivity|discriminate H]);
             clear H
         end.
  all: split; congruence.
Qed.

Lemma stop_drains a g s :
  is_active s = true -> is_stopped s = false ->
  drained (exec (stop W a g) s).
Proof.
  intros Ha Hs. rewrite (stop_unfold a g s Ha Hs).
  apply flush_and_report_drains.
Qed.

(** An event that stops a session leaves it drained. *)
Lemma step_stopping_drains e s :
  is_active s = negb (is_stopped s) -> is_stopped s = false ->
  is_stopped (exec (step W e) s) = true ->
  drained (exec (step W e) s).
Proof.
  intros Ha Hs. rewrite Hs in Ha. cbn [negb] in Ha.
  assert (Hno : forall ws ks (m : M unit),
             always (acts ws ks) m -> writes F_is_stopped ws = false ->
             is_stopped (exec m s) = true -> drained (exec m s)).
  { intros ws ks m Hm Hw H.
    pose proof (acts_field _ _ _ _ F_is_stopped (Hm s) Hw) as E.
    cbn [same_field] in E. congruence. }
  destruct e as [m| | |]; cbn [step].
  - destruct m; cbn [dispatch];
      try (intros _; now apply stop_drains);
      try (eapply Hno; [solve [eauto 2 with footprint]|reflexivity]).
    + apply (Hno
               [F_screen_share_active; F_screen_share_lost_time;
                F_awaiting_screen_reshare; F_is_ai_speaking; F_vision;
                F_screen_context; F_screen_contexts; F_ticks; F_trace]
               [KSend; KTts; KVision]); [acts_body|reflexivity].
    + apply (Hno [F_is_ai_speaking; F_ticks; F_trace] [KSend]);
        [acts_body|reflexivity].
    + apply (Hno [] []); [acts_body|reflexivity].
  - eapply Hno; [apply send_event_acts|reflexivity].
  - destruct (awaiting_screen_reshare s) eqn:Hw.
    + intros _. rewrite (screen_share_timeout_checker_unfold s Hw Ha).
      set (s1 := exec (send_event W "ai_message" _) s).
      set (s2 := exec (speak_response W closing_message) s1).
      assert (H1 : acts [F_ticks; F_trace] [KSend] s s1)
        by apply send_event_acts.
      assert (H2 : acts [F_is_ai_speaking; F_ticks; F_trace] [KSend; KTts]
                     s1 s2)
        by apply speak_response_acts.
      apply stop_drains.
      * rewrite (acts_field _ _ _ _ F_is_active H2 eq_refl).
        now rewrite (acts_field _ _ _ _ F_is_active H1 eq_refl).
      * rewrite (acts_field _ _ _ _ F_is_stopped H2 eq_refl).
        now rewrite (acts_field _ _ _ _ F_is_stopped H1 eq_refl).
    + intros H. exfalso. revert H.
      assert (E : exec (_screen_share_timeout_checker W) s = s).
      { change (wp (_screen_share_timeout_checker W) (fun _ s' => s' = s) s).
        unfold _screen_share_timeout_checker. wp_upto_branch.
        rewrite Hw. cbn [andb]. wp_step. reflexivity. }
      rewrite E. congruence.
  - intros _. now apply stop_drains.
Qed.

Lemma reachable_stopped_drained sid thr mi es :
  is_stopped (run W es (started_session W sid thr mi)) = true ->
  drained (run W es (started_session W sid thr mi)).
Proof.
  induction es as [|e es IH] using rev_ind.
  - intros H. exfalso.
    destruct (started_session_consistent sid thr mi) as [Hc _].
    cbn [run fold_left] in H.
    rewrite (Hc (started_session_active sid thr mi)) in H. discriminate.
  - rewrite run_snoc.
    set (s := run W es (started_session W sid thr mi)) in *.
    destruct (is_stopped s) eqn:Hs.
    + intros _. specialize (IH eq_refl).
      destruct (reachable_stopped_once sid thr mi es) as [Ha _].
      fold s in Ha. rewrite Hs in Ha. cbn [negb] in Ha.
      destruct (reachable_consistent sid thr mi es) as [_ Hc]. fold s in Hc.
      assert (Hw : awaiting_screen_reshare s = false).
      { destruct (awaiting_screen_reshare s); [|reflexivity].
        destruct (Hc eq_refl) as [Hx _]. congruence. }
      pose proof (step_frozen e s Ha Hw) as H.
      destruct IH as [I1 I2]. split.
      * rewrite <- I1. exact (acts_field _ _ _ _ F_audio_chunks H eq_refl).
      * rewrite <- I2. f_equal.
        exact (acts_field _ _ _ _ F_accumulated_transcript H eq_refl).
    + apply step_stopping_drains; [|exact Hs].
      destruct (reachable_stopped_once sid thr mi es) as [Ha _]. exact Ha.
Qed.


(** *** Reports *)

(** X8: whatever fails while a report is generated (the summary, the saving
    of the record, the PDF), [_generate_and_send_report] sends
    [interview_complete] once, as the last thing it does, with the history
    of the session; [report_ready] is sent, once, exactly if the completion
    carries the address of the report; and the history is left as it is. *)
Theorem report_always_completes (r : InterviewRecord) (s : Session) :
  let s' := exec (_generate_and_send_report W r) s in
  exists (summary : gmap string PyVal) (url : option string) (t : Q),
    let done :=
      ESend "interview_complete"
        (PComplete summary (history s) (session_id s) url) t in
    head (trace s') = Some done
    /\ sent "interview_complete" (trace s')
       = done :: sent "interview_complete" (trace s)
    /\ length (sent "report_ready" (trace s'))
       = length (sent "report_ready" (trace s))
         + match url with Some _ => 1 | None => 0 end
    /\ (url = None \/ url = Some ("/api/reports/" +:+ session_id s)%string)
    /\ history s' = history s.
Proof.
  intros s'. subst s'.
  change (wp (_generate_and_send_report W r)
            (fun _ s' =>
               exists (summary : gmap string PyVal) (url : option string)
                      (t : Q),
                 let done :=
                   ESend "interview_complete"
                     (PComplete summary (history s) (session_id s) url) t in
                 head (trace s') = Some done
                 /\ sent "interview_complete" (trace s')
                    = done :: sent "interview_complete" (trace s)
                 /\ length (sent "report_ready" (trace s'))
                    = length (sent "report_ready" (trace s))
                      + match url with Some _ => 1 | None => 0 end
                 /\ (url = None
                     \/ url = Some ("/api/reports/" +:+ session_id s)%string)
                 /\ history s' = history s) s).
  unfold _generate_and_send_report, report_failed. wp_run.
  all: do 3 eexists; cbv zeta.
  all: split; [reflexivity|].
  all: split; [reflexivity|].
  all: split; [unfold sent;
               cbn [List.filter String.eqb Ascii.eqb Bool.eqb length]; lia|].
  all: split; [first [left; reflexivity | right; reflexivity]|reflexivity].
Qed.

(** X9: asked for a report, a session with an empty history answers at once
    with a completion of score 0, without a call of the summary, storage or
    PDF service; a session with turns asks for one summary, of its history
    and screen contexts as they are; either way nothing of the session but
    the interaction counter and the trace is written. *)
Theorem report_on_demand (s : Session) :
  let s' := exec (generate_report_on_demand W) s in
  (history s = [] ->
   trace s'
   = ESend "interview_complete"
       (PComplete
          (<["overall_score"%string := VInt 0]>
             (<["summary"%string := VStr "No content to evaluate."]> ∅))
          [] (session_id s) None)
       (clock W (ticks s))
     :: trace s)
  /\ (history s <> [] ->
      effects_of_kind KSummary (trace s')
      = ESummary (history s) (screen_contexts s)
        :: effects_of_kind KSummary (trace s))
  /\ acts [F_ticks; F_trace] [KSend; KSummary; KSave; KPdf] s s'.
Proof.
  intros s'. subst s'.
  split; [|split; [|apply generate_report_on_demand_acts]].
  - intros Hh.
    change (wp (generate_report_on_demand W)
              (fun _ s' =>
                 trace s'
                 = ESend "interview_complete"
                     (PComplete
                        (<["overall_score"%string := VInt 0]>
                           (<["summary"%string :=
                                VStr "No content to evaluate."]> ∅))
                        [] (session_id s) None)
                     (clock W (ticks s))
                   :: trace s) s).
    unfold generate_report_on_demand. wp_upto_branch. rewrite Hh.
    wp_run. reflexivity.
  - intros Hh.
    change (wp (generate_report_on_demand W)
              (fun _ s' =>
                 effects_of_kind KSummary (trace s')
                 = ESummary (history s) (screen_contexts s)
                   :: effects_of_kind KSummary (trace s)) s).
    unfold generate_report_on_demand. wp_upto_branch.
    destruct (history s) as [|t h] eqn:E; [congruence|].
    repeat wp_step_with ltac:(apply generate_and_send_report_spec).
    cbv beta in Hspec. session_simpl_in Hspec.
    destruct Hspec as (-> & _). rewrite E. reflexivity.
Qed.

(** *** Speech *)

(** X10: whatever the speech service does (it answers with audio, with no
    audio, or raises), [speak_response] calls it once, with the text, clears
    [is_ai_speaking] and tells the client last that it listens; the audio is
    sent, followed by [audio_end], exactly if the service answered with at
    least one byte. *)
Theorem speak_response_returns_to_listening (text : string) (s : Session) :
  let s' := exec (speak_response W text) s in
  let spoken :=
    match tts_generate_full_audio W (S (ticks s)) text with
    | Ok (_ :: _) => 1
    | _ => 0
    end in
  is_ai_speaking s' = false
  /\ (exists t : Q,
        head (trace s')
        = Some (ESend "status" (PDict [("state"%string, VStr "listening")]) t))
  /\ effects_of_kind KTts (trace s')
     = ETts text :: effects_of_kind KTts (trace s)
  /\ length (sent "audio_chunk" (trace s'))
     = length (sent "audio_chunk" (trace s)) + spoken
  /\ length (sent "audio_end" (trace s'))
     = length (sent "audio_end" (trace s)) + spoken.
Proof.
  intros s' spoken. subst s' spoken.
  change (wp (speak_response W text)
            (fun _ s' =>
               is_ai_speaking s' = false
               /\ (exists t : Q,
                     head (trace s')
                     = Some (ESend "status"
                               (PDict [("state"%string, VStr "listening")]) t))
               /\ effects_of_kind KTts (trace s')
                  = ETts text :: effects_of_kind KTts (trace s)
               /\ length (sent "audio_chunk" (trace s'))
                  = length (sent "audio_chunk" (trace s))
                    + match tts_generate_full_audio W (S (ticks s)) text with
                      | Ok (_ :: _) => 1
                      | _ => 0
                      end
               /\ length (sent "audio_end" (trace s'))
                  = length (sent "audio_end" (trace s))
                    + match tts_generate_full_audio W (S (ticks s)) text with
                      | Ok (_ :: _) => 1
                      | _ => 0
                      end) s).
  unfold speak_response. wp_run.
  all: rewrite ?Heqr, ?Heql.
  all: split; [reflexivity|].
  all: split; [eexists; reflexivity|].
  all: split; [reflexivity|].
  all: unfold sent; cbn [List.filter String.eqb Ascii.eqb Bool.eqb length];
    lia.
Qed.

(** *** Losing and restoring the screen share *)

(** X11: for an active session that does not await the screen share,
    [handle_screen_share_lost] records the time of the loss, awaits the
    share and creates one timeout task; a repeated notification of the loss
    changes nothing and creates no second task;
    [handle_screen_share_restored], or a capture that arrives, ends the
    wait; a repeated notification of the restoration changes nothing; and
    after the round trip the history is as it was. *)
Theorem screen_share_lost_and_restored (d : string) (s : Session) :
  is_active s = true -> awaiting_screen_reshare s = false ->
  let s1 := exec (handle_screen_share_lost W) s in
  let s2 := exec (handle_screen_share_restored W) s1 in
  (awaiting_screen_reshare s1 = true
   /\ screen_share_active s1 = false
   /\ screen_share_lost_time s1 = Some (clock W (ticks s))
   /\ effects_of_kind KCreateTimeoutTask (trace s1)
      = ECreateTimeoutTask :: effects_of_kind KCreateTimeoutTask (trace s))
  /\ exec (handle_screen_share_lost W) s1 = s1
  /\ (awaiting_screen_reshare s2 = false
      /\ screen_share_active s2 = true
      /\ screen_share_lost_time s2 = None
      /\ effects_of_kind KCreateTimeoutTask (trace s2)
         = effects_of_kind KCreateTimeoutTask (trace s1))
  /\ exec (handle_screen_share_restored W) s2 = s2
  /\ (let s3 := exec (dispatch W (MVideo d)) s1 in
      awaiting_screen_reshare s3 = false /\ screen_share_active s3 = true
      /\ screen_share_lost_time s3 = None)
  /\ history s2 = history s /\ is_active s2 = true.
Proof.
  intros Ha Hw s1 s2.
  assert (H1 : awaiting_screen_reshare s1 = true
               /\ screen_share_active s1 = false
               /\ screen_share_lost_time s1 = Some (clock W (ticks s))
               /\ effects_of_kind KCreateTimeoutTask (trace s1)
                  = ECreateTimeoutTask
                    :: effects_of_kind KCreateTimeoutTask (trace s)).
  { subst s1.
    change (wp (handle_screen_share_lost W)
              (fun _ s' =>
                 awaiting_screen_reshare s' = true
                 /\ screen_share_active s' = false
                 /\ screen_share_lost_time s' = Some (clock W (ticks s))
                 /\ effects_of_kind KCreateTimeoutTask (trace s')
                    = ECreateTimeoutTask
                      :: effects_of_kind KCreateTimeoutTask (trace s)) s).
    unfold handle_screen_share_lost. wp_upto_branch. rewrite Ha, Hw.
    cbn [negb orb]. wp_run.
    acts_read Hacts F_awaiting_screen_reshare.
    acts_read Hacts F_screen_share_active.
    acts_read Hacts F_screen_share_lost_time.
    pose proof (acts_effects_of_kind _ _ _ _ KCreateTimeoutTask Hacts eq_refl)
      as Ek.
    session_simpl_in Ek.
    unfold effects_of_kind in Ek |- *.
    cbn [List.filter kind kind_index Nat.eqb String.eqb Ascii.eqb Bool.eqb]
      in Ek |- *.
    rewrite Ek. repeat split; reflexivity. }
  destruct H1 as (A1 & A2 & A3 & A4).
  assert (H2 : awaiting_screen_reshare s2 = false
               /\ screen_share_active s2 = true
               /\ screen_share_lost_time s2 = None
               /\ effects_of_kind KCreateTimeoutTask (trace s2)
                  = effects_of_kind KCreateTimeoutTask (trace s1)).
  { subst s2.
    change (wp (handle_screen_share_restored W)
              (fun _ s' =>
                 awaiting_screen_reshare s' = false
                 /\ screen_share_active s' = true
                 /\ screen_share_lost_time s' = None
                 /\ effects_of_kind KCreateTimeoutTask (trace s')
                    = effects_of_kind KCreateTimeoutTask (trace s1)) s1).
    unfold handle_screen_share_restored. wp_upto_branch. rewrite A1.
    cbn [negb]. wp_run.
    acts_read Hacts F_awaiting_screen_reshare.
    acts_read Hacts F_screen_share_active.
    acts_read Hacts F_screen_share_lost_time.
    rewrite (acts_effects_of_kind _ _ _ _ KCreateTimeoutTask Hacts eq_refl).
    session_simpl. kinds_simpl. repeat split; reflexivity. }
  destruct H2 as (B1 & B2 & B3 & B4).
  split; [auto|].
  split; [apply handle_screen_share_lost_noop; rewrite A1; apply orb_true_r|].
  split; [auto|].
  split; [now apply handle_screen_share_restored_noop|].
  split.
  - cbv zeta.
    change (wp (dispatch W (MVideo d))
              (fun _ s' =>
                 awaiting_screen_reshare s' = false
                 /\ screen_share_active s' = true
                 /\ screen_share_lost_time s' = None) s1).
    cbn [dispatch]. wp_upto_branch. rewrite A1.
    repeat wp_step_with ltac:(apply wp_exec).
    destruct Hspec0 as [_ ->]. cbv beta in Hspec.
    destruct Hspec as [_ ->].
    match goal with
    | |- context [exec (handle_video_frame W d) ?x] =>
        pose proof (handle_video_frame_acts d x) as V
    end.
    rewrite (acts_field _ _ _ _ F_awaiting_screen_reshare V eq_refl).
    rewrite (acts_field _ _ _ _ F_screen_share_active V eq_refl).
    rewrite (acts_field _ _ _ _ F_screen_share_lost_time V eq_refl).
    session_simpl. split; [exact B1|]. split; [reflexivity|exact B3].
  - pose proof (handle_screen_share_lost_acts s) as L. fold s1 in L.
    pose proof (handle_screen_share_restored_acts s1) as R. fold s2 in R.
    split.
    + rewrite (acts_field _ _ _ _ F_history R eq_refl).
      exact (acts_field _ _ _ _ F_history L eq_refl).
    + rewrite (acts_field _ _ _ _ F_is_active R eq_refl).
      rewrite (acts_field _ _ _ _ F_is_active L eq_refl). exact Ha.
Qed.

(** *** The cooldown of the vision endpoint *)

Lemma cooled_refl s : cooled s s.
Proof. split; [reflexivity|]. left. split; reflexivity. Qed.

(** A coroutine that neither writes the vision state nor calls the vision
    endpoint, before or after one that keeps the cooldown. *)
Lemma cooled_after ws ks s s0 s1 :
  acts ws ks s s0 -> writes F_vision ws = false -> does KVision ks = false ->
  cooled s0 s1 -> cooled s s1.
Proof.
  intros H Hw Hk. unfold cooled, analyses.
  pose proof (acts_field _ _ _ _ F_vision H Hw) as E. cbn [same_field] in E.
  now rewrite E, (acts_effects_of_kind _ _ _ _ KVision H Hk).
Qed.

Lemma cooled_before ws ks s s0 s1 :
  cooled s s0 -> acts ws ks s0 s1 -> writes F_vision ws = false ->
  does KVision ks = false -> cooled s s1.
Proof.
  intros Hc H Hw Hk. unfold cooled, analyses in *.
  pose proof (acts_field _ _ _ _ F_vision H Hw) as E. cbn [same_field] in E.
  now rewrite E, (acts_effects_of_kind _ _ _ _ KVision H Hk).
Qed.

Lemma cooled_of_acts {A} ws ks (m : M A) s :
  always (acts ws ks) m -> writes F_vision ws = false ->
  does KVision ks = false -> cooled s (exec m s).
Proof.
  intros H Hw Hk.
  exact (cooled_before _ _ s s _ (cooled_refl s) (H s) Hw Hk).
Qed.

(** What [process_frame] does to the vision state: nothing, or it records
    a time that is [min_interval] or more after the time recorded before,
    with at most one call of the endpoint. *)
Lemma process_frame_cooled d s : cooled s (exec (process_frame W d) s).
Proof.
  unfold cooled, analyses.
  destruct (b64decode W d ≫= open_image W) as [frame|] eqn:Hd.
  - destruct (process_frame_gate d frame s Hd) as (_ & Hv & Ht).
    cbv zeta in Hv, Ht. rewrite Hv, Ht.
    destruct (_detect_change W (vision s) frame); cbn [andb];
      [|split; [reflexivity|left; split; reflexivity]].
    destruct (Qltb _ _) eqn:Hc; cbn [negb];
      [split; [reflexivity|left; split; reflexivity]|].
    split; [reflexivity|]. right. split.
    + unfold requested. destruct (save_jpeg_raises W frame); [now left|].
      now right.
    + apply Qltb_ge in Hc. unfold accepted. session_simpl. lra.
  - unfold exec. rewrite (process_frame_undecodable d s Hd). cbn [snd].
    split; [reflexivity|left; split; reflexivity].
Qed.

Lemma handle_video_frame_cooled d s :
  cooled s (exec (handle_video_frame W d) s).
Proof.
  change (wp (handle_video_frame W d) (fun _ s' => cooled s s') s).
  unfold handle_video_frame. apply wp_bind, wp_gets.
  destruct (negb (is_active s)); [apply wp_ret, cooled_refl|].
  apply wp_bind.
  eapply wp_wand; [apply wp_exec|]. intros r s0 [_ ->].
  eapply (wp_acts [F_screen_context; F_screen_contexts; F_ticks; F_trace]
            [KSend]); [acts_body|].
  intros _ s1 H.
  exact (cooled_before _ _ _ _ _ (process_frame_cooled d s) H eq_refl eq_refl).
Qed.

(** One event: no capture passes the gate, or one does, [min_interval] or
    more after the time recorded before, with at most one call of the
    vision endpoint. *)
Lemma step_cooled e s : cooled s (exec (step W e) s).
Proof.
  destruct e as [m| | |]; cbn [step].
  - destruct m; cbn [dispatch];
      try (eapply cooled_of_acts;
           [solve [eauto 2 with footprint]|reflexivity..]).
    + change (wp (dispatch W (MVideo data)) (fun _ s' => cooled s s') s).
      cbn [dispatch]. apply wp_bind, wp_gets. apply wp_bind.
      eapply (wp_acts
                [F_screen_share_active; F_screen_share_lost_time;
                 F_awaiting_screen_reshare; F_is_ai_speaking; F_ticks;
                 F_trace]
                [KSend; KTts]); [acts_body|].
      intros _ s0 H0. apply wp_bind, wp_modify.
      eapply wp_wand; [apply wp_exec|]. intros r s1 [_ ->].
      eapply cooled_after; [exact H0|reflexivity..|].
      eapply (cooled_after [F_screen_share_active] []);
        [|reflexivity..|apply handle_video_frame_cooled].
      split; [|exists []; split; reflexivity].
      intros f Hf. destruct f;
        first [reflexivity | cbv in Hf; discriminate Hf].
    + apply (cooled_of_acts [F_is_ai_speaking; F_ticks; F_trace] [KSend]);
        [acts_body|reflexivity..].
    + apply (cooled_of_acts [] []); [acts_body|reflexivity..].
  - eapply cooled_of_acts; [apply send_event_acts|reflexivity..].
  - eapply cooled_of_acts;
      [apply screen_share_timeout_checker_acts|reflexivity..].
  - eapply cooled_of_acts; [apply stop_acts|reflexivity..].
Qed.

Lemma analysis_times_spaced es s :
  (0 <= min_interval (vision s))%Q ->
  spaced (min_interval (vision s)) (analysis_times W es s)
  /\ (forall t, head (analysis_times W es s) = Some t ->
        (_last_api_call (vision s) + min_interval (vision s) <= t)%Q).
Proof.
  revert s. induction es as [|e rest IH]; intros s Hmi.
  - split; [exact I|discriminate].
  - cbn [analysis_times].
    set (s' := exec (step W e) s).
    destruct (step_cooled e s) as [Hm Hc]. fold s' in Hm, Hc.
    assert (Hmi' : (0 <= min_interval (vision s'))%Q) by now rewrite Hm.
    destruct (IH s' Hmi') as [Hsp Hhd]. rewrite Hm in Hsp, Hhd.
    destruct Hc as [[Hn Hl]|[[Hn|Hn] Hl]]; rewrite Hn.
    + rewrite Nat.ltb_irrefl. split; [exact Hsp|].
      intros t Ht. specialize (Hhd t Ht). rewrite Hl in Hhd. exact Hhd.
    + rewrite Nat.ltb_irrefl. split; [exact Hsp|].
      intros t Ht. specialize (Hhd t Ht). lra.
    + replace (analyses s <? S (analyses s)) with true
        by (symmetry; apply Nat.ltb_lt; lia).
      split.
      * destruct (analysis_times W rest s') as [|t2 ts] eqn:E; [exact I|].
        split; [apply Hhd; reflexivity|exact Hsp].
      * intros t Ht. injection Ht as <-. exact Hl.
Qed.


(** ** The evaluation engine *)

Lemma FAST_LLM_MODEL_not_defined (values : string -> PyVal) :
  Config.getattr values "FAST_LLM_MODEL"
  = Raise "AttributeError"
      "type object 'Config' has no attribute 'FAST_LLM_MODEL'".
Proof. reflexivity. Qed.

Lemma evaluation_error_get msg :
  get (InterviewBrain.evaluation_error msg) "score" = VInt 5
  /\ get (InterviewBrain.evaluation_error msg) "next_question"
     = VStr "Could you elaborate on that point?"
  /\ get (InterviewBrain.evaluation_error msg) "next_response" = VNone
  /\ get (InterviewBrain.evaluation_error msg) "presenter_asked_question"
     = VNone
  /\ get (InterviewBrain.evaluation_error msg) "response_type" = VNone.
Proof. repeat split; vm_compute; reflexivity. Qed.


Lemma evaluate_falls_back
    (sv : InterviewBrain.Services) (EVALUATION_SYSTEM_PROMPT : string)
    (self : InterviewBrain.t) (now later : Q)
    (transcript screen_context : string) (history : list Turn) :
  let r :=
    InterviewBrain.evaluate sv EVALUATION_SYSTEM_PROMPT self now later
      transcript screen_context history in
  let evaluation := r.1.1 in
  let self' := r.1.2 in
  let requests := r.2 in
  requests = []
  /\ (exists msg : string, evaluation = InterviewBrain.evaluation_error msg)
  /\ get evaluation "score" = VInt 5
  /\ get evaluation "next_question"
     = VStr "Could you elaborate on that point?"
  /\ get evaluation "next_response" = VNone
  /\ get evaluation "presenter_asked_question" = VNone
  /\ get evaluation "response_type" = VNone
  /\ InterviewBrain.pending_followup_topic self'
     = InterviewBrain.pending_followup_topic self
  /\ InterviewBrain.followup_attempts self'
     = InterviewBrain.followup_attempts self
  /\ InterviewBrain.last_question_time self'
     = InterviewBrain.last_question_time self
  /\ (forall recent : string,
        InterviewBrain._format_recent_history history = Ok recent ->
        get evaluation "feedback"
        = VStr "Evaluation error: type object 'Config' has no attribute 'FAST_LLM_MO"
        /\ InterviewBrain.conversation_history self'
           = InterviewBrain.conversation_history self
             ++ [("user"%string,
                  VStr (InterviewBrain.build_context transcript
                          screen_context recent
                          (InterviewBrain.followup_context self)))]).
Proof.
  intros r evaluation self' requests.
  subst evaluation self' requests r. unfold InterviewBrain.evaluate.
  cbv zeta. rewrite FAST_LLM_MODEL_not_defined.
  destruct (InterviewBrain._format_recent_history history) as [recent|e msg];
    cbn [fst snd].
  - split; [reflexivity|]. split; [eexists; reflexivity|].
    destruct (evaluation_error_get
                "type object 'Config' has no attribute 'FAST_LLM_MODEL'")
      as (E1 & E2 & E3 & E4 & E5).
    do 8 (split; [first [assumption | reflexivity]|]).
    intros recent' Hr. injection Hr as <-. split; [|reflexivity].
    vm_compute. reflexivity.
  - split; [reflexivity|]. split; [eexists; reflexivity|].
    destruct (evaluation_error_get msg) as (E1 & E2 & E3 & E4 & E5).
    do 8 (split; [first [assumption | reflexivity]|]).
    intros recent' Hr. discriminate Hr.
Qed.

(** X13: [InterviewBrain.evaluate] never reaches the chat endpoint. [Config]
    binds no [FAST_LLM_MODEL], so the request raises before it is made, and
    for every engine, transcript, screen context and history the answer is
    the evaluation of the [except] branch: score 5, the question "Could you
    elaborate on that point?", no [next_response], no [response_type] and no
    [presenter_asked_question]. The follow-up tracking and the question time
    are left as they are; when the history can be formatted the feedback
    names the missing attribute and the context has been added to the
    conversation. *)
Theorem evaluate_never_reaches_the_model
    (sv : InterviewBrain.Services) (EVALUATION_SYSTEM_PROMPT : string)
    (self : InterviewBrain.t) (now later : Q)
    (transcript screen_context : string) (history : list Turn) :
  let r :=
    InterviewBrain.evaluate sv EVALUATION_SYSTEM_PROMPT self now later
      transcript screen_context history in
  let evaluation := r.1.1 in
  let self' := r.1.2 in
  let requests := r.2 in
  requests = []
  /\ (exists msg : string, evaluation = InterviewBrain.evaluation_error msg)
  /\ get evaluation "score" = VInt 5
  /\ get evaluation "next_question"
     = VStr "Could you elaborate on that point?"
  /\ get evaluation "next_response" = VNone
  /\ get evaluation "presenter_asked_question" = VNone
  /\ get evaluation "response_type" = VNone
  /\ InterviewBrain.pending_followup_topic self'
     = InterviewBrain.pending_followup_topic self
  /\ InterviewBrain.followup_attempts self'
     = InterviewBrain.followup_attempts self
  /\ InterviewBrain.last_question_time self'
     = InterviewBrain.last_question_time self
  /\ (forall recent : string,
        InterviewBrain._format_recent_history history = Ok recent ->
        get evaluation "feedback"
        = VStr "Evaluation error: type object 'Config' has no attribute 'FAST_LLM_MO"
        /\ InterviewBrain.conversation_history self'
           = InterviewBrain.conversation_history self
             ++ [("user"%string,
                  VStr (InterviewBrain.build_context transcript
                          screen_context recent
                          (InterviewBrain.followup_context self)))]).
Proof.
  exact (evaluate_falls_back sv EVALUATION_SYSTEM_PROMPT self now later
           transcript screen_context history).
Qed.

(** *** Extracting the JSON object *)

Lemma append_nil (s : string) : (EmptyString +:+ s)%string = s.
Proof. reflexivity. Qed.

Lemma append_cons (a : ascii) (s r : string) :
  (String a s +:+ r)%string = String a (s +:+ r).
Proof. reflexivity. Qed.

Ltac append_simpl := rewrite ?append_cons, ?append_nil.

Lemma contains_char c a r :
  contains (String c EmptyString) (String a r)
  = Ascii.eqb a c || contains (String c EmptyString) r.
Proof.
  cbn [contains String.prefix]. destruct (ascii_dec c a) as [->|Hn].
  - rewrite Ascii.eqb_refl. now destruct r.
  - destruct (Ascii.eqb a c) eqn:E; [|reflexivity].
    apply Ascii.eqb_eq in E. congruence.
Qed.

Lemma contains_char_app c pre rest :
  contains (String c EmptyString) (pre +:+ String c rest) = true.
Proof.
  induction pre as [|a pre IH]; append_simpl.
  - rewrite contains_char, Ascii.eqb_refl. reflexivity.
  - rewrite contains_char, IH. apply orb_true_r.
Qed.

Lemma find_absent c s :
  contains (String c EmptyString) s = false -> Str.find c s = (-1)%Z.
Proof.
  induction s as [|a r IH]; [reflexivity|].
  rewrite contains_char. intros H. apply orb_false_iff in H as [Ha Hr].
  cbn [Str.find]. rewrite Ha, (IH Hr). reflexivity.
Qed.

Lemma rfind_absent c s :
  contains (String c EmptyString) s = false ->
  Str.rfind c s = (-1)%Z.
Proof.
  induction s as [|a r IH]; [reflexivity|].
  rewrite contains_char. intros H. apply orb_false_iff in H as [Ha Hr].
  cbn [Str.rfind]. rewrite Ha, (IH Hr). reflexivity.
Qed.

Lemma find_first c pre rest :
  contains (String c EmptyString) pre = false ->
  Str.find c (pre +:+ String c rest)
  = Z.of_nat (String.length pre).
Proof.
  induction pre as [|a pre IH]; intros H; append_simpl.
  - cbn [Str.find]. now rewrite Ascii.eqb_refl.
  - rewrite contains_char in H. apply orb_false_iff in H as [Ha Hr].
    cbn [Str.find String.length]. rewrite Ha, (IH Hr).
    destruct (Z.of_nat (String.length pre) <? 0)%Z eqn:E; lia.
Qed.

Lemma rfind_last c x post :
  contains (String c EmptyString) post = false ->
  Str.rfind c (x +:+ String c post)
  = Z.of_nat (String.length x).
Proof.
  intros H. induction x as [|a x IH]; append_simpl.
  - cbn [Str.rfind]. rewrite (rfind_absent c post H).
    cbn. now rewrite Ascii.eqb_refl.
  - cbn [Str.rfind String.length]. rewrite IH.
    destruct (0 <=? Z.of_nat (String.length x))%Z eqn:E; lia.
Qed.

Lemma drop_str_app pre rest :
  Str.drop_str (String.length pre) (pre +:+ rest) = rest.
Proof.
  induction pre as [|a pre IH]; append_simpl; [now destruct rest|].
  cbn [String.length Str.drop_str]. exact IH.
Qed.

Lemma take_str_app body post :
  take_str (String.length body) (body +:+ post) = body.
Proof.
  induction body as [|a body IH]; append_simpl; [now destruct post|].
  cbn [String.length take_str]. now rewrite IH.
Qed.

Lemma string_app_assoc (a b c : string) :
  ((a +:+ b) +:+ c)%string = (a +:+ (b +:+ c))%string.
Proof.
  induction a as [|x a IH]; append_simpl; [reflexivity|]. now rewrite IH.
Qed.

Lemma string_app_length (a b : string) :
  String.length (a +:+ b) = String.length a + String.length b.
Proof.
  induction a as [|x a IH]; append_simpl; [reflexivity|].
  cbn [String.length]. now rewrite IH.
Qed.

(** X14:
    [_parse_json_response] hands [json.loads] the text from the first
    opening brace to the last closing brace: whatever stands before an
    object, without an opening brace, and after it, without a closing
    brace, is ignored; and a content without an opening brace gets the
    answer for a content that cannot be parsed. *)
Theorem parse_json_ignores_the_text_around_the_object
    (sv : InterviewBrain.Services) :
  (forall pre inner post : string,
      contains "{" pre = false -> contains "}" post = false ->
      let object := ("{" +:+ inner +:+ "}")%string in
      InterviewBrain._parse_json_response sv (pre +:+ object +:+ post)
      = default InterviewBrain.parse_error
          (InterviewBrain.json_loads sv object))
  /\ (forall content : string,
        contains "{" content = false ->
        InterviewBrain._parse_json_response sv content
        = InterviewBrain.parse_error).
Proof.
  split.
  - intros pre inner post Hpre Hpost object.
    unfold InterviewBrain._parse_json_response.
    assert (E : (pre +:+ object +:+ post)%string
                = (pre +:+ String "{" (inner +:+ String "}" post))%string).
    { subst object. append_simpl. now rewrite string_app_assoc. }
    assert (E' : (pre +:+ object +:+ post)%string
                 = ((pre +:+ String "{" inner) +:+ String "}" post)%string).
    { rewrite E. rewrite string_app_assoc. now append_simpl. }
    assert (Hlen : String.length object = S (S (String.length inner))).
    { subst object. append_simpl. cbn [String.length].
      rewrite string_app_length. cbn [String.length]. lia. }
    rewrite E at 1. rewrite contains_char_app.
    cbv zeta. f_equal. f_equal.
    rewrite E at 1. rewrite (find_first "{" pre _ Hpre).
    rewrite E' at 1. rewrite (rfind_last "}" _ post Hpost).
    unfold Str.slice.
    rewrite string_app_length. cbn [String.length].
    rewrite Nat2Z.id.
    replace (Z.to_nat
               (Z.of_nat (String.length pre + S (String.length inner)) + 1
                - Z.of_nat (String.length pre)))
      with (String.length object) by lia.
    rewrite drop_str_app. apply take_str_app.
  - intros content H. unfold InterviewBrain._parse_json_response.
    now rewrite H.
Qed.

(** *** The session with the engine *)

(** [speak_response] calls the speech service once, with the text. *)
Lemma speak_response_speaks text s :
  wp (speak_response W text)
    (fun _ s' =>
       effects_of_kind KTts (trace s')
       = ETts text :: effects_of_kind KTts (trace s)
       /\ acts [F_is_ai_speaking; F_ticks; F_trace] [KSend; KTts] s s')
    s.
Proof.
  split; [|apply speak_response_acts].
  change (wp (speak_response W text)
            (fun _ s' =>
               effects_of_kind KTts (trace s')
               = ETts text :: effects_of_kind KTts (trace s)) s).
  unfold speak_response. wp_run; reflexivity.
Qed.

Lemma evaluation_error_get_or msg (d : PyVal) :
  get_or (InterviewBrain.evaluation_error msg) "score" d = VInt 5
  /\ get_or (InterviewBrain.evaluation_error msg) "next_question" d
     = VStr "Could you elaborate on that point?"
  /\ get_or (InterviewBrain.evaluation_error msg) "next_response" d = d
  /\ get_or (InterviewBrain.evaluation_error msg) "response_type" d = d.
Proof. repeat split; vm_compute; reflexivity. Qed.

Lemma generate_response_with_the_engine tr s :
  served_by_the_engine W ->
  Qltb (clock W (ticks s) - last_question_time s) (min_question_interval s)
  && Qgtb (last_question_time s) 0 = false ->
  let s' := exec (generate_response W tr) s in
  exists t : Turn,
    history s' = history s ++ [t]
    /\ transcript t = tr
    /\ score t = VInt 5
    /\ question t = VStr "Could you elaborate on that point?"
    /\ response_type t = VStr ""
    /\ effects_of_kind KTts (trace s')
       = ETts "Could you elaborate on that point?"
         :: effects_of_kind KTts (trace s)
    /\ pending_response s' = true.
Proof.
  intros Hengine Hpace s'. subst s'.
  change (wp (generate_response W tr)
            (fun _ s' =>
               exists t : Turn,
                 history s' = history s ++ [t]
                 /\ transcript t = tr
                 /\ score t = VInt 5
                 /\ question t = VStr "Could you elaborate on that point?"
                 /\ response_type t = VStr ""
                 /\ effects_of_kind KTts (trace s')
                    = ETts "Could you elaborate on that point?"
                      :: effects_of_kind KTts (trace s)
                 /\ pending_response s' = true) s).
  unfold generate_response. wp_upto_branch. rewrite Hpace.
  wp_upto_branch.
  destruct (Hengine (S (S (ticks s))) tr (screen_context s) (history s))
    as (sv & prompt & self & now & later & Hev).
  rewrite Hev.
  destruct (evaluate_falls_back sv prompt self now later tr
              (screen_context s) (history s))
    as (_ & (msg & Hmsg) & _).
  cbv zeta in Hmsg. rewrite Hmsg.
  destruct (evaluation_error_get msg) as (_ & _ & _ & G4 & G5).
  wp_upto_branch. rewrite G4, G5. cbn [truthy eq_str andb].
  unfold record_and_respond, update_history, send_and_speak.
  wp_upto_branch.
  destruct (evaluation_error_get_or msg
              (get_or (InterviewBrain.evaluation_error msg) "next_question"
                 (VStr "")))
    as (_ & _ & G3 & _).
  destruct (evaluation_error_get_or msg (VStr "")) as (_ & G2 & _).
  rewrite G3, G2.
  change (nonempty "Could you elaborate on that point?"
          && nonempty (strip "Could you elaborate on that point?"))
    with true.
  repeat wp_step_with ltac:(apply speak_response_speaks).
  all: try discriminate.
  cbv beta in Hspec. destruct Hspec as [Hs Hacts].
  acts_read Hacts F_history. acts_read Hacts F_pending_response.
  session_simpl_in Hs. rewrite Hs.
  eexists. split; [reflexivity|].
  destruct (evaluation_error_get_or msg (VInt 5)) as (G1 & _).
  destruct (evaluation_error_get_or msg (VStr "")) as (_ & _ & _ & G6).
  cbn [transcript score question response_type make_turn].
  rewrite G1, G3, G2, G6.
  repeat (split; [reflexivity|]). reflexivity.
Qed.

(** X15: with [InterviewBrain.evaluate] as the evaluation service, every
    transcript that [generate_response] handles outside the pacing window is
    recorded as a turn with score 5 and answered with the question "Could
    you elaborate on that point?", which is spoken; the response is pending
    afterwards. *)
Theorem engine_asks_the_same_question (tr : string) (s : Session) :
  served_by_the_engine W ->
  Qltb (clock W (ticks s) - last_question_time s) (min_question_interval s)
  && Qgtb (last_question_time s) 0 = false ->
  let s' := exec (generate_response W tr) s in
  exists t : Turn,
    history s' = history s ++ [t]
    /\ transcript t = tr
    /\ score t = VInt 5
    /\ question t = VStr "Could you elaborate on that point?"
    /\ response_type t = VStr ""
    /\ effects_of_kind KTts (trace s')
       = ETts "Could you elaborate on that point?"
         :: effects_of_kind KTts (trace s)
    /\ pending_response s' = true.
Proof. exact (generate_response_with_the_engine tr s). Qed.
End Properties.

(** ** The code at concrete inputs *)

(** Each part of a closed statement is settled by evaluation. *)
Ltac evaluate :=
  cbv zeta;
  repeat lazymatch goal with |- _ /\ _ => split end;
  vm_compute; reflexivity.

(** C1 (the code at a direct question inside the pacing window): six
    seconds after the opening the presenter asks "so can I move on to the
    next slide now?".  The audio is transcribed, the transcript is finalized
    and sent as [transcript_final], and the evaluation service would flag it
    as a question of the presenter; yet [generate_response] consults the
    pacing first and returns: the evaluation service is not called, nothing
    is spoken, no turn is recorded, and the text is gone from the
    accumulator. *)
Example C1_direct_question_dropped_inside_pacing_window :
  let s := Scenario.started in
  let s' := Scenario.after_question in
  let new := firstn (length (trace s') - length (trace s)) (trace s') in
  head (trace s')
  = Some (ESend "transcript_final"
            (PDict [("text"%string, VStr Scenario.question)])
            (Demo.seconds 14))
  /\ (forall n : nat,
        (fun ev => truthy (get ev "presenter_asked_question"))
          <$> (match brain_evaluate Scenario.w n Scenario.question
                       (screen_context s) (history s) with
               | Ok ev => Some ev
               | Raise _ _ => None
               end)
        = Some true)
  /\ Qltb (clock Scenario.w 15 - last_question_time s)
       (min_question_interval s) = true
  /\ ticks s' = 16
  /\ map kind new = [KFinal; KSend; KTranscribe]
  /\ last_question_time s' = last_question_time s
  /\ history s' = []
  /\ accumulated_transcript s' = EmptyString.
Proof.
  cbv zeta. split; [vm_compute; reflexivity|].
  split; [intros n; vm_compute; reflexivity|]. evaluate.
Qed.

(** C2 (the code at share lost, then stop): the screen share of a started
    session is lost and the presenter ends the interview.  [stop] clears
    [awaiting_screen_reshare] and leaves [screen_share_lost_time] as
    [handle_screen_share_lost] set it, where [handle_screen_share_restored]
    resets it to [None]: the timestamp is there although the session no
    longer awaits the screen share. *)
Example C2_lost_time_survives_stop :
  screen_share_lost_time Scenario.started = None
  /\ awaiting_screen_reshare Scenario.started = false
  /\ screen_share_lost_time Scenario.after_lost = Some (Demo.seconds 10)
  /\ awaiting_screen_reshare Scenario.after_lost = true
  /\ screen_share_lost_time Scenario.after_lost_and_stop
     = Some (Demo.seconds 10)
  /\ awaiting_screen_reshare Scenario.after_lost_and_stop = false
  /\ is_stopped Scenario.after_lost_and_stop = true
  /\ screen_share_lost_time
       (exec (handle_screen_share_restored Scenario.w) Scenario.after_lost)
     = None.
Proof. evaluate. Qed.

(** C3 (the code at a rate limited description call): the first capture of
    a started session is analysed; three seconds later a different capture
    passes the gate and the vision endpoint answers 429.  [process_frame]
    answers the cached description, and records the new capture as the last
    analysed frame and the time of the failed call as the last call, so
    that the same capture sent again is no change. *)
Example C3_rate_limited_frame_is_recorded :
  let s := Scenario.after_first_frame in
  let s' := exec (process_frame Scenario.w Demo.white_frame) s in
  groq_vision Scenario.w (S (ticks s)) Scenario.white
  = ApiRaise "Error code: 429 - Rate limit reached"
  /\ eval (process_frame Scenario.w Demo.white_frame) s
     = (true, Some (_last_analysis (vision s)))
  /\ _last_frame (vision s) = Some Scenario.black
  /\ _last_frame (vision s') = Some Scenario.white
  /\ _last_api_call (vision s) = Demo.seconds 10
  /\ _last_api_call (vision s') = Demo.seconds 13
  /\ _detect_change Scenario.w (vision s') Scenario.white = false.
Proof. evaluate. Qed.



Lemma seconds_monotone (i j : nat) :
  i <= j -> (clock Scenario.w i <= clock Scenario.w j)%Q.
Proof.
  intros Hij.
  change (inject_Z (1700000000 + Z.of_nat i)
          <= inject_Z (1700000000 + Z.of_nat j))%Q.
  rewrite <- Zle_Qle. lia.
Qed.

(** Three audio messages to a started session: each is flushed and
    transcribed, six seconds or more after the one before. *)
Lemma C5_transcription_flushes_witness :
  (forall i j : nat, i <= j -> (clock Scenario.w i <= clock Scenario.w j)%Q)
  /\ flush_times Scenario.w Scenario.chunks Scenario.started
     = [Demo.seconds 11; Demo.seconds 17; Demo.seconds 33]
  /\ spaced 3 (flush_times Scenario.w Scenario.chunks Scenario.started).
Proof.
  split; [exact seconds_monotone|].
  split; [vm_compute; reflexivity|].
  exact (proj1 (C5_transcription_flushes Scenario.w seconds_monotone
                  Scenario.chunks Scenario.started)).
Defined.

(** The screen share is lost after one answered question and not restored:
    the timeout stops the session once and asks for one summary. *)
Lemma timeout_terminates_once_uninterrupted_witness :
  let s :=
    run Scenario.w Scenario.answered_then_lost
      (started_session Scenario.w "20231114_221320" (1 # 10) 3) in
  let s' := exec (step Scenario.w TimerFired) s in
  awaiting_screen_reshare s = true
  /\ map slide (history s') = [1%Z]
  /\ effects_of_kind KSummary (trace s) = []
  /\ effects_of_kind KStopping (trace s') = [EStopping true]
  /\ effects_of_kind KSummary (trace s')
     = [ESummary (history s') (screen_contexts s')].
Proof.
  cbv zeta.
  assert (Hw : awaiting_screen_reshare
                 (run Scenario.w Scenario.answered_then_lost
                    (started_session Scenario.w "20231114_221320" (1 # 10) 3))
               = true) by (vm_compute; reflexivity).
  pose proof (timeout_terminates_once_uninterrupted Scenario.w "20231114_221320"
                (1 # 10) 3 Scenario.answered_then_lost Hw) as H.
  cbv zeta in H. destruct H as (_ & _ & _ & Hstop & Hsum & _).
  split; [exact Hw|].
  match goal with
  | |- map slide (history ?x) = _ /\ _ =>
      assert (Hh : map slide (history x) = [1%Z]) by (vm_compute; reflexivity)
  end.
  split; [exact Hh|].
  match goal with
  | |- ?a = [] /\ _ => assert (H0 : a = []) by (vm_compute; reflexivity)
  end.
  split; [exact H0|]. split; [exact Hstop|].
  rewrite Hsum, H0.
  clear Hw Hstop Hsum H0.
  match type of Hh with
  | map slide ?h = _ => destruct h; [discriminate Hh|]
  end.
  clear Hh. apply app_nil_r.
Defined.

(** ** The session invariants at concrete inputs *)




(** After an answered question the interviewer has a response pending,
    also once the screen share is lost and the session is stopped. *)
Lemma pending_response_is_never_reset_witness :
  let s :=
    run Scenario.w Scenario.answered_then_lost
      (started_session Scenario.w "20231114_221320" (1 # 10) 3) in
  pending_response s = true
  /\ pending_response (run Scenario.w [TimerFired; Receive MGenerateReport] s)
     = true.
Proof.
  cbv zeta.
  assert (H : pending_response
                (run Scenario.w Scenario.answered_then_lost
                   (started_session Scenario.w "20231114_221320" (1 # 10) 3))
              = true) by (vm_compute; reflexivity).
  split; [exact H|].
  exact (proj1 (pending_response_is_never_reset Scenario.w _ H
                  [TimerFired; Receive MGenerateReport])).
Defined.

(** The screen share of a started session is lost. *)
Lemma screen_share_lost_and_restored_witness :
  is_active Scenario.started = true
  /\ awaiting_screen_reshare Scenario.started = false
  /\ awaiting_screen_reshare
       (exec (handle_screen_share_lost Scenario.w) Scenario.started)
     = true.
Proof.
  assert (Ha : is_active Scenario.started = true)
    by (vm_compute; reflexivity).
  assert (Hw : awaiting_screen_reshare Scenario.started = false)
    by (vm_compute; reflexivity).
  split; [exact Ha|]. split; [exact Hw|].
  pose proof (screen_share_lost_and_restored Scenario.w Demo.white_frame
                Scenario.started Ha Hw) as T.
  cbv zeta in T. destruct T as ((T1 & _) & _). exact T1.
Defined.

(** ** Speech *)

Lemma edge_loop_spec (buf : list Byte.byte) (stream : list TTSEngine.Chunk)
    (raises : bool) :
  length buf < 4096 ->
  let chunks := TTSEngine.edge_loop buf stream raises in
  (exists lost : list Byte.byte,
      buf ++ TTSEngine.audio_of stream = concat chunks ++ lost
      /\ length lost < 4096
      /\ (raises = false -> lost = []))
  /\ (forall (i : nat) (c : list Byte.byte),
        chunks !! i = Some c ->
        c <> []
        /\ (S i < length chunks \/ raises = true -> 4096 <= length c)).
Proof.
  revert buf. induction stream as [|m rest IH]; intros buf Hbuf chunks.
  - subst chunks. cbn [TTSEngine.edge_loop TTSEngine.audio_of flat_map].
    rewrite app_nil_r. destruct raises.
    + split.
      * exists buf. cbn. split; [reflexivity|]. split; [exact Hbuf|].
        discriminate.
      * intros i c Hc. discriminate.
    + destruct (0 <? length buf) eqn:E.
      * split.
        -- exists []. cbn. rewrite !app_nil_r. split; [reflexivity|].
           split; [lia|reflexivity].
        -- intros [|i] c Hc; [|discriminate]. injection Hc as <-.
           apply Nat.ltb_lt in E. split.
           ++ intros ->. cbn in E. lia.
           ++ cbn. intros [H|H]; [lia|discriminate].
      * apply Nat.ltb_ge in E. destruct buf; [|cbn in E; lia].
        split.
        -- exists []. cbn. split; [reflexivity|]. split; [lia|reflexivity].
        -- intros i c Hc. discriminate.
  - destruct m as [data|]; subst chunks;
      cbn [TTSEngine.edge_loop TTSEngine.audio_of flat_map].
    + fold (TTSEngine.audio_of rest). rewrite app_assoc.
      destruct (4096 <=? length (buf ++ data)) eqn:E.
      * apply Nat.leb_le in E.
        destruct (IH [] ltac:(cbn; lia)) as [(lost & H1 & H2 & H3) H4].
        cbn [app] in H1. split.
        -- exists lost. cbn [concat]. rewrite H1.
           split; [now rewrite !app_assoc|]. split; assumption.
        -- intros [|i] c Hc.
           ++ injection Hc as <-. split.
              ** intros Hn. rewrite Hn in E. cbn in E. lia.
              ** intros _. exact E.
           ++ cbn [lookup list_lookup] in Hc.
              destruct (H4 i c Hc) as [G1 G2]. split; [exact G1|].
              intros [H|H]; apply G2; [left; cbn in H; lia|right; exact H].
      * apply Nat.leb_gt in E. apply (IH (buf ++ data) E).
    + apply (IH buf Hbuf).
Qed.

(** X16: the chunks [_stream_edge_tts] yields, joined, are the audio the
    stream delivered, in order and without a byte lost, when the stream
    ends; when the stream raises, they are that audio less the bytes still
    in the buffer, fewer than 4096. No chunk is empty, and every chunk but
    the last of a stream that ends has 4096 bytes or more. *)
Theorem edge_tts_chunks_keep_the_audio
    (sv : TTSEngine.Services) (self : TTSEngine.t) (text : string) :
  let stream := TTSEngine.edge_stream sv text (TTSEngine.edge_voice self) in
  let audio := TTSEngine.audio_of (TTSEngine.delivered stream) in
  let chunks := TTSEngine._stream_edge_tts sv self text in
  (exists lost : list Byte.byte,
      audio = concat chunks ++ lost
      /\ length lost < 4096
      /\ (TTSEngine.raises stream = false -> lost = []))
  /\ (forall (i : nat) (c : list Byte.byte),
        chunks !! i = Some c ->
        c <> []
        /\ (S i < length chunks \/ TTSEngine.raises stream = true ->
            4096 <= length c)).
Proof.
  intros stream audio chunks.
  exact (edge_loop_spec [] (TTSEngine.delivered stream)
           (TTSEngine.raises stream) ltac:(cbn; lia)).
Qed.

Lemma range_chunks {A} (n k : nat) (l : list A) :
  concat (map (fun i => take n (drop i l)) (map (fun j => j * n) (seq 0 k)))
  = take (k * n) l.
Proof.
  induction k as [|k IH]; [reflexivity|].
  rewrite seq_S, !map_app, concat_app, IH. cbn [map concat plus].
  rewrite app_nil_r, take_take_drop. f_equal. lia.
Qed.

Lemma sliced_spec {A} (size : nat) (l : list A) :
  0 < size ->
  let chunks :=
    map (fun i => take size (drop i l)) (TTSEngine.range (length l) size) in
  concat chunks = l
  /\ length chunks = (length l + size - 1) / size
  /\ (forall (i : nat) (c : list A),
        chunks !! i = Some c ->
        c <> [] /\ length c <= size
        /\ (S i < length chunks -> length c = size)).
Proof.
  intros Hsize chunks. subst chunks. unfold TTSEngine.range.
  set (n := length l).
  set (k := (n + size - 1) / size).
  assert (Hk : n <= k * size /\ k * size < n + size).
  { subst k. pose proof (Nat.div_mod (n + size - 1) size ltac:(lia)) as H.
    pose proof (Nat.mod_upper_bound (n + size - 1) size ltac:(lia)). nia. }
  clearbody k.
  split; [|split].
  - rewrite range_chunks. apply take_ge. fold n. lia.
  - now rewrite !length_map, length_seq.
  - intros i c Hc. rewrite !length_map, length_seq.
    rewrite list_lookup_fmap in Hc.
    destruct (map (fun j => j * size) (seq 0 k) !! i) as [j|] eqn:Ej;
      [|discriminate].
    injection Hc as <-.
    rewrite list_lookup_fmap in Ej.
    destruct (seq 0 k !! i) as [j'|] eqn:Ej'; [|discriminate].
    injection Ej as <-. apply lookup_seq in Ej' as [-> Hi]. cbn [plus] in *.
    assert (Hc : length (take size (drop (i * size) l))
                 = size `min` (n - i * size))
      by (now rewrite length_take, length_drop).
    clearbody n.
    split; [|split]; [|nia|nia].
    intros Hn. rewrite Hn in Hc. cbn [length] in Hc. nia.
Qed.

(** X17: the chunks [_stream_openai] yields for the audio the service
    answered are the successive slices of 4096 bytes of it: joined they are
    that audio, none is empty, and every one but the last has 4096 bytes. *)
Theorem openai_chunks_keep_the_audio
    (sv : TTSEngine.Services) (self : TTSEngine.t) (text : string)
    (audio_bytes : list Byte.byte) :
  TTSEngine.openai_speech sv (TTSEngine.openai_voice self) text
  = TTSEngine.OpenAIContent audio_bytes ->
  let chunks := TTSEngine._stream_openai sv self text in
  concat chunks = audio_bytes
  /\ length chunks = (length audio_bytes + 4096 - 1) / 4096
  /\ (forall (i : nat) (c : list Byte.byte),
        chunks !! i = Some c ->
        c <> [] /\ length c <= 4096
        /\ (S i < length chunks -> length c = 4096)).
Proof.
  intros H chunks. subst chunks. unfold TTSEngine._stream_openai.
  rewrite H. apply (sliced_spec 4096). apply Nat.lt_0_succ.
Qed.

(** X18: [generate_full_audio] answers with the audio of the provider. With
    the provider [openai] it is the content the service answered, and
    nothing when the service raises; with any other provider, or when the
    [openai] package is missing, it is the audio the Edge stream delivered,
    whole when the stream ends, and less the fewer than 4096 bytes still
    buffered when it raises. *)
Theorem generate_full_audio_is_the_speech
    (sv : TTSEngine.Services) (self : TTSEngine.t) (text : string) :
  let stream := TTSEngine.edge_stream sv text (TTSEngine.edge_voice self) in
  let audio := TTSEngine.audio_of (TTSEngine.delivered stream) in
  let answer :=
    TTSEngine.openai_speech sv (TTSEngine.openai_voice self) text in
  let spoken := TTSEngine.generate_full_audio sv self text in
  (TTSEngine.provider self = "openai"%string ->
   (forall audio_bytes,
       answer = TTSEngine.OpenAIContent audio_bytes -> spoken = audio_bytes)
   /\ (answer = TTSEngine.OpenAIRaises -> spoken = []))
  /\ (TTSEngine.provider self <> "openai"%string
      \/ answer = TTSEngine.NotInstalled ->
      exists lost : list Byte.byte,
        audio = spoken ++ lost
        /\ length lost < 4096
        /\ (TTSEngine.raises stream = false -> lost = [])).
Proof.
  intros stream audio answer spoken.
  assert (Hedge : exists lost : list Byte.byte,
             audio = concat (TTSEngine._stream_edge_tts sv self text) ++ lost
             /\ length lost < 4096
             /\ (TTSEngine.raises stream = false -> lost = [])).
  { exact (proj1 (edge_loop_spec [] (TTSEngine.delivered stream)
                    (TTSEngine.raises stream) (Nat.lt_0_succ _))). }
  subst spoken. unfold TTSEngine.generate_full_audio, TTSEngine.stream_speech.
  split.
  - intros ->. cbn [String.eqb Ascii.eqb Bool.eqb]. split.
    + intros b Hb. unfold TTSEngine._stream_openai. fold answer. rewrite Hb.
      exact (proj1 (sliced_spec 4096 b (Nat.lt_0_succ _))).
    + intros Hb. unfold TTSEngine._stream_openai. fold answer. now rewrite Hb.
  - intros H. destruct (String.eqb (TTSEngine.provider self) "openai") eqn:E.
    + apply String.eqb_eq in E. destruct H as [H|H]; [congruence|].
      unfold TTSEngine._stream_openai. fold answer. rewrite H. exact Hedge.
    + exact Hedge.
Qed.

(** A service that answers with three bytes. *)
Lemma openai_chunks_keep_the_audio_witness :
  let sv :=
    TTSEngine.mkServices
      (fun _ _ => TTSEngine.mkEdgeStream [] false)
      (fun _ _ => TTSEngine.OpenAIContent [Byte.x49; Byte.x44; Byte.x33]) in
  let self := TTSEngine.mk "openai" "en-US-GuyNeural" "alloy" in
  TTSEngine.openai_speech sv (TTSEngine.openai_voice self) "Welcome!"
  = TTSEngine.OpenAIContent [Byte.x49; Byte.x44; Byte.x33]
  /\ concat (TTSEngine._stream_openai sv self "Welcome!")
     = [Byte.x49; Byte.x44; Byte.x33].
Proof.
  cbv zeta. split; [reflexivity|].
  exact (proj1 (openai_chunks_keep_the_audio
                  (TTSEngine.mkServices
                     (fun _ _ => TTSEngine.mkEdgeStream [] false)
                     (fun _ _ =>
                        TTSEngine.OpenAIContent
                          [Byte.x49; Byte.x44; Byte.x33]))
                  (TTSEngine.mk "openai" "en-US-GuyNeural" "alloy")
                  "Welcome!" [Byte.x49; Byte.x44; Byte.x33] eq_refl)).
Defined.

(** ** The session with the engine at a concrete input *)

Lemma engine_world_served : served_by_the_engine Engine.world.
Proof.
  intros n tr ctx h.
  exists Engine.services, EmptyString, (InterviewBrain.new Engine.services),
    (clock Scenario.w n), (clock Scenario.w n).
  reflexivity.
Qed.

(** Eight seconds after the opening the presenter says what the project
    does. *)
Lemma engine_asks_the_same_question_witness :
  served_by_the_engine Engine.world
  /\ Qltb
       (clock Engine.world (ticks Engine.waited)
        - last_question_time Engine.waited)
       (min_question_interval Engine.waited)
     && Qgtb (last_question_time Engine.waited) 0 = false
  /\ exists t : Turn,
       history
         (exec (generate_response Engine.world "it ranks the search results")
            Engine.waited)
       = history Engine.waited ++ [t]
       /\ question t = VStr "Could you elaborate on that point?".
Proof.
  assert (Hp : Qltb
                 (clock Engine.world (ticks Engine.waited)
                  - last_question_time Engine.waited)
                 (min_question_interval Engine.waited)
               && Qgtb (last_question_time Engine.waited) 0 = false)
    by (vm_compute; reflexivity).
  split; [exact engine_world_served|]. split; [exact Hp|].
  destruct (engine_asks_the_same_question Engine.world
              "it ranks the search results" Engine.waited
              engine_world_served Hp)
    as (t & H1 & _ & _ & H4 & _).
  exists t. split; [exact H1|exact H4].
Defined.

(** ** Reports on disk *)

(** Concatenations with a literal are computed by rewriting. *)
Ltac append_simpl := rewrite ?append_cons, ?append_nil.

Lemma fold_left_last {A B} (f : B -> A) (l : list B) (a : A) :
  fold_left (fun _ x => f x) l a
  = match last l with Some x => f x | None => a end.
Proof.
  revert a. induction l as [|x l IH]; intros a; [reflexivity|].
  cbn [fold_left]. rewrite IH. destruct l as [|y l]; [reflexivity|].
  change (last (x :: y :: l)) with (last (y :: l)).
  destruct (last (y :: l)) eqn:E; [reflexivity|].
  apply last_None in E. discriminate E.
Qed.

Lemma last_map {A B} (f : A -> B) (l : list A) :
  last (map f l) = option_map f (last l).
Proof.
  induction l as [|x [|y l] IH]; [reflexivity..|].
  change (last (map f (x :: y :: l))) with (last (map f (y :: l))).
  change (last (x :: y :: l)) with (last (y :: l)). exact IH.
Qed.

(** X19: the bars of the chart of category scores have one fill colour, and
    it is the colour of the last score of the table, whatever the other
    scores are; without a score it is the primary colour. *)
Theorem bar_chart_has_the_colour_of_the_last_score
    (category_scores : list (string * Z)) :
  Reports.bar_fill_color category_scores
  = match last category_scores with
    | Some (_, score) => Reports._get_score_color score
    | None => Reports.primary
    end.
Proof.
  unfold Reports.bar_fill_color. cbv zeta. rewrite fold_left_last, last_map.
  destruct (last category_scores) as [[c s]|]; reflexivity.
Qed.

(** *** Strings of digits *)

Lemma all_chars_app P a b :
  all_chars P (a +:+ b) = all_chars P a && all_chars P b.
Proof.
  induction a as [|c a IH]; append_simpl; [reflexivity|].
  cbn [all_chars]. now rewrite IH, andb_assoc.
Qed.

Lemma all_chars_impl (P Q : ascii -> bool) s :
  (forall c, P c = true -> Q c = true) ->
  all_chars P s = true -> all_chars Q s = true.
Proof.
  intros H. induction s as [|c s IH]; [reflexivity|].
  cbn [all_chars]. intros E. apply andb_true_iff in E as [E1 E2].
  now rewrite (H c E1), (IH E2).
Qed.

Lemma digit_is_digit n : is_digit (Reports.digit n) = true.
Proof.
  unfold Reports.digit.
  pose proof (Nat.mod_upper_bound n 10 ltac:(lia)) as H.
  destruct (n mod 10) as [|[|[|[|[|[|[|[|[|[|k]]]]]]]]]];
    first [reflexivity | lia].
Qed.

Lemma digits_all w n : all_chars is_digit (Reports.digits w n) = true.
Proof.
  revert n. induction w as [|w IH]; intros n; [reflexivity|].
  cbn [Reports.digits]. rewrite all_chars_app, IH. cbn [all_chars andb].
  now rewrite digit_is_digit.
Qed.

Lemma digits_length w n : String.length (Reports.digits w n) = w.
Proof.
  revert n. induction w as [|w IH]; intros n; [reflexivity|].
  cbn [Reports.digits]. rewrite string_app_length, IH.
  cbn [String.length]. lia.
Qed.

Lemma is_digit_literal c : is_digit c = true -> is_literal c = true.
Proof.
  destruct c as [[] [] [] [] [] [] [] []]; vm_compute;
    intros H; first [reflexivity | discriminate H].
Qed.

Lemma is_digit_not c a :
  is_digit a = false -> is_digit c = true -> negb (Ascii.eqb c a) = true.
Proof.
  intros Ha Hc. destruct (Ascii.eqb c a) eqn:E; [|reflexivity].
  apply Ascii.eqb_eq in E. congruence.
Qed.

Lemma date_all dt : all_chars is_digit (Reports.date dt) = true.
Proof.
  unfold Reports.date. now rewrite !all_chars_app, !digits_all.
Qed.

Lemma time_of_day_all dt :
  all_chars is_digit (Reports.time_of_day dt) = true.
Proof.
  unfold Reports.time_of_day. now rewrite !all_chars_app, !digits_all.
Qed.

Lemma date_length dt : String.length (Reports.date dt) = 8.
Proof.
  unfold Reports.date. now rewrite !string_app_length, !digits_length.
Qed.

Lemma strftime_length dt : String.length (Reports.strftime dt) = 15.
Proof.
  unfold Reports.strftime, Reports.time_of_day.
  rewrite !string_app_length, date_length, !digits_length. reflexivity.
Qed.

Lemma strftime_literal dt :
  all_chars is_literal (Reports.strftime dt) = true.
Proof.
  unfold Reports.strftime. rewrite !all_chars_app.
  rewrite (all_chars_impl _ _ _ is_digit_literal (date_all dt)).
  rewrite (all_chars_impl _ _ _ is_digit_literal (time_of_day_all dt)).
  reflexivity.
Qed.

Lemma append_inj_length (a a' b b' : string) :
  String.length a = String.length a' ->
  (a +:+ b)%string = (a' +:+ b')%string -> a = a' /\ b = b'.
Proof.
  revert a'. induction a as [|c a IH]; intros [|c' a'] Hl; append_simpl;
    try discriminate Hl.
  - auto.
  - intros H. injection H as -> H. injection Hl as Hl.
    destruct (IH a' Hl H) as [-> ->]. auto.
Qed.

(** *** Splitting at a character *)

Lemma pieces_cons c w s :
  exists p ps, Str.pieces c w s = p :: ps.
Proof.
  revert w. induction s as [|a r IH]; intros w; cbn [Str.pieces].
  - eauto.
  - destruct (Ascii.eqb a c); [eauto|apply IH].
Qed.

Lemma append_nil_r (w : string) : (w +:+ EmptyString)%string = w.
Proof.
  induction w as [|b w IH]; append_simpl; [reflexivity|]. now f_equal.
Qed.

Lemma pieces_segment c w x r :
  all_chars (fun a => negb (Ascii.eqb a c)) x = true ->
  Str.pieces c w (x +:+ String c r)
  = (w +:+ x)%string :: Str.pieces c EmptyString r.
Proof.
  revert w. induction x as [|a x IH]; intros w H; append_simpl.
  - cbn [Str.pieces]. rewrite Ascii.eqb_refl. now rewrite append_nil_r.
  - cbn [all_chars] in H. apply andb_true_iff in H as [Ha Hx].
    apply negb_true_iff in Ha. cbn [Str.pieces]. rewrite Ha.
    rewrite (IH _ Hx). f_equal. rewrite string_app_assoc. now append_simpl.
Qed.

(** *** The stem of a name *)

Lemma stem_pdf x :
  nonempty x = true -> Reports.stem (x +:+ ".pdf") = x.
Proof.
  intros Hx. unfold Reports.stem.
  change (x +:+ ".pdf")%string with (x +:+ String "." "pdf")%string.
  rewrite (rfind_last "." x "pdf" eq_refl). cbv zeta.
  rewrite string_app_length. cbn [String.length].
  destruct x as [|c x]; [discriminate Hx|]. cbn [String.length].
  replace (0 <? Z.of_nat (S (String.length x)))%Z with true
    by (symmetry; apply Z.ltb_lt; lia).
  replace (Z.of_nat (S (String.length x))
           <? Z.of_nat (S (String.length x) + 4) - 1)%Z with true
    by (symmetry; apply Z.ltb_lt; lia).
  cbn [andb]. rewrite Nat2Z.id.
  exact (take_str_app (String c x) (String "." "pdf")).
Qed.

(** *** Patterns *)

Lemma wildcard_star ps name :
  Reports.wildcard (String "*" ps) name
  = Reports.wildcard ps name
    || match name with
       | EmptyString => false
       | String _ rest => Reports.wildcard (String "*" ps) rest
       end.
Proof. destruct name; reflexivity. Qed.

Lemma wildcard_char p ps c rest :
  is_literal p = true ->
  Reports.wildcard (String p ps) (String c rest)
  = Ascii.eqb p c && Reports.wildcard ps rest.
Proof.
  unfold is_literal. intros H. apply andb_true_iff in H as [H1 H2].
  apply negb_true_iff in H1. apply negb_true_iff in H2.
  cbn [Reports.wildcard]. rewrite H1, H2. reflexivity.
Qed.

Lemma wildcard_char_nil p ps :
  is_literal p = true -> Reports.wildcard (String p ps) EmptyString = false.
Proof.
  unfold is_literal. intros H. apply andb_true_iff in H as [H1 H2].
  apply negb_true_iff in H1. cbn [Reports.wildcard]. now rewrite H1.
Qed.

Lemma wildcard_literal l ps rest :
  all_chars is_literal l = true ->
  Reports.wildcard (l +:+ ps) (l +:+ rest) = Reports.wildcard ps rest.
Proof.
  induction l as [|c l IH]; intros H; append_simpl; [reflexivity|].
  cbn [all_chars] in H. apply andb_true_iff in H as [Hc Hl].
  rewrite (wildcard_char _ _ _ _ Hc), Ascii.eqb_refl. exact (IH Hl).
Qed.

Lemma wildcard_literal_inv l ps name :
  all_chars is_literal l = true ->
  Reports.wildcard (l +:+ ps) name = true ->
  exists rest, name = (l +:+ rest)%string /\ Reports.wildcard ps rest = true.
Proof.
  revert name. induction l as [|c l IH]; intros name H; append_simpl.
  - intros E. exists name. auto.
  - cbn [all_chars] in H. apply andb_true_iff in H as [Hc Hl].
    destruct name as [|a name].
    + now rewrite (wildcard_char_nil _ _ Hc).
    + rewrite (wildcard_char _ _ _ _ Hc). intros E.
      apply andb_true_iff in E as [E1 E2]. apply Ascii.eqb_eq in E1 as <-.
      destruct (IH name Hl E2) as (rest & -> & Hr).
      exists rest. append_simpl. auto.
Qed.

Lemma wildcard_any ps x y :
  Reports.wildcard ps y = true ->
  Reports.wildcard (String "*" ps) (x +:+ y) = true.
Proof.
  intros H. induction x as [|c x IH]; append_simpl; rewrite wildcard_star.
  - now rewrite H.
  - rewrite IH. apply orb_true_r.
Qed.

Lemma wildcard_pdf x : Reports.wildcard "*.pdf" (x +:+ ".pdf") = true.
Proof. now apply wildcard_any. Qed.

(** *** Sorting *)

Lemma insert_desc_In a x l :
  In x (Reports.insert_desc a l) <-> x = a \/ In x l.
Proof.
  induction l as [|y l IH]; cbn [Reports.insert_desc].
  - cbn. intuition.
  - destruct (String.ltb y a); cbn [In] in *; [intuition|].
    rewrite IH. intuition.
Qed.

Lemma sorted_desc_In x l : In x (Reports.sorted_desc l) <-> In x l.
Proof.
  unfold Reports.sorted_desc. induction l as [|a l IH]; [reflexivity|].
  cbn [fold_right In]. rewrite insert_desc_In, IH. intuition.
Qed.

(** *** The names of the reports *)

Lemma report_pattern_split sid :
  ("report_" +:+ sid +:+ "_*.pdf")%string
  = (("report_" +:+ sid +:+ "_") +:+ "*.pdf")%string.
Proof. rewrite !string_app_assoc. reflexivity. Qed.

Lemma report_filename_split sid now :
  Reports.report_filename sid now
  = (("report_" +:+ sid +:+ "_")
     +:+ (Reports.strftime now +:+ ".pdf"))%string.
Proof.
  unfold Reports.report_filename. rewrite !string_app_assoc. reflexivity.
Qed.

Lemma report_prefix_literal dt :
  all_chars is_literal ("report_" +:+ Reports.strftime dt +:+ "_") = true.
Proof. now rewrite !all_chars_app, strftime_literal. Qed.

(** The pattern of a session matches the reports of that session, and no
    report of another session. *)
Lemma report_pattern_matches start start' now :
  Reports.wildcard ("report_" +:+ Reports.strftime start +:+ "_*.pdf")
    (Reports.report_filename (Reports.strftime start') now) = true
  <-> Reports.strftime start' = Reports.strftime start.
Proof.
  rewrite report_pattern_split, report_filename_split. split.
  - intros H.
    apply (wildcard_literal_inv _ _ _ (report_prefix_literal start)) in H
      as (rest & E & _).
    assert (Hl : String.length (Reports.strftime start')
                 = String.length (Reports.strftime start))
      by now rewrite !strftime_length.
    apply append_inj_length in E as [E _];
      [|now rewrite !string_app_length, Hl].
    apply append_inj_length in E as [_ E]; [|reflexivity].
    now apply append_inj_length in E as [E _].
  - intros ->.
    rewrite (wildcard_literal _ _ _ (report_prefix_literal start)).
    apply wildcard_pdf.
Qed.

(** X20: the pattern under which [get_report_path] looks for the report of a
    session matches the files [generate] writes for that session, whenever
    they are written, and no file written for a session started at another
    second; so, asked for a session of which a report is in the directory,
    [get_report_path] answers with the path of a file of the directory that
    matches the pattern of the session. *)
Theorem report_is_found_by_its_session_id
    (self : PDFReportGenerator) (directory : list string)
    (start : Reports.datetime) :
  let session_id := Reports.strftime start in
  let pattern := ("report_" +:+ session_id +:+ "_*.pdf")%string in
  (forall start' now : Reports.datetime,
      Reports.wildcard pattern
        (Reports.report_filename (Reports.strftime start') now) = true
      <-> Reports.strftime start' = session_id)
  /\ (forall now : Reports.datetime,
        In (Reports.report_filename session_id now) directory ->
        exists name : string,
          Reports.get_report_path self directory session_id
          = Some (Reports.joinpath (reports_dir self) name)
          /\ In name directory
          /\ Reports.wildcard pattern name = true).
Proof.
  intros session_id pattern. split.
  - intros start' now. apply report_pattern_matches.
  - intros now Hin. unfold Reports.get_report_path. fold pattern.
    assert (Hm : In (Reports.report_filename session_id now)
                   (Reports.glob pattern directory)).
    { apply List.filter_In. split; [exact Hin|].
      now apply report_pattern_matches. }
    destruct (Reports.glob pattern directory) as [|name rest] eqn:E;
      [destruct Hm|].
    exists name. split; [reflexivity|].
    assert (Hn : In name (Reports.glob pattern directory))
      by (rewrite E; now left).
    apply List.filter_In in Hn. exact Hn.
Qed.

Lemma report_stem sid now :
  Reports.stem (Reports.report_filename sid now)
  = ("report" +:+ String "_" (sid +:+ "_" +:+ Reports.strftime now))%string.
Proof.
  unfold Reports.report_filename.
  replace ("report_" +:+ sid +:+ "_" +:+ Reports.strftime now +:+ ".pdf")%string
    with (("report_" +:+ sid +:+ "_" +:+ Reports.strftime now) +:+ ".pdf")%string
    by (rewrite !string_app_assoc; reflexivity).
  rewrite stem_pdf; reflexivity.
Qed.

Lemma digits_no_underscore s :
  all_chars is_digit s = true ->
  all_chars (fun a => negb (Ascii.eqb a "_")) s = true.
Proof.
  apply all_chars_impl. intros c Hc. now apply is_digit_not.
Qed.

Lemma listed_session_id self mtime start now :
  Reports.session_id
    (Reports.report_entry self mtime
       (Reports.report_filename (Reports.strftime start) now))
  = Reports.date start.
Proof.
  unfold Reports.report_entry. cbv zeta. cbn [Reports.session_id].
  rewrite report_stem. unfold Str.split_on.
  rewrite (pieces_segment "_" EmptyString "report" _ eq_refl).
  unfold Reports.strftime at 1.
  rewrite !string_app_assoc.
  change ("_" +:+ ?x)%string with (String "_" x).
  rewrite (pieces_segment "_" EmptyString (Reports.date start) _
             (digits_no_underscore _ (date_all start))).
  reflexivity.
Qed.

(** X21: for a report written for a session, [list_reports] gives as
    [session_id] the piece of the file name between the first two
    underscores, which is the date of the session and not its identifier;
    the report is listed whenever it is in the directory; and looked up
    under the listed identifier, [get_report_path] matches the reports of
    every session started that day. *)
Theorem listed_session_id_is_the_date
    (self : PDFReportGenerator) (mtime : string -> string)
    (start now : Reports.datetime) :
  let name := Reports.report_filename (Reports.strftime start) now in
  let entry := Reports.report_entry self mtime name in
  Reports.session_id entry = Reports.date start
  /\ Reports.session_id entry <> Reports.strftime start
  /\ (forall directory : list string,
        In name directory ->
        In entry (Reports.list_reports self directory mtime))
  /\ (forall start' now' : Reports.datetime,
        Reports.date start' = Reports.date start ->
        Reports.wildcard
          ("report_" +:+ Reports.session_id entry +:+ "_*.pdf")
          (Reports.report_filename (Reports.strftime start') now') = true).
Proof.
  intros name entry.
  assert (Hid : Reports.session_id entry = Reports.date start)
    by apply listed_session_id.
  split; [exact Hid|]. split; [|split].
  - rewrite Hid. intros E. apply (f_equal String.length) in E.
    rewrite date_length, strftime_length in E. discriminate E.
  - intros directory Hin. unfold Reports.list_reports.
    apply in_map. apply sorted_desc_In. apply List.filter_In.
    split; [exact Hin|]. subst name. unfold Reports.report_filename.
    replace ("report_" +:+ Reports.strftime start +:+ "_"
             +:+ Reports.strftime now +:+ ".pdf")%string
      with (("report_" +:+ Reports.strftime start +:+ "_"
             +:+ Reports.strftime now) +:+ ".pdf")%string
      by (rewrite !string_app_assoc; reflexivity).
    apply wildcard_pdf.
  - intros start' now' Hd. rewrite Hid.
    unfold Reports.report_filename, Reports.strftime at 1. rewrite Hd.
    replace ("report_" +:+ Reports.date start +:+ "_*.pdf")%string
      with (("report_" +:+ Reports.date start +:+ "_") +:+ "*.pdf")%string
      by (rewrite !string_app_assoc; reflexivity).
    replace ("report_"
             +:+ (Reports.date start +:+ "_" +:+ Reports.time_of_day start')
             +:+ "_" +:+ Reports.strftime now' +:+ ".pdf")%string
      with (("report_" +:+ Reports.date start +:+ "_")
            +:+ ((Reports.time_of_day start' +:+ "_"
                  +:+ Reports.strftime now') +:+ ".pdf"))%string
      by (rewrite !string_app_assoc; reflexivity).
    rewrite wildcard_literal; [apply wildcard_pdf|].
    rewrite !all_chars_app.
    now rewrite (all_chars_impl _ _ _ is_digit_literal (date_all start)).
Qed.

(** The reports of two sessions started a second apart, and a file that is
    no report: the report of the later session is found under its
    identifier. *)
Lemma report_is_found_by_its_session_id_witness :
  let self := {| reports_dir := "reports" |} in
  let start := Reports.mkDatetime 2023 11 14 22 13 20 in
  let now := Reports.mkDatetime 2023 11 14 22 20 5 in
  let directory :=
    ["notes.txt"; "report_20231114_221319_20231114_222000.pdf";
     "report_20231114_221320_20231114_222005.pdf"]%string in
  Reports.strftime start = "20231114_221320"%string
  /\ In (Reports.report_filename (Reports.strftime start) now) directory
  /\ Reports.get_report_path self directory "20231114_221320"
     = Some "reports/report_20231114_221320_20231114_222005.pdf"%string
  /\ exists name : string,
       Reports.get_report_path self directory (Reports.strftime start)
       = Some (Reports.joinpath (reports_dir self) name)
       /\ In name directory
       /\ Reports.wildcard
            ("report_" +:+ Reports.strftime start +:+ "_*.pdf") name = true.
Proof.
  intros self start now directory.
  assert (Hin : In (Reports.report_filename (Reports.strftime start) now)
                  directory)
    by (right; right; left; vm_compute; reflexivity).
  split; [vm_compute; reflexivity|]. split; [exact Hin|].
  split; [vm_compute; reflexivity|].
  exact (proj2 (report_is_found_by_its_session_id self directory start)
           now Hin).
Defined.

(** The report of the session started on 14 November 2023 at 22:13:20 is
    listed under [20231114], and under that identifier the report of a
    session started that morning is matched. *)
Lemma listed_session_id_is_the_date_witness :
  let self := {| reports_dir := "reports" |} in
  let mtime := fun _ : string => "2023-11-14T22:20:05"%string in
  let start := Reports.mkDatetime 2023 11 14 22 13 20 in
  let now := Reports.mkDatetime 2023 11 14 22 20 5 in
  let morning := Reports.mkDatetime 2023 11 14 9 0 0 in
  let name := Reports.report_filename (Reports.strftime start) now in
  let entry := Reports.report_entry self mtime name in
  name = "report_20231114_221320_20231114_222005.pdf"%string
  /\ Reports.session_id entry = "20231114"%string
  /\ In entry (Reports.list_reports self ["notes.txt"%string; name] mtime)
  /\ Reports.wildcard ("report_" +:+ Reports.session_id entry +:+ "_*.pdf")
       (Reports.report_filename (Reports.strftime morning) now) = true.
Proof.
  intros self mtime start now morning name entry.
  destruct (listed_session_id_is_the_date self mtime start now)
    as (Hid & _ & Hl & Hm).
  split; [vm_compute; reflexivity|].
  split; [exact (eq_trans Hid eq_refl)|].
  split; [apply Hl; right; left; reflexivity|].
  apply Hm. vm_compute. reflexivity.
Defined.

(** An answer of the model with words around the object. *)
Lemma parse_json_ignores_the_text_around_the_object_witness :
  let sv :=
    {| InterviewBrain.config := fun _ => VNone;
       InterviewBrain.chat_completion := fun _ _ _ _ => Ok EmptyString;
       InterviewBrain.json_loads := fun s =>
         if String.eqb s "{}" then Some ∅ else None |} in
  InterviewBrain._parse_json_response sv "Here it is: {} I hope it helps."
  = ∅
  /\ InterviewBrain._parse_json_response sv "I cannot answer."
     = InterviewBrain.parse_error.
Proof.
  intros sv.
  destruct (parse_json_ignores_the_text_around_the_object sv) as [H1 H2].
  split.
  - exact (H1 "Here it is: "%string EmptyString " I hope it helps."%string
             eq_refl eq_refl).
  - exact (H2 "I cannot answer."%string eq_refl).
Defined.
